(** * rugplay_api: the command shell of [src/main.ts], embedded in Rocq

    The program is a Deno script: a configuration file holding a session
    cookie, a guarded HTTP helper ([api_req]), a table of commands and a
    read-eval-print loop.  This file embeds it as a state-and-exception
    monad over an explicit [World] (configuration, file system, remote
    server, console and network trace) and proves the properties of the
    specification against that embedding.

    Conventions of the embedding.
    - A JavaScript string is a Rocq [string]: the UTF-8 text of the string.
      Strings with unpaired surrogates have no such text and are outside
      the model.
    - A JavaScript number is a [number]: an IEEE 754 double, held as the
      exact rational it stands for, or one of [-0], [NaN], [+Infinity],
      [-Infinity].  Every operation gives the double nearest to the exact
      result, a tie going to the even significand.
    - [await] is sequencing: the program never runs two calls at the
      same time. *)

From Stdlib Require Import String Ascii List ZArith QArith Qround Qcanon Qabs
  Qpower Bool Lia Lqa.
Import ListNotations.
Open Scope string_scope.
Open Scope Z_scope.

(* ================================================================== *)
(** * Numbers *)
(* ================================================================== *)

Module Num.

Inductive number : Type :=
| Fin (q : Q)      (* a finite double other than -0, by its value *)
| NegZero
| PInf
| NInf
| NaN.

(** Finite numbers are kept in lowest terms, so that equal numbers are
    equal terms. *)
Definition fin (q : Q) : number := Fin (Qred q).

(** An integer that is a double: every one up to [2^53] in size is. *)
Definition of_Z (z : Z) : number := Fin (inject_Z z).

(** ** Rounding to the nearest double *)

(** [2^e] *)
Definition pow2 (e : Z) : Q :=
  if 0 <=? e then inject_Z (2 ^ e) else 1 # Z.to_pos (2 ^ (- e)).

(** [floor (log2 q)] for a positive [q]: the difference of the sizes of
    numerator and denominator, or one less. *)
Definition ilog2 (q : Q) : Z :=
  let e := Z.log2 (Qnum q) - Z.log2 (Zpos (Qden q)) in
  if Qle_bool (pow2 e) q then e else e - 1.

(** The nearest integer, a tie going to the even one. *)
Definition rne (q : Q) : Z :=
  let f := Qfloor q in
  match Qcompare (q - inject_Z f) (1 # 2) with
  | Lt => f
  | Gt => f + 1
  | Eq => if Z.even f then f else f + 1
  end.

(** The exponent of the last place of the doubles around a positive
    [q]: 53 significant bits, and nothing finer than [2^-1074]. *)
Definition ulp_exp (q : Q) : Z := Z.max (ilog2 q - 52) (-1074).

(** The double nearest to a positive [q]; [None] when that is beyond
    the largest double. *)
Definition nearest_raw (q : Q) : option Q :=
  let u := pow2 (ulp_exp q) in
  let r := (inject_Z (rne (q / u)) * u)%Q in
  if Qle_bool (pow2 1024) r then None else Some r.

Definition nearest_pos (q : Q) : option Q := option_map Qred (nearest_raw q).

(** The Number value for a real [q]: a negative [q] that rounds to zero
    gives [-0]. *)
Definition nearest (q : Q) : number :=
  match Qcompare q 0 with
  | Eq => Fin 0
  | Gt => match nearest_pos q with
          | Some r => Fin r
          | None => PInf
          end
  | Lt => match nearest_pos (- q) with
          | Some r => if Qeq_bool r 0 then NegZero else Fin (Qred (- r))
          | None => NInf
          end
  end.

(** ** Sign and value *)

(** The value of a finite number. *)
Definition finite (x : number) : option Q :=
  match x with
  | Fin q => Some q
  | NegZero => Some 0%Q
  | _ => None
  end.

(** The sign bit. *)
Definition negative (x : number) : bool :=
  match x with
  | Fin q => match Qcompare q 0 with Lt => true | _ => false end
  | NegZero | NInf => true
  | _ => false
  end.

Definition zero (neg : bool) : number := if neg then NegZero else Fin 0.
Definition inf (neg : bool) : number := if neg then NInf else PInf.

(** [Number.isNaN] *)
Definition isNaN (x : number) : bool :=
  match x with NaN => true | _ => false end.

(** ** Arithmetic *)

(** [x * y] *)
Definition mul (x y : number) : number :=
  let s := xorb (negative x) (negative y) in
  if isNaN x || isNaN y then NaN
  else match finite x, finite y with
       | Some a, Some b =>
           if Qeq_bool (a * b) 0 then zero s else nearest (a * b)
       | Some a, None | None, Some a =>
           if Qeq_bool a 0 then NaN else inf s
       | None, None => inf s
       end.

(** [x / y] *)
Definition div (x y : number) : number :=
  let s := xorb (negative x) (negative y) in
  if isNaN x || isNaN y then NaN
  else match finite x, finite y with
       | Some a, Some b =>
           if Qeq_bool b 0 then (if Qeq_bool a 0 then NaN else inf s)
           else if Qeq_bool a 0 then zero s
           else nearest (a / b)
       | Some _, None => zero s
       | None, Some _ => inf s
       | None, None => NaN
       end.

(** [x + y] *)
Definition add (x y : number) : number :=
  if isNaN x || isNaN y then NaN
  else match finite x, finite y with
       | Some a, Some b =>
           if Qeq_bool (a + b) 0 then zero (negative x && negative y)
           else nearest (a + b)
       | Some _, None => y
       | None, Some _ => x
       | None, None => if Bool.eqb (negative x) (negative y) then x else NaN
       end.

(** [Math.floor] *)
Definition floor (x : number) : number :=
  match x with
  | Fin q => of_Z (Qfloor q)
  | _ => x
  end.

(** [Math.round]: the nearest integer, halves going up; from [-0.5] up
    to zero the result is [-0]. *)
Definition round (x : number) : number :=
  match x with
  | Fin q =>
      if Qle_bool (- (1 # 2)) q && negative x then NegZero
      else of_Z (Qfloor (q + (1 # 2)))
  | _ => x
  end.

(** ** Comparison *)

(** [x > y] *)
Definition gtb (x y : number) : bool :=
  if isNaN x || isNaN y then false
  else match finite x, finite y with
       | Some a, Some b => match Qcompare a b with Gt => true | _ => false end
       | Some _, None => negative y
       | None, Some _ => negb (negative x)
       | None, None => negb (negative x) && negative y
       end.

(** [x < y] *)
Definition ltb (x y : number) : bool := gtb y x.

(** [x == y] on numbers ([NaN] differs from itself, [-0] equals [0]). *)
Definition eqb (x y : number) : bool :=
  if isNaN x || isNaN y then false
  else match finite x, finite y with
       | Some a, Some b => Qeq_bool a b
       | None, None => Bool.eqb (negative x) (negative y)
       | _, _ => false
       end.

End Num.
Export Num.

(* ================================================================== *)
(** * Text: the string operations the script relies on *)
(* ================================================================== *)

Module Text.

Definition dquote : ascii := "034"%char.
Definition code (c : ascii) : Z := Z.of_N (N_of_ascii c).
Definition chr (z : Z) : ascii := ascii_of_N (Z.to_N z).
Definition str1 (c : ascii) : string := String c EmptyString.

Definition between (lo x hi : Z) : bool := (lo <=? x) && (x <=? hi).

(** ** Decimal and hexadecimal digits *)

Definition digit_of (c : ascii) : option Z :=
  if between 48 (code c) 57 then Some (code c - 48) else None.

Definition hex_of (c : ascii) : option Z :=
  let n := code c in
  if between 48 n 57 then Some (n - 48)
  else if between 97 n 102 then Some (n - 87)
  else if between 65 n 70 then Some (n - 55)
  else None.

Definition hex_lower (d : Z) : ascii :=
  if d <? 10 then chr (48 + d) else chr (87 + d).

Definition hex_upper (d : Z) : ascii :=
  if d <? 10 then chr (48 + d) else chr (55 + d).

(** [digits s acc cnt] reads the longest run of decimal digits at the head
    of [s]: the value read on top of [acc], the number of digits read on
    top of [cnt], and the rest. *)
Fixpoint digits (s : string) (acc cnt : Z) : Z * Z * string :=
  match s with
  | String c r =>
      match digit_of c with
      | Some d => digits r (10 * acc + d) (cnt + 1)
      | None => (acc, cnt, s)
      end
  | EmptyString => (acc, cnt, s)
  end.

(** [m * 10^e] as an exact rational. *)
Definition scale10 (m e : Z) : Q :=
  if 0 <=? e then inject_Z (m * 10 ^ e)
  else Qmake m (Z.to_pos (10 ^ (- e))).

(** An exponent part [e], [e+] or [e-] followed by at least one digit;
    without the digit nothing is consumed. *)
Definition exponent (s : string) : Z * string :=
  match s with
  | String c r =>
      if (code c =? 101) || (code c =? 69) then
        let '(sg, r1) :=
          match r with
          | String "+" r' => (1, r')
          | String "-" r' => (-1, r')
          | _ => (1, r)
          end in
        let '(e, n, r2) := digits r1 0 0 in
        if 0 <? n then (sg * e, r2) else (0, s)
      else (0, s)
  | EmptyString => (0, s)
  end.

(** ** White space: the WhiteSpace and LineTerminator code points,
    as UTF-8 *)

Definition ws_prefixes : list string :=
  map (fun l => string_of_list_ascii (map chr l))
    ([ [9]; [10]; [11]; [12]; [13]; [32]; [194; 160]; [225; 154; 128];
       [226; 128; 168]; [226; 128; 169]; [226; 128; 175]; [226; 129; 159];
       [227; 128; 128]; [239; 187; 191] ]
     ++ map (fun k => [226; 128; k])
          [128; 129; 130; 131; 132; 133; 134; 135; 136; 137; 138]).

Fixpoint strip_prefix (p s : string) : option string :=
  match p, s with
  | EmptyString, _ => Some s
  | String a p', String b s' =>
      if Ascii.eqb a b then strip_prefix p' s' else None
  | _, _ => None
  end.

Fixpoint first_strip (ps : list string) (s : string) : option string :=
  match ps with
  | [] => None
  | p :: ps' =>
      match strip_prefix p s with
      | Some r => Some r
      | None => first_strip ps' s
      end
  end.

(** Dropping leading white space: every prefix has at least one byte, so
    the length of the text bounds the number of rounds. *)
Fixpoint trim_start_fuel (fuel : nat) (s : string) : string :=
  match fuel with
  | O => s
  | S f =>
      match first_strip ws_prefixes s with
      | Some r => trim_start_fuel f r
      | None => s
      end
  end.

Definition trim_start (s : string) : string :=
  trim_start_fuel (String.length s) s.

Definition all_ws (s : string) : bool :=
  match trim_start s with EmptyString => true | _ => false end.

Fixpoint trim_end (s : string) : string :=
  if all_ws s then EmptyString
  else match s with
       | String c r => String c (trim_end r)
       | EmptyString => EmptyString
       end.

Definition trim (s : string) : string := trim_end (trim_start s).

(** ** StrDecimalLiteral: the numeric prefix read by [parseFloat] *)

Definition unsigned_decimal (s : string) : option (number * string) :=
  match strip_prefix "Infinity" s with
  | Some r => Some (PInf, r)
  | None =>
      let '(ip, ni, r1) := digits s 0 0 in
      let '(m, nf, r2) :=
        match r1 with
        | String "." r =>
            let '(m, nf, r') := digits r ip 0 in
            if (0 <? ni) || (0 <? nf) then (m, nf, r') else (ip, 0, r1)
        | _ => (ip, 0, r1)
        end in
      if (ni =? 0) && (nf =? 0) then None
      else
        let '(e, r3) := exponent r2 in
        Some (nearest (scale10 m (e - nf)), r3)
  end.

(** The negative of a number: of [0] it is [-0]. *)
Definition negate (x : number) : number :=
  match x with
  | Fin q => if Qeq_bool q 0 then NegZero else fin (- q)
  | NegZero => Fin 0
  | PInf => NInf
  | NInf => PInf
  | NaN => NaN
  end.

Definition signed_decimal (s : string) : option (number * string) :=
  match s with
  | String "+" r => unsigned_decimal r
  | String "-" r =>
      match unsigned_decimal r with
      | Some (x, r') => Some (negate x, r')
      | None => None
      end
  | _ => unsigned_decimal s
  end.

(** [parseFloat(s)] *)
Definition parseFloat (s : string) : number :=
  match signed_decimal (trim_start s) with
  | Some (x, _) => x
  | None => NaN
  end.

(** Digits in base 2, 8 or 16, all of the text. *)
Fixpoint radix_digits (b : Z) (s : string) (acc : Z) : option Z :=
  match s with
  | EmptyString => Some acc
  | String c r =>
      match hex_of c with
      | Some d => if d <? b then radix_digits b r (b * acc + d) else None
      | None => None
      end
  end.

Definition radix_literal (s : string) : option (option Z) :=
  match s with
  | String "0" (String x r) =>
      let b := match x with
               | "x"%char | "X"%char => 16
               | "o"%char | "O"%char => 8
               | "b"%char | "B"%char => 2
               | _ => 0
               end in
      if b =? 0 then None
      else match r with
           | EmptyString => Some None
           | _ => Some (radix_digits b r 0)
           end
  | _ => None
  end.

(** [Number(s)]: the whole text has to be a numeric literal. *)
Definition StringToNumber (s : string) : number :=
  let t := trim s in
  match t with
  | EmptyString => Fin 0
  | _ =>
      match radix_literal t with
      | Some (Some z) => nearest (inject_Z z)
      | Some None => NaN
      | None =>
          match signed_decimal t with
          | Some (x, EmptyString) => x
          | _ => NaN
          end
      end
  end.

(** ** [split], [join] and the last element of a split *)

(** [s.split(sep)] for a one-character separator. *)
Fixpoint split_on (sep : ascii) (s : string) : list string :=
  match s with
  | EmptyString => [EmptyString]
  | String c r =>
      if Ascii.eqb c sep then EmptyString :: split_on sep r
      else match split_on sep r with
           | t :: ts => String c t :: ts
           | [] => [str1 c]
           end
  end.

(** [s.split(sep).pop()] *)
Definition last_piece (sep : ascii) (s : string) : string :=
  last (split_on sep s) EmptyString.

(** ** [encodeURIComponent]: unreserved characters stay, every other
    byte of the UTF-8 text becomes a percent escape. *)

Definition unreserved (c : ascii) : bool :=
  let n := code c in
  between 65 n 90 || between 97 n 122 || between 48 n 57
  || existsb (Z.eqb n) [45; 95; 46; 33; 126; 42; 39; 40; 41].

Fixpoint encodeURIComponent (s : string) : string :=
  match s with
  | EmptyString => EmptyString
  | String c r =>
      if unreserved c then String c (encodeURIComponent r)
      else String "%" (String (hex_upper (code c / 16))
             (String (hex_upper (code c mod 16)) (encodeURIComponent r)))
  end.

(** ** [Number.prototype.toString]

    For a positive number [x] the text is built from integers [n], [k]
    and [s] with [10^(k-1) <= s < 10^k] such that [s * 10^(n-k)]
    denotes [x] and [k] is as small as possible. *)

(** The decimal digits of a natural number. *)
Fixpoint decimal_fuel (fuel : nat) (z : Z) (acc : string) : string :=
  match fuel with
  | O => acc
  | S f =>
      let acc' := String (chr (48 + z mod 10)) acc in
      if z <? 10 then acc' else decimal_fuel f (z / 10) acc'
  end.

Definition decimal (z : Z) : string :=
  decimal_fuel (S (Z.to_nat (Z.log2 z))) z EmptyString.

Definition pow10 (e : Z) : Q := scale10 1 e.

Fixpoint magnitude_from (fuel : nat) (n : Z) (x : Q) : Z :=
  match fuel with
  | O => n
  | S f => if Qle_bool (pow10 n) x then magnitude_from f (n + 1) x else n
  end.

(** The [n] with [10^(n-1) <= x < 10^n], for a positive [x]: the search
    starts below it, from the binary logarithm times [log10 2]. *)
Definition magnitude (x : Q) : Z :=
  magnitude_from 4 (ilog2 x * 30103 / 100000 - 1) x.

(** The decimal [s * 10^e] denotes the double [x]: [x] is the double
    nearest to it. *)
Definition denotes (s e : Z) (x : Q) : bool :=
  match nearest_raw (inject_Z s * pow10 e) with
  | Some y => Qeq_bool y x
  | None => false
  end.

(** The digits [s] of the shortest decimal, looked for with [k] digits
    and more: with [k] digits the only candidates are the two integers
    around [x / 10^(n-k)]; of two that denote [x] the closer one is
    taken.  Seventeen digits denote every double. *)
Fixpoint shortest (fuel : nat) (k n : Z) (x : Q) : Z :=
  let e := n - k in
  let t := (x / pow10 e)%Q in
  let lo := Qfloor t in
  let hi := Qceiling t in
  let ok_lo := denotes lo e x in
  let ok_hi := (hi <? 10 ^ k) && denotes hi e x in
  let closer :=
    match Qcompare (t - inject_Z lo) (inject_Z hi - t) with
    | Lt => lo
    | Gt => hi
    | Eq => if Z.even lo then lo else hi
    end in
  match fuel with
  | O => lo
  | S f =>
      if ok_lo && ok_hi then closer
      else if ok_lo then lo
      else if ok_hi then hi
      else shortest f (k + 1) n x
  end.

Fixpoint zeros (n : nat) : string :=
  match n with
  | O => EmptyString
  | S m => String "0" (zeros m)
  end.

(** The text of a positive double: plain digits when [n] is from -5 to
    21, the exponent form otherwise.  A double just below a power of
    ten which that power denotes is written as the power. *)
Definition positive_text (x : Q) : string :=
  let n0 := magnitude x in
  let '(ds, n) :=
    if denotes 1 n0 x then ("1", n0 + 1)
    else (decimal (shortest 17 1 n0 x), n0) in
  let k := Z.of_nat (String.length ds) in
  if (k <=? n) && (n <=? 21) then ds ++ zeros (Z.to_nat (n - k))
  else if (0 <? n) && (n <=? 21) then
    substring 0 (Z.to_nat n) ds ++ "."
    ++ substring (Z.to_nat n) (Z.to_nat (k - n)) ds
  else if (-6 <? n) && (n <=? 0) then "0." ++ zeros (Z.to_nat (- n)) ++ ds
  else
    let e := n - 1 in
    match ds with
    | String c EmptyString => ds
    | String c r => String c ("." ++ r)
    | EmptyString => ds
    end
    ++ "e" ++ (if e <? 0 then "-" else "+") ++ decimal (Z.abs e).

(** [String(n)] for a number, also what a template literal splices
    in. *)
Definition Number_toString (n : number) : string :=
  match n with
  | Fin q =>
      match Qcompare q 0 with
      | Eq => "0"
      | Gt => positive_text q
      | Lt => "-" ++ positive_text (- q)
      end
  | NegZero => "0"
  | PInf => "Infinity"
  | NInf => "-Infinity"
  | NaN => "NaN"
  end.

(** ** UTF-8 and UTF-16 *)

(** The UTF-8 text of a code point. *)
Definition utf8 (n : Z) : string :=
  if n <? 128 then str1 (chr n)
  else if n <? 2048 then
    String (chr (192 + n / 64)) (str1 (chr (128 + n mod 64)))
  else if n <? 65536 then
    String (chr (224 + n / 4096))
      (String (chr (128 + (n / 64) mod 64)) (str1 (chr (128 + n mod 64))))
  else
    String (chr (240 + n / 262144))
      (String (chr (128 + (n / 4096) mod 64))
        (String (chr (128 + (n / 64) mod 64)) (str1 (chr (128 + n mod 64))))).

(** The code points of a text: a byte followed by its continuation
    bytes. *)
Definition continuation (c : ascii) : bool := between 128 (code c) 191.

Fixpoint code_points (s : string) : list string :=
  match s with
  | EmptyString => []
  | String c r =>
      match code_points r with
      | String d p :: ps =>
          if continuation d then String c (String d p) :: ps
          else str1 c :: String d p :: ps
      | ps => str1 c :: ps
      end
  end.

(** The UTF-16 code units of a text, each as a text: a code point of
    four bytes is a pair of surrogates, any other is one unit. *)
Definition utf16_units (s : string) : list string :=
  flat_map
    (fun p =>
       match p with
       | String a (String b (String c (String d EmptyString))) =>
           let v := (code a - 240) * 262144 + (code b - 128) * 4096
                    + (code c - 128) * 64 + (code d - 128) - 65536 in
           [utf8 (55296 + v / 1024); utf8 (56320 + v mod 1024)]
       | _ => [p]
       end)
    (code_points s).

End Text.
Export Text.

(* ================================================================== *)
(** * Values: what [JSON.parse] returns and the handlers inspect *)
(* ================================================================== *)

Module Value.

#[local] Unset Elimination Schemes.

Inductive value : Type :=
| VUndef
| VNull
| VBool (b : bool)
| VNum (n : number)
| VStr (s : string)
| VArr (items : list value)
| VObj (fields : list (string * value))
| VNative (name : string).   (* a built-in reached through a prototype *)

#[local] Set Elimination Schemes.

(** What the script takes from its platform without the model looking
    inside: the path functions of [jsr:@std/path], and the [name]
    property of the [chalk] function. *)
Class Host : Type := {
  path_join : string -> string -> string;
  path_dirname : string -> string;
  chalk_name : value
}.

(** ** Properties *)

Fixpoint assoc (k : string) (l : list (string * value)) : option value :=
  match l with
  | [] => None
  | (k', v) :: r => if String.eqb k k' then Some v else assoc k r
  end.

(** [o[k] = v] on own properties: an existing key keeps its place. *)
Fixpoint assoc_set (k : string) (v : value) (l : list (string * value))
  : list (string * value) :=
  match l with
  | [] => [(k, v)]
  | (k', v') :: r =>
      if String.eqb k k' then (k, v) :: r else (k', v') :: assoc_set k v r
  end.

(** The members every object literal inherits from [Object.prototype]
    (Deno removes [__proto__]). *)
Definition Object_prototype : list string :=
  [ "constructor"; "hasOwnProperty"; "isPrototypeOf";
    "propertyIsEnumerable"; "toLocaleString"; "toString"; "valueOf";
    "__defineGetter__"; "__defineSetter__"; "__lookupGetter__";
    "__lookupSetter__" ].

Definition inherited (k : string) : bool :=
  existsb (String.eqb k) Object_prototype.

(** [o[k]] on an object: own properties first, then the prototype. *)
Definition obj_get (fields : list (string * value)) (k : string) : value :=
  match assoc k fields with
  | Some v => v
  | None => if inherited k then VNative k else VUndef
  end.

(** The decimal text of an array index. *)
Fixpoint index_digits (fuel : nat) (n : N) (acc : string) : string :=
  match fuel with
  | O => acc
  | S f =>
      let acc' := String (chr (48 + Z.of_N (n mod 10))) acc in
      if (n <? 10)%N then acc' else index_digits f (n / 10)%N acc'
  end.

Definition index_key (i : nat) : string :=
  index_digits (S i) (N.of_nat i) EmptyString.

Section Coercions.
Context {host : Host}.

(** [String(v)], also what a template literal splices in.  [None] is a
    TypeError: an object whose own [toString] shadows the inherited one
    cannot be converted to a primitive. *)
Fixpoint to_string (v : value) : option string :=
  match v with
  | VUndef => Some "undefined"
  | VNull => Some "null"
  | VBool true => Some "true"
  | VBool false => Some "false"
  | VNum n => Some (Number_toString n)
  | VStr s => Some s
  | VArr l =>
      (fix join (l : list value) : option string :=
         match l with
         | [] => Some EmptyString
         | x :: r =>
             let e := match x with
                      | VUndef | VNull => Some EmptyString
                      | _ => to_string x
                      end in
             match e, r with
             | None, _ => None
             | Some e, [] => Some e
             | Some e, _ =>
                 match join r with
                 | Some t => Some (e ++ "," ++ t)
                 | None => None
                 end
             end
         end) l
  | VObj fields =>
      match assoc "toString" fields with
      | Some _ => None
      | None => Some "[object Object]"
      end
  | VNative n => Some ("function " ++ n ++ "() { [native code] }")
  end.

(** [Number(v)] *)
Definition to_number (v : value) : option number :=
  match v with
  | VUndef => Some NaN
  | VNull => Some (Fin 0)
  | VBool true => Some (Fin 1)
  | VBool false => Some (Fin 0)
  | VNum n => Some n
  | VStr s => Some (StringToNumber s)
  | VArr _ | VObj _ | VNative _ => option_map StringToNumber (to_string v)
  end.

(** [Boolean(v)] *)
Definition truthy (v : value) : bool :=
  match v with
  | VUndef | VNull => false
  | VBool b => b
  | VNum (Fin q) => negb (Qeq_bool q 0)
  | VNum (NegZero | NaN) => false
  | VNum _ => true
  | VStr EmptyString => false
  | _ => true
  end.

(** [v == n] for a number literal [n] *)
Definition loose_eq_num (v : value) (n : number) : option bool :=
  match v with
  | VUndef | VNull => Some false
  | _ => option_map (fun x => Num.eqb x n) (to_number v)
  end.

(** [v == s] for a string literal [s] *)
Definition loose_eq_str (v : value) (s : string) : option bool :=
  match v with
  | VUndef | VNull => Some false
  | VNum _ | VBool _ =>
      option_map (fun x => Num.eqb x (StringToNumber s)) (to_number v)
  | VStr _ | VArr _ | VObj _ | VNative _ =>
      option_map (fun t => String.eqb t s) (to_string v)
  end.

(** [v == true] *)
Definition loose_eq_true (v : value) : option bool := loose_eq_num v (Fin 1).

(** [v > n] for a number literal [n] *)
Definition gt_num (v : value) (n : number) : option bool :=
  option_map (fun x => Num.gtb x n) (to_number v).

(** [v === s], the comparison of a [switch] on string cases *)
Definition strict_eq_str (v : value) (s : string) : bool :=
  match v with
  | VStr t => String.eqb t s
  | _ => false
  end.

(** [v.k] for the property names the handlers read; [None] is the
    TypeError of reading a property of [undefined] or [null].  None of
    those names is defined on the prototype of an array, string, number
    or boolean, so only objects answer. *)
Definition get_prop (v : value) (k : string) : option value :=
  match v with
  | VUndef | VNull => None
  | VObj fields => Some (obj_get fields k)
  | _ => Some VUndef
  end.

(** [v[i]] for a non-negative integer [i]; on a string, the i-th
    UTF-16 code unit. *)
Definition get_index (v : value) (i : nat) : option value :=
  match v with
  | VUndef | VNull => None
  | VArr l => Some (nth i l VUndef)
  | VObj fields => Some (obj_get fields (index_key i))
  | VStr s =>
      Some (match nth_error (utf16_units s) i with
            | Some c => VStr c
            | None => VUndef
            end)
  | _ => Some VUndef
  end.

(** What [for (const x of v)] iterates; [None] is the TypeError of a
    value that is not iterable. *)
Definition iterate (v : value) : option (list value) :=
  match v with
  | VArr l => Some l
  | VStr s => Some (map VStr (code_points s))
  | _ => None
  end.

End Coercions.

End Value.
Export Value.

(* ================================================================== *)
(** * JSON text *)
(* ================================================================== *)

Module JSON.

(** ** [JSON.stringify] *)

(** The escape of one character inside a JSON string literal. *)
Definition quote_char (c : ascii) : string :=
  let n := code c in
  if n =? 34 then String "\" (str1 dquote)
  else if n =? 92 then "\\"
  else if n =? 8 then "\b"
  else if n =? 9 then "\t"
  else if n =? 10 then "\n"
  else if n =? 12 then "\f"
  else if n =? 13 then "\r"
  else if n <? 32 then
    "\u00" ++ String (hex_lower (n / 16)) (str1 (hex_lower (n mod 16)))
  else str1 c.

Fixpoint quote_chars (s : string) : string :=
  match s with
  | EmptyString => EmptyString
  | String c r => quote_char c ++ quote_chars r
  end.

Definition quote (s : string) : string :=
  String dquote (quote_chars s ++ str1 dquote).

Section Stringify.
Context {host : Host}.

(** [JSON.stringify(v)]; [None] is the result [undefined].  Properties
    whose value has no JSON text are left out of an object and become
    [null] in an array. *)
Fixpoint stringify (v : value) : option string :=
  match v with
  | VUndef | VNative _ => None
  | VNull => Some "null"
  | VBool true => Some "true"
  | VBool false => Some "false"
  | VNum (PInf | NInf | NaN) => Some "null"
  | VNum n => Some (Number_toString n)
  | VStr s => Some (quote s)
  | VArr l =>
      Some ("[" ++
        (fix items (l : list value) : string :=
           match l with
           | [] => EmptyString
           | x :: r =>
               let e := match stringify x with
                        | Some t => t
                        | None => "null"
                        end in
               match r with
               | [] => e
               | _ => e ++ "," ++ items r
               end
           end) l ++ "]")
  | VObj fields =>
      Some ("{" ++
        (fix members (first : bool) (l : list (string * value)) : string :=
           match l with
           | [] => EmptyString
           | (k, x) :: r =>
               match stringify x with
               | Some t =>
                   (if first then EmptyString else ",")
                   ++ quote k ++ ":" ++ t ++ members false r
               | None => members first r
               end
           end) true fields ++ "}")
  end.

End Stringify.

(** ** [JSON.parse] *)

Definition hex4 (a b c d : ascii) : option Z :=
  match hex_of a, hex_of b, hex_of c, hex_of d with
  | Some x, Some y, Some z, Some w => Some (((x * 16 + y) * 16 + z) * 16 + w)
  | _, _, _, _ => None
  end.

Definition push (t : string) (r : option (string * string))
  : option (string * string) :=
  match r with
  | Some (s, rest) => Some (t ++ s, rest)
  | None => None
  end.

(** The characters of a string literal after its opening quote, up to
    and including the closing quote: the string denoted and the rest of
    the input.  A high surrogate escape directly followed by a low one
    denotes one code point; an unpaired surrogate escape is kept as its
    three-byte form. *)
Fixpoint string_body (s : string) : option (string * string) :=
  match s with
  | EmptyString => None
  | String c r =>
      if code c =? 34 then Some (EmptyString, r)
      else if code c <? 32 then None
      else if code c =? 92 then
        match r with
        | String e r1 =>
            match e with
            | "b"%char => push (str1 (chr 8)) (string_body r1)
            | "t"%char => push (str1 (chr 9)) (string_body r1)
            | "n"%char => push (str1 (chr 10)) (string_body r1)
            | "f"%char => push (str1 (chr 12)) (string_body r1)
            | "r"%char => push (str1 (chr 13)) (string_body r1)
            | "/"%char => push "/" (string_body r1)
            | "\"%char => push "\" (string_body r1)
            | "u"%char =>
                match r1 with
                | String h1 (String h2 (String h3 (String h4 r2))) =>
                    match hex4 h1 h2 h3 h4 with
                    | None => None
                    | Some hi =>
                        let single := push (utf8 hi) (string_body r2) in
                        if between 55296 hi 56319 then
                          match r2 with
                          | String "\" (String "u" (String l1 (String l2
                              (String l3 (String l4 r3))))) =>
                              match hex4 l1 l2 l3 l4 with
                              | Some lo =>
                                  if between 56320 lo 57343 then
                                    push (utf8 (65536 + (hi - 55296) * 1024
                                                + (lo - 56320)))
                                         (string_body r3)
                                  else single
                              | None => None
                              end
                          | _ => single
                          end
                        else single
                    end
                | _ => None
                end
            | _ => if code e =? 34 then push (str1 dquote) (string_body r1)
                   else None
            end
        | EmptyString => None
        end
      else push (str1 c) (string_body r)
  end.

Definition json_ws (c : ascii) : bool :=
  existsb (Z.eqb (code c)) [32; 9; 10; 13].

Fixpoint skip_ws (s : string) : string :=
  match s with
  | String c r => if json_ws c then skip_ws r else s
  | EmptyString => s
  end.

(** The exponent of a JSON number: once [e] is there, digits must
    follow. *)
Definition number_exponent (s : string) : option (Z * string) :=
  match s with
  | String c r =>
      if (code c =? 101) || (code c =? 69) then
        let '(sg, r1) :=
          match r with
          | String "+" r' => (1, r')
          | String "-" r' => (-1, r')
          | _ => (1, r)
          end in
        let '(e, n, r2) := digits r1 0 0 in
        if 0 <? n then Some (sg * e, r2) else None
      else Some (0, s)
  | EmptyString => Some (0, s)
  end.

(** A JSON number: an optional minus, an integer part without leading
    zeros, an optional fraction and an optional exponent. *)
Definition number_literal (s : string) : option (value * string) :=
  let '(neg, s1) :=
    match s with
    | String "-" r => (true, r)
    | _ => (false, s)
    end in
  match s1 with
  | EmptyString => None
  | String c r =>
      match digit_of c with
      | None => None
      | Some d =>
          let '(ip, r1) :=
            if d =? 0 then (0, r)
            else let '(v, _, r') := digits s1 0 0 in (v, r') in
          let frac :=
            match r1 with
            | String "." r2 =>
                let '(m, nf, r3) := digits r2 ip 0 in
                if 0 <? nf then Some (m, nf, r3) else None
            | _ => Some (ip, 0, r1)
            end in
          match frac with
          | None => None
          | Some (m, nf, r3) =>
              match number_exponent r3 with
              | None => None
              | Some (e, r4) =>
                  let x := nearest (scale10 m (e - nf)) in
                  Some (VNum (if neg then negate x else x), r4)
              end
          end
      end
  end.

Section Composite.
Variable parse_inner : string -> option (value * string).

(** The elements of an array after the first one was found to be
    there, up to the closing bracket. *)
Fixpoint elements (fuel : nat) (s : string) : option (list value * string) :=
  match fuel with
  | O => None
  | S f =>
      match parse_inner s with
      | None => None
      | Some (v, r) =>
          match skip_ws r with
          | String "," r' =>
              match elements f r' with
              | Some (vs, r'') => Some (v :: vs, r'')
              | None => None
              end
          | String "]" r' => Some ([v], r')
          | _ => None
          end
      end
  end.

(** The members of an object, up to the closing brace; a repeated key
    takes the later value. *)
Fixpoint members (fuel : nat) (s : string) (acc : list (string * value))
  : option (list (string * value) * string) :=
  match fuel with
  | O => None
  | S f =>
      match skip_ws s with
      | String q r =>
          if code q =? 34 then
            match string_body r with
            | None => None
            | Some (k, r1) =>
                match skip_ws r1 with
                | String ":" r2 =>
                    match parse_inner r2 with
                    | None => None
                    | Some (v, r3) =>
                        match skip_ws r3 with
                        | String "," r4 => members f r4 (assoc_set k v acc)
                        | String "}" r4 => Some (assoc_set k v acc, r4)
                        | _ => None
                        end
                    end
                | _ => None
                end
            end
          else None
      | EmptyString => None
      end
  end.

End Composite.

(** One JSON value at the head of the input.  The fuel bounds the depth
    of nesting, and the loops over elements and members have a fuel of
    their own.  Every level of nesting and every element takes at least
    one character of the input, so the length of the input is fuel
    enough for both. *)
Fixpoint parse_value (fuel : nat) (s : string) : option (value * string) :=
  match fuel with
  | O => None
  | S f =>
      match skip_ws s with
      | EmptyString => None
      | String c r =>
          if code c =? 34 then
            match string_body r with
            | Some (t, r') => Some (VStr t, r')
            | None => None
            end
          else
            match c with
            | "["%char =>
                match skip_ws r with
                | String "]" r' => Some (VArr [], r')
                | _ =>
                    match elements (parse_value f) (String.length r) r with
                    | Some (vs, r') => Some (VArr vs, r')
                    | None => None
                    end
                end
            | "{"%char =>
                match skip_ws r with
                | String "}" r' => Some (VObj [], r')
                | _ =>
                    match members (parse_value f) (String.length r) r [] with
                    | Some (ms, r') => Some (VObj ms, r')
                    | None => None
                    end
                end
            | "t"%char =>
                match strip_prefix "rue" r with
                | Some r' => Some (VBool true, r')
                | None => None
                end
            | "f"%char =>
                match strip_prefix "alse" r with
                | Some r' => Some (VBool false, r')
                | None => None
                end
            | "n"%char =>
                match strip_prefix "ull" r with
                | Some r' => Some (VNull, r')
                | None => None
                end
            | _ => number_literal (String c r)
            end
      end
  end.

(** [JSON.parse(s)]; [None] is the SyntaxError. *)
Definition parse (s : string) : option value :=
  match parse_value (S (String.length s)) s with
  | Some (v, r) =>
      match skip_ws r with
      | EmptyString => Some v
      | _ => None
      end
  | None => None
  end.

End JSON.

(* ================================================================== *)
(** * The world of the script and its effects *)
(* ================================================================== *)

Module Shell.

(** ** Console documents *)

(** The [chalk] styles the script uses. *)
Inductive style : Type :=
| bold | italic | red_bright | green_bright | green | yellow | yellow_bright
| bg_white | bg_red_bright | bg_green | bg_gray | bg_blue.

(** A piece of console text: literal text, a spliced value, or a styled
    run.  The escape codes of the terminal are not modelled, the
    structure of the text is. *)
#[local] Unset Elimination Schemes.
Inductive doc : Type :=
| Txt (s : string)
| Str (v : value)
| Chalk (c : style) (d : list doc).
#[local] Set Elimination Schemes.

Inductive error : Type :=
| TypeError
| SyntaxError
| NotFound (path : string)
| PermissionDenied (path : string)
| NetworkError (reason : string).

(** One argument of [console.log]: a text built by the script, or a
    value handed over as it is. *)
Inductive logarg : Type :=
| Tpl (d : list doc)
| Raw (v : value)
| RawError (e : error).

(** ** Requests and responses *)

Record File : Type := {
  file_name : string;
  file_type : string;
  file_bytes : string;
  lastModified : number
}.

Inductive formval : Type :=
| FormText (s : string)
| FormFile (f : File).

Inductive reqbody : Type :=
| NoBody
| TextBody (s : string)
| FormBody (fd : list (string * formval)).

Record Request : Type := {
  url : string;
  method : string;
  headers : list (string * value);
  body : reqbody
}.

Record Response : Type := {
  ok : bool;
  text : string
}.

Inductive outcome : Type :=
| Respond (r : Response)
| Reject (e : error).

Inductive event : Type :=
| Log (args : list logarg)
| Fetch (r : Request).

(** ** The world *)

Record FileEntry : Type := {
  content : string;
  mtime : option number
}.

Record World : Type := {
  config : value;                         (* the module variable [config] *)
  env : string -> option string;          (* [Deno.env] *)
  files : list (string * FileEntry);
  dirs : list string;
  readable : string -> bool;
  writable : string -> bool;
  clock : number;                         (* [Date.now()] *)
  server : nat -> Request -> outcome;     (* the answer to the n-th call *)
  trace : list event                      (* console and network, in order *)
}.

Definition set_config (c : value) (w : World) : World :=
  {| config := c; env := env w; files := files w; dirs := dirs w;
     readable := readable w; writable := writable w; clock := clock w;
     server := server w; trace := trace w |}.

Definition set_files (f : list (string * FileEntry)) (w : World) : World :=
  {| config := config w; env := env w; files := f; dirs := dirs w;
     readable := readable w; writable := writable w; clock := clock w;
     server := server w; trace := trace w |}.

Definition set_dirs (d : list string) (w : World) : World :=
  {| config := config w; env := env w; files := files w; dirs := d;
     readable := readable w; writable := writable w; clock := clock w;
     server := server w; trace := trace w |}.

Definition emit (e : event) (w : World) : World :=
  {| config := config w; env := env w; files := files w; dirs := dirs w;
     readable := readable w; writable := writable w; clock := clock w;
     server := server w; trace := trace w ++ [e] |}.

Definition is_fetch (e : event) : bool :=
  match e with Fetch _ => true | Log _ => false end.

Definition fetches (t : list event) : list event := filter is_fetch t.

(** ** The monad: state, exceptions, and [Stuck] where the model gives
    no answer (fuel ran out, or the script left the modelled part of
    the language). *)

Inductive result (A : Type) : Type :=
| Ok (a : A)
| Throw (e : error)
| Stuck.
Arguments Ok {A} a.
Arguments Throw {A} e.
Arguments Stuck {A}.

Definition M (A : Type) : Type := World -> result A * World.

Definition ret {A} (a : A) : M A := fun w => (Ok a, w).
Definition throw {A} (e : error) : M A := fun w => (Throw e, w).
Definition stuck {A} : M A := fun w => (Stuck, w).

Definition bind {A B} (m : M A) (k : A -> M B) : M B :=
  fun w =>
    match m w with
    | (Ok a, w') => k a w'
    | (Throw e, w') => (Throw e, w')
    | (Stuck, w') => (Stuck, w')
    end.

Notation "x <- m ;; k" := (bind m (fun x => k))
  (at level 61, m at next level, right associativity).
Notation "m ;; k" := (bind m (fun _ => k))
  (at level 61, right associativity).

(** [try { m } catch (e) { h e }] *)
Definition try_catch {A} (m : M A) (h : error -> M A) : M A :=
  fun w =>
    match m w with
    | (Throw e, w') => h e w'
    | r => r
    end.

Definition get : M World := fun w => (Ok w, w).
Definition modify (f : World -> World) : M unit := fun w => (Ok tt, f w).

(** A step that is a TypeError when it has no result. *)
Definition typed {A} (o : option A) : M A :=
  match o with
  | Some a => ret a
  | None => throw TypeError
  end.

Fixpoint for_each {A} (l : list A) (f : A -> M unit) : M unit :=
  match l with
  | [] => ret tt
  | x :: r => f x ;; for_each r f
  end.

Section Program.
Context {host : Host}.

(** ** Console *)

Fixpoint doc_ok (d : doc) : bool :=
  match d with
  | Txt _ => true
  | Str v => match to_string v with Some _ => true | None => false end
  | Chalk _ ds =>
      (fix all (l : list doc) : bool :=
         match l with
         | [] => true
         | x :: r => doc_ok x && all r
         end) ds
  end.

Definition arg_ok (a : logarg) : bool :=
  match a with
  | Tpl d => forallb doc_ok d
  | _ => true
  end.

(** [console.log(...)].  The arguments are evaluated before the call:
    a splice that cannot be converted to text is a TypeError and
    nothing is printed. *)
Definition console_log (args : list logarg) : M unit :=
  if forallb arg_ok args then modify (emit (Log args)) else throw TypeError.

(** ** File system *)

Fixpoint lookup_file (p : string) (fs : list (string * FileEntry))
  : option FileEntry :=
  match fs with
  | [] => None
  | (q, e) :: r => if String.eqb p q then Some e else lookup_file p r
  end.

Fixpoint store_file (p : string) (e : FileEntry) (fs : list (string * FileEntry))
  : list (string * FileEntry) :=
  match fs with
  | [] => [(p, e)]
  | (q, e') :: r =>
      if String.eqb p q then (p, e) :: r else (q, e') :: store_file p e r
  end.

Definition is_dir (p : string) (w : World) : bool :=
  existsb (String.eqb p) (dirs w).

(** [Deno.readTextFileSync], [Deno.readFile] *)
Definition readTextFileSync (p : string) : M string :=
  fun w =>
    match lookup_file p (files w) with
    | Some e =>
        if readable w p then (Ok (content e), w)
        else (Throw (PermissionDenied p), w)
    | None => (Throw (NotFound p), w)
    end.

(** [Deno.statSync], [Deno.stat]: the modification time of what is
    there. *)
Definition statSync (p : string) : M (option number) :=
  fun w =>
    match lookup_file p (files w) with
    | Some e => (Ok (mtime e), w)
    | None =>
        if is_dir p w then (Ok None, w) else (Throw (NotFound p), w)
    end.

(** [Deno.mkdirSync(p, { recursive: true })] *)
Definition mkdirSync (p : string) : M unit :=
  fun w =>
    if is_dir p w then (Ok tt, w)
    else if writable w p then (Ok tt, set_dirs (p :: dirs w) w)
    else (Throw (PermissionDenied p), w).

(** [Deno.writeTextFileSync(p, t, { create: true })]: the directory has
    to be there and the path has to accept the write. *)
Definition writeTextFileSync (p t : string) : M unit :=
  fun w =>
    if negb (is_dir (path_dirname p) w) then (Throw (NotFound p), w)
    else if writable w p then
      (Ok tt, set_files
                (store_file p {| content := t; mtime := Some (clock w) |}
                   (files w)) w)
    else (Throw (PermissionDenied p), w).

(** ** Configuration (lines 4-47) *)

Definition nonempty (o : option string) : option string :=
  match o with
  | Some EmptyString => None
  | _ => o
  end.

(** The path of the configuration file in a given environment. *)
Definition config_path (w : World) : string :=
  let home :=
    match nonempty (env w "HOME") with
    | Some h => h
    | None =>
        match nonempty (env w "USERPROFILE") with
        | Some h => h
        | None => "."
        end
    end in
  path_join home "rugplay_api_saves.json".

Definition getConfigPath : M string :=
  w <- get ;;
  ret (config_path w).

Definition readConfig : M value :=
  filePath <- getConfigPath ;;
  t <- readTextFileSync filePath ;;
  match JSON.parse t with
  | Some v => ret v
  | None => throw SyntaxError
  end.

Definition writeConfig (config : value) : M unit :=
  filePath <- getConfigPath ;;
  let dir := path_dirname filePath in
  try_catch (statSync dir ;; ret tt)
    (fun _ => try_catch (mkdirSync dir) (fun _ => ret tt)) ;;
  match JSON.stringify config with
  | Some t => writeTextFileSync filePath t
  | None => throw TypeError
  end.

Definition default_config : value := VObj [("cookie", VStr "unknown")].

(** The start of the script: the configuration is the default until the
    file has been read and parsed. *)
Definition startup : M unit :=
  modify (set_config default_config) ;;
  try_catch (c <- readConfig ;; modify (set_config c))
    (fun err =>
       console_log [Tpl [Txt "Couldn't read configuration file:"]] ;;
       console_log [RawError err] ;;
       console_log [Tpl [Txt "Wrote default file."]] ;;
       w <- get ;;
       writeConfig (config w)).

(** The configuration file cannot be used: it is missing, cannot be
    read, or does not hold JSON. *)
Definition config_unusable (w : World) : Prop :=
  match lookup_file (config_path w) (files w) with
  | None => True
  | Some e =>
      readable w (config_path w) = false \/ JSON.parse (content e) = None
  end.

(** The file system takes the configuration file: the path accepts the
    write, and its directory is there or can be made. *)
Definition can_save (w : World) : bool :=
  let p := config_path w in
  let dir := path_dirname p in
  writable w p
  && (is_dir dir w
      || (match lookup_file dir (files w) with
          | None => true
          | Some _ => false
          end && writable w dir)).

(** The text of a configuration that holds the cookie [c]. *)
Definition config_text (c : string) : string :=
  "{" ++ JSON.quote "cookie" ++ ":" ++ JSON.quote c ++ "}".

(** What a successful save leaves: the text in the file, everything
    else a later start looks at unchanged. *)
Definition saved (t : string) (w w' : World) : Prop :=
  lookup_file (config_path w) (files w')
    = Some {| content := t; mtime := Some (clock w) |}
  /\ config w' = config w /\ env w' = env w /\ trace w' = trace w
  /\ readable w' = readable w /\ server w' = server w.

(** [config.cookie] *)
Definition config_cookie : M value :=
  w <- get ;; typed (get_prop (config w) "cookie").

(** [config.cookie = c]: an object takes the property, anything else
    that [JSON.parse] returns refuses it (the module is strict code),
    except an array, whose extra properties the model does not hold. *)
Definition set_config_cookie (c : value) : M unit :=
  w <- get ;;
  match config w with
  | VObj fields => modify (set_config (VObj (assoc_set "cookie" c fields)))
  | VArr _ => stuck
  | _ => throw TypeError
  end.

(** ** The API Gateway (lines 50-69) *)

Definition user_agent : string :=
  "Mozilla/5.0 (Windows NT 10.0; Win64; x64) AppleWebKit/537.36 (KHTML, like Gecko) Chrome/125.0.0.0 Safari/537.36".

Definition request_headers (cookie : value) : list (string * value) :=
  [ ("User-Agent", VStr user_agent);
    ("Cookie", cookie);
    ("Accept-Language", VStr "en-US,en;q=0.9");
    ("Origin", VStr "https://rugplay.com") ].

(** [fetch]: the call is recorded, and the [server] of the world gives
    its outcome: a response, or the failure of the call, be it the
    network's or [fetch]'s own refusal of a request it cannot send. *)
Definition fetch (r : Request) : M Response :=
  fun w =>
    let w' := emit (Fetch r) w in
    match server w (List.length (fetches (trace w))) r with
    | Respond resp => (Ok resp, w')
    | Reject e => (Throw e, w')
    end.

Definition unauthenticated : list logarg :=
  [Tpl [Chalk red_bright [Txt "You"]; Txt " "; Chalk bold [Txt "must"];
        Txt " "; Chalk red_bright [Txt "have a cookie set to use this."]]].

Definition api_req (api method : string) (body : reqbody)
  : M (option Response) :=
  cookie <- config_cookie ;;
  unknown <- typed (loose_eq_str cookie "unknown") ;;
  if unknown then
    console_log unauthenticated ;;
    ret None
  else
    cookie <- config_cookie ;;
    r <- fetch {| url := "https://rugplay.com/api/" ++ api;
                  method := method;
                  headers := request_headers cookie;
                  body := body |} ;;
    ret (Some r).

Definition slot_record : list (string * value) :=
  [ ("wattesigma", VStr "◻️");
    ("webx", VStr "⬛");
    ("twoblade", VStr "🟥");
    ("lyntr", VStr "🟪");
    ("bussin", VStr "🟧");
    ("subterfuge", VStr "🟩") ].

(** The [type] a [Blob] or [File] keeps of the one it is given: in
    lower case, and empty when a character of it is outside U+0020 to
    U+007E. *)
Definition lower (c : ascii) : ascii :=
  if between 65 (code c) 90 then chr (code c + 32) else c.

Definition blob_type (t : string) : string :=
  if forallb (fun c => between 32 (code c) 126) (list_ascii_of_string t)
  then string_of_list_ascii (map lower (list_ascii_of_string t))
  else EmptyString.

(** [mk_file] (lines 80-90) *)
Definition mk_file (path : string) : M File :=
  fileBytes <- readTextFileSync path ;;
  fileInfo <- statSync path ;;
  let name := last_piece "/" path in
  let t := "image/" ++ last_piece "." path in
  w <- get ;;
  ret {| file_name := name; file_type := blob_type t;
         file_bytes := fileBytes;
         lastModified := match fileInfo with
                         | Some m => m
                         | None => clock w
                         end |}.

Definition api_error_line : list logarg :=
  [Tpl [Chalk red_bright [Txt "API ERROR"]; Txt ":"]].

(** The report of a response that is not OK. *)
Definition api_error (a : Response) : M unit :=
  console_log api_error_line ;;
  console_log [Raw (VStr (text a))].

(** [await a.json()] *)
Definition json_of (a : Response) : M value :=
  match JSON.parse (text a) with
  | Some v => ret v
  | None => throw SyntaxError
  end.

(** The request of [me]: the page data of the site, not the REST API. *)
Definition me_request (cookie : value) : Request :=
  {| url := "https://rugplay.com/__data.json?x-sveltekit-trailing-slash=1&x-sveltekit-invalidated=10";
     method := "GET";
     headers := request_headers cookie;
     body := NoBody |}.

(** [me] (lines 93-114): the profile page data, or [undefined].  There
    is no guard on the cookie here. *)
Definition me : M value :=
  cookie <- config_cookie ;;
  req <- fetch (me_request cookie) ;;
  if negb (ok req) then
    api_error req ;;
    ret VUndef
  else json_of req.

(** ** Helpers of the handlers *)

(** [args.shift()] *)
Definition shift (args : list string) : option string * list string :=
  match args with
  | [] => (None, [])
  | x :: r => (Some x, r)
  end.

(** A shifted argument as a value: a string, or [undefined]. *)
Definition arg_value (o : option string) : value :=
  match o with
  | Some s => VStr s
  | None => VUndef
  end.

(** [x ?? d] on a shifted argument *)
Definition or_default (o : option string) (d : string) : string :=
  match o with
  | Some s => s
  | None => d
  end.

(** [while (args.length >= 1) { x += ` ${args.shift()}` }] *)
Fixpoint append_rest (x : string) (args : list string) : string :=
  match args with
  | [] => x
  | a :: r => append_rest (x ++ " " ++ a) r
  end.

Definition prop (v : value) (k : string) : M value := typed (get_prop v k).

Fixpoint props (v : value) (ks : list string) : M value :=
  match ks with
  | [] => ret v
  | k :: r => x <- prop v k ;; props x r
  end.

Definition index (v : value) (i : nat) : M value := typed (get_index v i).

(** The text a template literal splices in for [v]. *)
Definition splice (v : value) : M string := typed (to_string v).

Definition thousand : number := of_Z 1000.

(** [Math.round(v*1000)/1000] *)
Definition round3 (v : value) : M value :=
  n <- typed (to_number v) ;;
  ret (VNum (Num.div (Num.round (Num.mul n thousand)) thousand)).

(** [Math.floor(v*1000)/1000] *)
Definition floor3 (v : value) : M value :=
  n <- typed (to_number v) ;;
  ret (VNum (Num.div (Num.floor (Num.mul n thousand)) thousand)).

(** [Math.floor(v)] *)
Definition floor0 (v : value) : M value :=
  n <- typed (to_number v) ;;
  ret (VNum (Num.floor n)).

(** [JSON.stringify(v)] as the body of a request *)
Definition json_body (v : value) : reqbody :=
  match JSON.stringify v with
  | Some t => TextBody t
  | None => NoBody
  end.

(** The two checks after every Gateway call:
    [if (a==undefined) return; if (!a.ok) { report; return; }] *)
Definition on_ok (a : option Response) (k : Response -> M unit) : M unit :=
  match a with
  | None => ret tt
  | Some r => if ok r then k r else api_error r
  end.

Definition log (d : list doc) : M unit := console_log [Tpl d].

(** The if-chain that renders a change value (24h change, P&L%):
    [if (v > 0) bgGreen('^ '+v) else if (v == 0) bgGray('- '+v)
     else bgRedBright('v '+v)]. *)
Definition dayChange (v : value) : M doc :=
  positive <- typed (gt_num v (Fin 0)) ;;
  if positive then ret (Chalk bg_green [Txt "^ "; Str v])
  else
    zero <- typed (loose_eq_num v (Fin 0)) ;;
    if zero then ret (Chalk bg_gray [Txt "- "; Str v])
    else ret (Chalk bg_red_bright [Txt "v "; Str v]).

(** ** The handlers (lines 116-673) *)

Record Command : Type := {
  desc : string;
  args : list string;
  callback : list string -> M unit
}.

(** Name, parameter names and description of every command, in the
    order of registration. *)
Definition signatures : list (string * list string * string) :=
  [ ("commands", [], "lists commands");
    ("set-cookie", ["new-cookie"],
     "sets your cookie for API requests, you can find this in the request headers on rugplay.com in network");
    ("coinflip", ["attempted-side"; "amount"],
     "attempts a coinflip on your account with the given side (0=heads, 1=tails) and amount");
    ("slots", ["amount"],
     "attempts a slot machine roll on your account with the given amount");
    ("summary", [], "returns a summary of your portfolio");
    ("redeem", ["code"], "redeems promotion code");
    ("new-coin", ["name"; "symbol"; "icon-path"],
     "attempts to create a new coin");
    ("settings", ["name"; "username"; "avatar"; "bio"],
     "updates your user settings (set fields to 'none' if you don't want to update them) note: updating the profile picture is slow and takes 10-20 minutes for Rugplay to update it, also it takes a path on your computer");
    ("me", [], "returns things like your username, id, etc.");
    ("daily-reward", [], "attempts to claim daily reward");
    ("notifications", [], "lists notifications");
    ("invest", ["budget"; "amt"; "page"],
     "invests in the most possible coins with a given budget and amount to spend on each coin");
    ("view-user", ["user"],
     "views a user's stats by username (not display name)");
    ("market", ["page"; "search-item"],
     "searches the market for the given search term or lists the top coins");
    ("buy-coin", ["symbol"; "amount"],
     "buys the given coin (by symbol) with the given amount");
    ("sell-coin", ["symbol"; "amount"],
     "buys the given coin (by symbol) with the given amount");
    ("portfolio", [], "returns all your portfolio information") ].

Fixpoint args_buf (l : list string) : string :=
  match l with
  | [] => EmptyString
  | [x] => x
  | x :: r => x ++ ", " ++ args_buf r
  end.

Definition cmd_commands (_ : list string) : M unit :=
  log [Txt "Available commands:"] ;;
  for_each signatures (fun '(k, a, d) =>
    console_log [Tpl [Chalk bold [Txt k]; Txt "("; Txt (args_buf a); Txt "):"];
                 Raw (VStr d)]).

Definition cmd_set_cookie (args : list string) : M unit :=
  let cookie :=
    match args with
    | [] => VUndef
    | c :: r => VStr (append_rest c r)
    end in
  set_config_cookie cookie ;;
  log [Txt "Set cookie "; Chalk green_bright [Txt "successfully"]; Txt "."] ;;
  w <- get ;;
  writeConfig (config w).

(** The two lines after a wager: the outcome and the new balance. *)
Definition wager_result (json : value) (amount : number) : M unit :=
  won <- prop json "won" ;;
  if negb (truthy won) then
    log [Txt "You "; Chalk red_bright [Txt "lost"]; Txt "."] ;;
    nb <- prop json "newBalance" ;;
    r <- round3 nb ;;
    log [Txt "New balance: "; Chalk yellow_bright [Txt "$"];
         Chalk yellow [Str r]; Txt " (-";
         Chalk red_bright [Str (VNum amount)]; Txt ")"]
  else
    log [Txt "You "; Chalk green_bright [Txt "won"]; Txt "!"] ;;
    nb <- prop json "newBalance" ;;
    r <- round3 nb ;;
    payout <- prop json "payout" ;;
    log [Txt "New balance: "; Chalk yellow_bright [Txt "$"];
         Chalk yellow [Str r]; Txt " (+";
         Chalk yellow_bright [Str payout]; Txt ")"].

Definition cmd_coinflip (args : list string) : M unit :=
  let (s, args) := shift args in
  let side :=
    match s with
    | Some x => if String.eqb x "1" then "tails" else "heads"
    | None => "heads"
    end in
  let (am, args) := shift args in
  let amount := parseFloat (or_default am "0.01") in
  a <- api_req "gambling/coinflip" "POST"
         (json_body (VObj [("side", VStr side); ("amount", VNum amount)])) ;;
  on_ok a (fun a =>
    json <- json_of a ;;
    wager_result json amount).

Definition cmd_slots (args : list string) : M unit :=
  let (am, args) := shift args in
  let amount := parseFloat (or_default am "0.01") in
  a <- api_req "gambling/slots" "POST"
         (json_body (VObj [("amount", VNum amount)])) ;;
  on_ok a (fun a =>
    json <- json_of a ;;
    symbols <- prop json "symbols" ;;
    s0 <- index symbols 0 ;; k0 <- splice s0 ;;
    symbols <- prop json "symbols" ;;
    s1 <- index symbols 1 ;; k1 <- splice s1 ;;
    symbols <- prop json "symbols" ;;
    s2 <- index symbols 2 ;; k2 <- splice s2 ;;
    console_log [Raw (obj_get slot_record k0); Raw (obj_get slot_record k1);
                 Raw (obj_get slot_record k2)] ;;
    wager_result json amount).

(** What [summary] prints for an OK response (lines 216-220). *)
Definition summary_lines (json : value) : M unit :=
  log [Chalk bold [Txt "Portfolio"]; Txt " Summary"] ;;
  x <- prop json "baseCurrencyBalance" ;; r <- round3 x ;;
  log [Txt "Balance: "; Chalk yellow_bright [Txt "$"]; Chalk yellow [Str r]] ;;
  x <- prop json "totalCoinValue" ;; r <- round3 x ;;
  log [Txt "Total coin value: "; Chalk yellow_bright [Txt "$"];
       Chalk yellow [Str r]] ;;
  x <- prop json "totalValue" ;; r <- round3 x ;;
  log [Txt "Total value: "; Chalk yellow_bright [Txt "$"];
       Chalk yellow [Str r]].

Definition cmd_summary (_ : list string) : M unit :=
  a <- api_req "portfolio/summary" "GET" NoBody ;;
  on_ok a (fun a =>
    json <- json_of a ;;
    summary_lines json).

Definition cmd_redeem (args : list string) : M unit :=
  let (code, args) := shift args in
  a <- api_req "promo/verify" "POST"
         (json_body (VObj [("code", arg_value code)])) ;;
  on_ok a (fun a =>
    json <- json_of a ;;
    m <- prop json "message" ;;
    console_log [Raw m]).

Definition nl : string := str1 (chr 10).

Definition cmd_new_coin (args : list string) : M unit :=
  match args with
  | [name; symbol; icon] =>
      form <- try_catch
                (f <- mk_file icon ;;
                 ret (Some [("name", FormText name);
                            ("symbol", FormText symbol);
                            ("icon", FormFile f)]))
                (fun e =>
                   log [Chalk red_bright
                          [Txt "Error whilst creating logo file"]; Txt ":"] ;;
                   console_log [RawError e] ;;
                   ret None) ;;
      match form with
      | None => ret tt
      | Some form =>
          a <- api_req "coin/create" "POST" (FormBody form) ;;
          on_ok a (fun a =>
            json <- json_of a ;;
            sym <- props json ["coin"; "symbol"] ;;
            fee <- prop json "feePaid" ;;
            msg <- prop json "message" ;;
            log [Chalk green_bright [Txt "Created"]; Txt " ";
                 Chalk bg_white [Str sym]; Txt " (-";
                 Chalk red_bright [Str fee]; Txt ")"; Txt nl; Str msg])
      end
  | _ => log [Txt "Invalid argument length"]
  end.

(** [u.nodes[0].data[i]] *)
Definition profile_field (u : value) (i : nat) : M value :=
  nodes <- prop u "nodes" ;;
  n0 <- index nodes 0 ;;
  data <- prop n0 "data" ;;
  index data i.

(** [u == undefined] *)
Definition nullish (u : value) : bool :=
  match u with
  | VUndef | VNull => true
  | _ => false
  end.

Definition is_none (s : string) : bool := String.eqb s "none".

Definition cmd_settings (args : list string) : M unit :=
  match args with
  | name :: user :: filePath :: bio :: rest =>
      u <- me ;;
      if nullish u then ret tt
      else
        f_name <- (if negb (is_none name) then ret [("name", FormText name)]
                   else
                     v <- profile_field u 3 ;;
                     t <- splice v ;;
                     ret [("name", FormText t)]) ;;
        let f_user :=
          if negb (is_none user) then [("username", FormText user)] else [] in
        f_avatar <- (if negb (is_none filePath) then
                       try_catch
                         (f <- mk_file filePath ;;
                          ret (Some [("avatar", FormFile f)]))
                         (fun err =>
                            log [Chalk red_bright
                                   [Txt "Error whilst creating File:"]] ;;
                            console_log [RawError err] ;;
                            ret None)
                     else ret (Some [])) ;;
        match f_avatar with
        | None => ret tt
        | Some f_avatar =>
            let f_bio :=
              if negb (is_none bio)
              then [("bio", FormText (append_rest bio rest))] else [] in
            a <- api_req "settings" "POST"
                   (FormBody (f_name ++ f_user ++ f_avatar ++ f_bio)) ;;
            on_ok a (fun _ =>
              log [Chalk green_bright [Txt "Updated settings"]])
        end
  | _ => log [Txt "Invalid command parameters"]
  end.

Definition cmd_me (_ : list string) : M unit :=
  json <- me ;;
  if nullish json then ret tt
  else
    d3 <- profile_field json 3 ;;
    d4 <- profile_field json 4 ;;
    d10 <- profile_field json 10 ;;
    log [Chalk bold [Str d3]; Txt " ";
         Chalk italic [Txt "(@"; Str d4; Txt ")"]; Txt nl; Str d10].

Definition cmd_daily_reward (_ : list string) : M unit :=
  a <- api_req "rewards/claim" "POST" NoBody ;;
  on_ok a (fun a =>
    json <- json_of a ;;
    total <- prop json "totalRewardsClaimed" ;;
    nb <- prop json "newBalance" ;;
    amount <- prop json "rewardAmount" ;;
    log [Chalk green_bright [Txt "Redeemed"]; Txt " "; Str total;
         Txt " rewards"; Txt nl; Txt "New balance: ";
         Chalk yellow [Txt "$"]; Chalk yellow_bright [Str nb]; Txt " (+";
         Chalk yellow_bright [Str amount]; Txt ")"]).

(** One pass over the notifications, printing those whose [isRead] is
    as wanted. *)
Definition print_notifications (json : value) (read : bool) : M unit :=
  ns <- prop json "notifications" ;;
  l <- typed (iterate ns) ;;
  for_each l (fun notif =>
    isRead <- prop notif "isRead" ;;
    if Bool.eqb (truthy isRead) read then
      title <- prop notif "title" ;;
      message <- prop notif "message" ;;
      log [Chalk bold [Str title]; Txt nl; Str message]
    else ret tt).

Definition cmd_notifications (_ : list string) : M unit :=
  a <- api_req "notifications" "GET" NoBody ;;
  on_ok a (fun a =>
    json <- json_of a ;;
    unread <- prop json "unreadCount" ;;
    log [Chalk bold [Txt "Notifications"]; Txt " ";
         Chalk bg_red_bright [Str unread]] ;;
    log [Chalk italic [Txt "Unread"]] ;;
    print_notifications json false ;;
    log [Chalk italic [Txt "Read"]] ;;
    print_notifications json true).

(** The index that a counter stands for in [coins[i]]. *)
Definition index_of (i : number) : nat :=
  match i with
  | Fin q => Z.to_nat (Qfloor q)
  | _ => O
  end.

(** The loop of [invest]: [for (let i = 0; i<limit; i++)], one BUY per
    round, left at the first call that is refused or not OK.  The
    counter is a number like any other: from [2^53] on, [i++] leaves it
    where it is. *)
Fixpoint invest_loop (fuel : nat) (json : value) (amount limit : number)
  (i : number) : M unit :=
  match fuel with
  | O => stuck
  | S f =>
      if Num.ltb i limit then
        coins <- prop json "coins" ;;
        c <- index coins (index_of i) ;;
        symbol <- prop c "symbol" ;;
        s <- splice symbol ;;
        a <- api_req ("coin/" ++ s ++ "/trade") "POST"
               (json_body (VObj [("type", VStr "BUY");
                                 ("amount", VNum amount)])) ;;
        on_ok a (fun _ =>
          log [Txt " Invested in "; Chalk bg_white [Str symbol]; Txt " (-";
               Chalk red_bright [Str (VNum amount)]; Txt ")"] ;;
          invest_loop f json amount limit (Num.add i (of_Z 1)))
      else ret tt
  end.

(** How many indices of [v] can hold something. *)
Definition index_bound (v : value) : nat :=
  match v with
  | VArr l => List.length l
  | VObj fields => List.length fields
  | VStr s => String.length s
  | _ => O
  end.

(** Rounds that are enough for the loop: the limit when it is finite,
    else one more than the listing can serve. *)
Definition invest_fuel (json : value) (limit : number) : nat :=
  match limit with
  | Fin q => S (Z.to_nat (Qceiling q))
  | PInf =>
      match get_prop json "coins" with
      | Some coins => S (S (index_bound coins))
      | None => 2%nat
      end
  | _ => 1%nat
  end.

Definition market_query (item page limit : string) : string :=
  "market?search=" ++ item
  ++ "&sortBy=marketCap&sortOrder=desc&priceFilter=all&changeFilter=all&page="
  ++ page ++ "&limit=" ++ limit.

Definition cmd_invest (args : list string) : M unit :=
  match args with
  | sb :: sa :: rest =>
      let budget := parseFloat sb in
      if isNaN budget then ret tt
      else
        let amount := parseFloat sa in
        if isNaN amount then ret tt
        else
          let limit := Num.floor (Num.div budget amount) in
          let page := match rest with
                      | [] => "1"
                      | p :: _ => p
                      end in
          a <- api_req (market_query EmptyString page (Number_toString limit))
                 "GET" NoBody ;;
          on_ok a (fun a =>
            json <- json_of a ;;
            log [Txt "Investing in "; Chalk green_bright [Str (VNum limit)];
                 Txt " coins at the top of the marketplace"] ;;
            invest_loop (invest_fuel json limit) json amount limit (of_Z 0))
  | _ => log [Txt "Invald paramteres to command"]
  end.






(** One line of [view-user]'s recent transactions: [switch (t.type)]. *)
Definition recent_transaction (t : value) : M unit :=
  type <- prop t "type" ;;
  if strict_eq_str type "BUY" then
    q <- prop t "quantity" ;; q3 <- round3 q ;;
    sym <- prop t "coinSymbol" ;;
    total <- prop t "totalBaseCurrencyAmount" ;;
    log [Txt "  "; Chalk bg_green [Txt "Buy"]; Txt " "; Str q3; Txt " ";
         Chalk bg_white [Str sym]; Txt " for "; Chalk yellow [Txt "$"];
         Chalk yellow_bright [Str total]]
  else if strict_eq_str type "TRANSFER_OUT" then
    coinName <- prop t "coinName" ;;
    link <- typed (loose_eq_str coinName "LINKCOIN") ;;
    what <- (if link then
               total <- prop t "totalBaseCurrencyAmount" ;;
               r <- round3 total ;;
               ret [Chalk yellow [Txt "$"]; Chalk yellow_bright [Str r]]
             else
               q <- prop t "quantity" ;; q3 <- round3 q ;;
               sym <- prop t "coinSymbol" ;;
               ret [Str q3; Txt " "; Chalk bg_white [Str sym]]) ;;
    who <- prop t "recipientUsername" ;;
    log ([Txt "  "; Chalk bg_blue [Txt "Transferred"]; Txt " "] ++ what
         ++ [Txt " to "; Chalk bold [Str who]; Txt " "])
  else if strict_eq_str type "SELL" then
    q <- prop t "quantity" ;; q3 <- round3 q ;;
    sym <- prop t "coinSymbol" ;;
    total <- prop t "totalBaseCurrencyAmount" ;;
    log [Txt "  "; Chalk bg_red_bright [Txt "Sell"]; Txt " "; Str q3; Txt " ";
         Chalk bg_white [Str sym]; Txt " for "; Chalk yellow [Txt "$"];
         Chalk yellow_bright [Str total]]
  else if strict_eq_str type "TRANSFER_IN" then
    coinName <- prop t "coinName" ;;
    link <- typed (loose_eq_str coinName "LINKCOIN") ;;
    what <- (if link then
               total <- prop t "totalBaseCurrencyAmount" ;;
               r <- round3 total ;;
               ret [Chalk yellow [Txt "$"]; Chalk yellow_bright [Str r]]
             else
               q <- prop t "quantity" ;; q3 <- round3 q ;;
               sym <- prop t "coinSymbol" ;;
               ret [Str q3; Txt " "; Chalk bg_white [Str sym]]) ;;
    who <- prop t "senderUsername" ;;
    log ([Txt "  "; Chalk bg_blue [Txt "Received"]; Txt " "] ++ what
         ++ [Txt " from "; Chalk bold [Str who]])
  else ret tt.

(** One row of [view-user]'s created coins. *)
Definition created_coin (c : value) : M unit :=
  change <- prop c "change24h" ;;
  day <- dayChange change ;;
  price <- prop c "currentPrice" ;; p3 <- round3 price ;;
  cap <- prop c "marketCap" ;; cap3 <- floor3 cap ;;
  log [Txt "  "; Chalk bg_white []; Txt " ("; Str chalk_name; Txt ") | ";
       Chalk yellow [Txt "$"]; Chalk yellow_bright [Str p3]; Txt " | ";
       day; Txt " | "; Str cap3].

(** The first two lines of [view-user]: names and biography. *)
Definition view_user_profile (json : value) : M unit :=
  name <- props json ["profile"; "name"] ;;
  username <- props json ["profile"; "username"] ;;
  isAdmin <- props json ["profile"; "isAdmin"] ;;
  admin <- typed (loose_eq_true isAdmin) ;;
  log [Chalk bold [Str name]; Txt " (@"; Chalk italic [Str username];
       Txt ") ";
       if admin then Chalk bg_red_bright [Txt "ADMIN"]
       else Txt EmptyString] ;;
  bio <- props json ["profile"; "bio"] ;;
  console_log [Raw bio].

(** The five monetary lines of [view-user] (lines 468-472). *)
Definition view_user_stats (json : value) : M unit :=
  x <- props json ["stats"; "totalPortfolioValue"] ;; r <- round3 x ;;
  log [Txt "Total portfolio: "; Chalk yellow_bright [Txt "$"];
       Chalk yellow [Str r]] ;;
  x <- props json ["stats"; "holdingsValue"] ;; r <- round3 x ;;
  log [Txt "Illiquid value: "; Chalk yellow_bright [Txt "$"];
       Chalk yellow [Str r]] ;;
  x <- props json ["profile"; "baseCurrencyBalance"] ;; r <- floor3 x ;;
  log [Txt "Liquid value: "; Chalk yellow_bright [Txt "$"];
       Chalk yellow [Str r]] ;;
  x <- props json ["stats"; "totalBuyVolume"] ;; r <- floor0 x ;;
  log [Txt "Buy volume: "; Chalk yellow_bright [Txt "$"];
       Chalk yellow [Str r]] ;;
  x <- props json ["stats"; "totalSellVolume"] ;; r <- floor3 x ;;
  log [Txt "Sell volume: "; Chalk yellow_bright [Txt "$"];
       Chalk yellow [Str r]].

(** The rest of [view-user]: created coins and recent transactions. *)
Definition view_user_tables (json : value) : M unit :=
  n <- props json ["stats"; "coinsCreated"] ;;
  log [Str n; Txt " created coins"] ;;
  created <- prop json "createdCoins" ;;
  some <- typed (gt_num created (Fin 0)) ;;
  (if some then
     log [Txt "  Symbol (Name) | Price | 24h Change | Market cap"]
   else ret tt) ;;
  created <- prop json "createdCoins" ;;
  l <- typed (iterate created) ;;
  for_each l created_coin ;;
  log [Txt "Recent transactions"] ;;
  recent <- prop json "recentTransactions" ;;
  l <- typed (iterate recent) ;;
  for_each l recent_transaction.

Definition cmd_view_user (args : list string) : M unit :=
  match args with
  | [user] =>
      a <- api_req ("user/" ++ user) "GET" NoBody ;;
      on_ok a (fun a =>
        json <- json_of a ;;
        view_user_profile json ;;
        view_user_stats json ;;
        view_user_tables json)
  | _ => log [Txt "Invalid parameters to command"]
  end.

(** One row of the market table. *)
Definition market_row (c : value) : M unit :=
  change <- prop c "change24h" ;;
  day <- dayChange change ;;
  sym <- prop c "symbol" ;;
  name <- prop c "name" ;;
  price <- prop c "currentPrice" ;; p3 <- round3 price ;;
  cap <- prop c "marketCap" ;;
  creator <- prop c "creatorName" ;;
  log [Txt "  "; Chalk bg_white [Str sym]; Txt " ("; Str name; Txt ") | ";
       Chalk yellow_bright [Txt "$"]; Chalk yellow [Str p3]; Txt " | ";
       day; Txt " | "; Str cap; Txt " | @"; Chalk bold [Str creator]].

(** What [market] prints for an OK response. *)
Definition market_table (page : string) (json : value) : M unit :=
  total <- prop json "totalPages" ;;
  log [Chalk bold [Txt "Market"]; Txt " (page "; Txt page; Txt " of ";
       Str total; Txt ")"] ;;
  log [Txt "  Symbol (Name) | Current price | Change 24h | Market cap | Creator name"] ;;
  coins <- prop json "coins" ;;
  l <- typed (iterate coins) ;;
  for_each l market_row.

Definition cmd_market (args : list string) : M unit :=
  let (p, args) := shift args in
  let page := or_default p "1" in
  let (i, args) := shift args in
  let item := encodeURIComponent (append_rest (or_default i EmptyString) args) in
  a <- api_req (market_query item page "6") "GET" NoBody ;;
  on_ok a (fun a =>
    json <- json_of a ;;
    market_table page json).

(** [buy-coin] and [sell-coin] differ in the order type and two words. *)
Definition trade (type verb sign : string) (style : style)
  (args : list string) : M unit :=
  match args with
  | [coin; amount] =>
      a <- api_req ("coin/" ++ coin ++ "/trade") "POST"
             (json_body (VObj [("type", VStr type);
                               ("amount", VNum (parseFloat amount))])) ;;
      on_ok a (fun a =>
        result <- json_of a ;;
        sold <- prop result "coinsSold" ;;
        log [Txt verb; Txt " "; Str sold; Txt " "; Chalk bg_white [Txt coin];
             Txt " "; Chalk green_bright [Txt "successfully"]; Txt "."] ;;
        nb <- prop result "newBalance" ;;
        log [Txt "New balance: "; Chalk yellow [Txt "$"];
             Chalk yellow_bright [Str nb]; Txt " ("; Txt sign;
             Chalk style [Txt amount]; Txt ")"])
  | _ => log [Txt "Invalid command parameters"]
  end.

Definition cmd_buy_coin : list string -> M unit :=
  trade "BUY" "Bought" "-" red_bright.

Definition cmd_sell_coin : list string -> M unit :=
  trade "SELL" "Sold" "+" green_bright.

(** One row of the holdings table of [portfolio]. *)
Definition holding_row (holding : value) : M unit :=
  pc <- prop holding "percentageChange" ;;
  percentageChange <- dayChange pc ;;
  change <- prop holding "change24h" ;;
  day <- dayChange change ;;
  sym <- prop holding "symbol" ;;
  q <- prop holding "quantity" ;; q3 <- round3 q ;;
  price <- prop holding "currentPrice" ;;
  v <- prop holding "value" ;; v3 <- round3 v ;;
  log [Txt "  "; Chalk bg_white [Str sym]; Txt " | "; Str q3; Txt " | ";
       Chalk yellow [Txt "$"]; Chalk yellow_bright [Str price]; Txt " | ";
       percentageChange; Txt " | "; day; Txt " | ";
       Chalk yellow [Txt "$"]; Chalk yellow_bright [Str v3]].

(** One line of the transaction log of [portfolio]: [switch (t.type)]. *)
Definition portfolio_transaction (t : value) : M unit :=
  type <- prop t "type" ;;
  if strict_eq_str type "BUY" then
    q <- prop t "quantity" ;; q3 <- round3 q ;;
    sym <- props t ["coin"; "symbol"] ;;
    total <- prop t "totalBaseCurrencyAmount" ;;
    log [Txt "  "; Chalk bg_green [Txt "Buy"]; Txt " "; Str q3; Txt " ";
         Chalk bg_white [Str sym]; Txt " for "; Chalk yellow [Txt "$"];
         Chalk yellow_bright [Str total]]
  else if strict_eq_str type "TRANSFER_OUT" then
    id <- props t ["coin"; "id"] ;;
    base <- typed (loose_eq_num id (Fin 1)) ;;
    what <- (if base then
               total <- prop t "totalBaseCurrencyAmount" ;;
               r <- round3 total ;;
               ret [Chalk yellow [Txt "$"]; Chalk yellow_bright [Str r]]
             else
               q <- prop t "quantity" ;; q3 <- round3 q ;;
               sym <- props t ["coin"; "symbol"] ;;
               ret [Str q3; Txt " "; Chalk bg_white [Str sym]]) ;;
    who <- props t ["recipientUser"; "username"] ;;
    log ([Txt "  "; Chalk bg_blue [Txt "Transferred"]; Txt " "] ++ what
         ++ [Txt " to "; Chalk bold [Str who]; Txt " "])
  else if strict_eq_str type "SELL" then
    q <- prop t "quantity" ;; q3 <- round3 q ;;
    sym <- props t ["coin"; "symbol"] ;;
    total <- prop t "totalBaseCurrencyAmount" ;;
    log [Txt "  "; Chalk bg_red_bright [Txt "Sell"]; Txt " "; Str q3; Txt " ";
         Chalk bg_white [Str sym]; Txt " for "; Chalk yellow [Txt "$"];
         Chalk yellow_bright [Str total]]
  else if strict_eq_str type "TRANSFER_IN" then
    id <- props t ["coin"; "id"] ;;
    base <- typed (loose_eq_num id (Fin 1)) ;;
    what <- (if base then
               total <- prop t "totalBaseCurrencyAmount" ;;
               r <- round3 total ;;
               ret [Chalk yellow [Txt "$"]; Chalk yellow_bright [Str r]]
             else
               q <- prop t "quantity" ;; q3 <- round3 q ;;
               sym <- props t ["coin"; "symbol"] ;;
               ret [Str q3; Txt " "; Chalk bg_white [Str sym]]) ;;
    who <- props t ["senderUser"; "username"] ;;
    log ([Txt "  "; Chalk bg_blue [Txt "Received"]; Txt " "] ++ what
         ++ [Txt " from "; Chalk bold [Str who]])
  else ret tt.

(** The heading and the three totals of [portfolio] (lines 626-629). *)
Definition portfolio_totals (json : value) : M unit :=
  log [Chalk bold [Txt "Portfolio"]] ;;
  x <- prop json "baseCurrencyBalance" ;; r <- round3 x ;;
  log [Txt "Balance: "; Chalk yellow_bright [Txt "$"]; Chalk yellow [Str r]] ;;
  x <- prop json "totalCoinValue" ;; r <- round3 x ;;
  log [Txt "Total coin value: "; Chalk yellow_bright [Txt "$"];
       Chalk yellow [Str r]] ;;
  x <- prop json "totalValue" ;; r <- round3 x ;;
  log [Txt "Total value: "; Chalk yellow_bright [Txt "$"];
       Chalk yellow [Str r]].

Definition cmd_portfolio (_ : list string) : M unit :=
  a <- api_req "portfolio/total" "GET" NoBody ;;
  b <- api_req "transactions" "GET" NoBody ;;
  match a, b with
  | Some a, Some b =>
      if negb (ok a) then api_error a
      else if negb (ok b) then api_error b
      else
        json <- json_of a ;;
        portfolio_totals json ;;
        log [Txt "Coin holdings"] ;;
        log [Txt "  Symbol | Quantity Owned | Price | P&L% | 24h Change | Value"] ;;
        holdings <- prop json "coinHoldings" ;;
        l <- typed (iterate holdings) ;;
        for_each l holding_row ;;
        log [Txt "Transactions"] ;;
        trans <- json_of b ;;
        ts <- prop trans "transactions" ;;
        l <- typed (iterate ts) ;;
        for_each l portfolio_transaction
  | _, _ => ret tt
  end.

(** ** The registry and the loop (lines 116, 675-692) *)

Definition commands : list (string * Command) :=
  map (fun '(k, a, d, f) => (k, {| desc := d; args := a; callback := f |}))
    [ ("commands", [], "lists commands", cmd_commands);
      ("set-cookie", ["new-cookie"],
       "sets your cookie for API requests, you can find this in the request headers on rugplay.com in network",
       cmd_set_cookie);
      ("coinflip", ["attempted-side"; "amount"],
       "attempts a coinflip on your account with the given side (0=heads, 1=tails) and amount",
       cmd_coinflip);
      ("slots", ["amount"],
       "attempts a slot machine roll on your account with the given amount",
       cmd_slots);
      ("summary", [], "returns a summary of your portfolio", cmd_summary);
      ("redeem", ["code"], "redeems promotion code", cmd_redeem);
      ("new-coin", ["name"; "symbol"; "icon-path"],
       "attempts to create a new coin", cmd_new_coin);
      ("settings", ["name"; "username"; "avatar"; "bio"],
       "updates your user settings (set fields to 'none' if you don't want to update them) note: updating the profile picture is slow and takes 10-20 minutes for Rugplay to update it, also it takes a path on your computer",
       cmd_settings);
      ("me", [], "returns things like your username, id, etc.", cmd_me);
      ("daily-reward", [], "attempts to claim daily reward", cmd_daily_reward);
      ("notifications", [], "lists notifications", cmd_notifications);
      ("invest", ["budget"; "amt"; "page"],
       "invests in the most possible coins with a given budget and amount to spend on each coin",
       cmd_invest);
      ("view-user", ["user"],
       "views a user's stats by username (not display name)", cmd_view_user);
      ("market", ["page"; "search-item"],
       "searches the market for the given search term or lists the top coins",
       cmd_market);
      ("buy-coin", ["symbol"; "amount"],
       "buys the given coin (by symbol) with the given amount", cmd_buy_coin);
      ("sell-coin", ["symbol"; "amount"],
       "buys the given coin (by symbol) with the given amount", cmd_sell_coin);
      ("portfolio", [], "returns all your portfolio information",
       cmd_portfolio) ].

(** [commands.get(name)] *)
Fixpoint commands_get (name : string) (l : list (string * Command))
  : option Command :=
  match l with
  | [] => None
  | (k, c) :: r => if String.eqb name k then Some c else commands_get name r
  end.

(** [commands.get(name)?.callback] *)
Definition handler (name : string) : option (list string -> M unit) :=
  option_map callback (commands_get name commands).

Definition unknown_command (name : string) : list logarg :=
  [Tpl [Chalk red_bright [Txt "Command"]; Txt " ";
        Chalk green [Txt (str1 dquote ++ name ++ str1 dquote)]; Txt " ";
        Chalk red_bright [Txt "does not exist"];
        Txt ". Type 'commands' to list commands."]].

(** One round of the loop on the line read by [prompt]. *)
Definition repl_step (input_raw : string) : M unit :=
  match split_on " " input_raw with
  | [] => ret tt
  | name :: rest =>
      match commands_get name commands with
      | None => console_log (unknown_command name)
      | Some c => callback c rest
      end
  end.

(** [while (true)]: the loop ends when [prompt] has no more input. *)
Fixpoint repl (input : list string) : M unit :=
  match input with
  | [] => ret tt
  | line :: rest => repl_step line ;; repl rest
  end.

(** The whole script, on the lines typed at the prompt. *)
Definition main (input : list string) : M unit :=
  startup ;;
  log [Chalk bold [Chalk yellow [Txt "Rugplay"]; Txt " API"]] ;;
  cmd_commands [] ;;
  repl input.

End Program.

End Shell.

(* ================================================================== *)
(** * What the properties observe *)
(* ================================================================== *)

Module Observe.
Import Shell.
#[local] Open Scope list_scope.

(** The world after some more events. *)
Definition emits (es : list event) (w : World) : World :=
  {| config := config w; env := env w; files := files w; dirs := dirs w;
     readable := readable w; writable := writable w; clock := clock w;
     server := server w; trace := trace w ++ es |}.

(** [config.cookie], when [config] has properties. *)
Definition stored_cookie (w : World) : option value :=
  get_prop (config w) "cookie".

(** The cookie is the sentinel of a configuration never set. *)
Definition cookie_unknown (w : World) : Prop :=
  stored_cookie w = Some (VStr "unknown").

(** The unauthenticated warning, recognised in the trace. *)
Definition is_warning (e : event) : bool :=
  match e with
  | Log [Tpl [Chalk red_bright [Txt a]; Txt _; Chalk bold [Txt b]; Txt _;
              Chalk red_bright [Txt c]]] =>
      String.eqb a "You" && String.eqb b "must"
      && String.eqb c "have a cookie set to use this."
  | _ => false
  end.

Definition warnings (t : list event) : nat :=
  List.length (filter is_warning t).

(** The number of network calls in a trace. *)
Definition calls (t : list event) : nat := List.length (fetches t).

(** The commands whose handler calls the API Gateway. *)
Definition gateway_commands : list string :=
  [ "coinflip"; "slots"; "summary"; "redeem"; "new-coin"; "settings";
    "daily-reward"; "notifications"; "invest"; "view-user"; "market";
    "buy-coin"; "sell-coin"; "portfolio" ].

(** Those among them that call it once, first thing after their own
    checks. *)
Definition single_call_commands : list string :=
  [ "coinflip"; "slots"; "summary"; "redeem"; "new-coin";
    "daily-reward"; "notifications"; "invest"; "view-user"; "market";
    "buy-coin"; "sell-coin" ].

(** The checks a single-call handler makes before it reaches the
    Gateway: the number of arguments, numeric arguments that parse, a
    local file that can be read. *)
Definition passes_checks (name : string) (args : list string) (w : World)
  : bool :=
  if String.eqb name "new-coin" then
    match args with
    | [_; _; icon] =>
        match fst (mk_file icon w) with
        | Ok _ => true
        | _ => false
        end
    | _ => false
    end
  else if String.eqb name "invest" then
    match args with
    | sb :: sa :: _ =>
        negb (isNaN (parseFloat sb)) && negb (isNaN (parseFloat sa))
    | _ => false
    end
  else if String.eqb name "view-user" then
    (List.length args =? 1)%nat
  else if String.eqb name "buy-coin" || String.eqb name "sell-coin" then
    (List.length args =? 2)%nat
  else true.

(** [w'] is [w] after some more console output and network calls. *)
Definition extends (w w' : World) : Prop :=
  exists es, trace w' = trace w ++ es.

(** A computation that only ever adds to the trace. *)
Definition monotone {A} (m : M A) : Prop :=
  forall w, extends w (snd (m w)).

(** Text in the characters U+0020 to U+007E, and its lower-case form:
    what a [File] keeps of the type it is given. *)
Definition plain (s : string) : bool :=
  forallb (fun c => between 32 (code c) 126) (list_ascii_of_string s).

Definition lowercase (s : string) : string :=
  string_of_list_ascii (map lower (list_ascii_of_string s)).


(** A text that [fetch] takes as the value of a header as it is: code
    points up to U+00FF, none of them NUL, LF or CR, and no space or tab
    at either end.  Any other text [fetch] refuses, or trims. *)
Definition header_char (cp : string) : bool :=
  match cp with
  | String c EmptyString =>
      between 1 (code c) 127 && negb (code c =? 10) && negb (code c =? 13)
  | String c (String _ EmptyString) => between 194 (code c) 195
  | _ => false
  end.

Definition blank (c : ascii) : bool := (code c =? 32) || (code c =? 9).

Definition header_value (s : string) : bool :=
  forallb header_char (code_points s)
  && match s with
     | EmptyString => true
     | String c _ => negb (blank c)
     end
  && negb (blank (last (list_ascii_of_string s) "a"%char)).

(** The loop counter of [invest] after [i] rounds. *)
Definition counter (i : nat) : number := of_Z (Z.of_nat i).



(** The three ways a change value is shown, told apart by the prefix. *)
Inductive direction : Type := Positive | Zero | Negative.

Definition direction_of (d : doc) : option direction :=
  match d with
  | Chalk _ (Txt p :: _) =>
      if String.eqb p "^ " then Some Positive
      else if String.eqb p "- " then Some Zero
      else if String.eqb p "v " then Some Negative
      else None
  | _ => None
  end.

(** The directions shown in a printed line. *)
Definition directions (e : event) : list direction :=
  match e with
  | Log [Tpl d] =>
      flat_map (fun x => match direction_of x with
                         | Some y => [y]
                         | None => []
                         end) d
  | _ => []
  end.

(** The direction that the sign of a real number stands for. *)
Definition sign_direction (q : Q) : direction :=
  match Qcompare q 0 with
  | Gt => Positive
  | Eq => Zero
  | Lt => Negative
  end.

(** A JSON value that is no array and no object. *)
Definition primitive (v : value) : Prop :=
  match v with
  | VArr _ | VObj _ | VNative _ => False
  | _ => True
  end.

(** A row of a table as the server sends it: an object whose members
    are primitive values. *)
Definition flat_row (c : value) : Prop :=
  exists fields,
    c = VObj fields /\ Forall (fun kv => primitive (snd kv)) fields.

(** [Math.round(x*1000)/1000] and [Math.floor(x*1000)/1000] on
    numbers. *)
Definition rounded3 (x : number) : number :=
  Num.div (Num.round (Num.mul x (of_Z 1000))) (of_Z 1000).

Definition floored3 (x : number) : number :=
  Num.div (Num.floor (Num.mul x (of_Z 1000))) (of_Z 1000).

(** The identifiers that have a glyph. *)
Definition slot_names : list string :=
  [ "wattesigma"; "webx"; "twoblade"; "lyntr"; "bussin"; "subterfuge" ].

(** The specification's currency format, on exact numbers:
    [round(x*1000)/1000]. *)
Definition spec_round3 (x : Q) : Q :=
  inject_Z (Qfloor (x * 1000 + (1 # 2))) / 1000.

(** What [view-user] applies to three of its amounts instead. *)
Definition spec_floor3 (x : Q) : Q := inject_Z (Qfloor (x * 1000)) / 1000.





(** What a single-call handler leaves behind: the events [es], none of
    them a network call, with [n] warnings among them. *)
Definition quiet (f : list string -> M unit) (args : list string)
  (w : World) (n : nat) : Prop :=
  exists es, f args w = (Ok tt, emits es w)
             /\ calls es = 0%nat /\ warnings es = n.

(** A computation the model always answers. *)
Definition answered {A} (m : M A) : Prop :=
  forall w, fst (m w) <> Stuck.

(** The first token of an input line: [input_raw.split(" ")[0]]. *)
Definition first_token (line : string) : string :=
  hd EmptyString (split_on " " line).

(** ** Relations between the world before and after a computation *)

(** [m] takes every world to one that [R] relates it to, whatever its
    result. *)
Definition keeps (R : World -> World -> Prop) {A} (m : M A) : Prop :=
  forall w, R w (snd (m w)).

(** What such a relation needs for the pure steps and the console: it
    holds when nothing happens, it composes, and a printed line does
    not break it. *)
Record Frame (R : World -> World -> Prop) : Prop := {
  rel_refl : forall w, R w w;
  rel_trans : forall w1 w2 w3, R w1 w2 -> R w2 w3 -> R w1 w3;
  rel_log : forall a w, R w (emit (Log a) w)
}.

(** A relation that looks at the trace only: a change of the
    configuration or of the files does not break it. *)
Definition on_trace (R : World -> World -> Prop) : Prop :=
  forall w w', trace w' = trace w -> R w w'.

(** A request as the script builds them: to the site, GET or POST, with
    the four headers around the cookie [c]. *)
Definition on_site (c : value) (r : Request) : Prop :=
  strip_prefix "https://rugplay.com/" (url r) <> None
  /\ (method r = "GET" \/ method r = "POST")
  /\ headers r = request_headers c.

(** A relation that also admits such a request, sent with the cookie
    that is stored. *)
Record Site (R : World -> World -> Prop) : Prop := {
  site_frame : Frame R;
  site_fetch :
    forall w c r, stored_cookie w = Some c -> on_site c r ->
                  R w (emit (Fetch r) w)
}.

(** An event of a command that leaves the configuration [cfg] alone: a
    printed line, or a request to the site with the cookie of [cfg]. *)
Definition from_site (cfg : value) (e : event) : Prop :=
  match e with
  | Log _ => True
  | Fetch r => exists c, get_prop cfg "cookie" = Some c /\ on_site c r
  end.

(** [w'] is [w] with more events, all of them from the site: nothing
    else of the world has changed. *)
Definition added (w w' : World) : Prop :=
  exists es, w' = emits es w /\ Forall (from_site (config w)) es.

(** The trace has grown by events that are no network calls. *)
Definition offline (w w' : World) : Prop :=
  exists es, trace w' = trace w ++ es /\ calls es = 0%nat.

(** An event of a whole session, over which the cookie may change. *)
Definition to_site (e : event) : Prop :=
  match e with
  | Log _ => True
  | Fetch r => exists c, on_site c r
  end.

(** The trace has grown by events of a session; configuration and
    files may have changed. *)
Definition session (w w' : World) : Prop :=
  exists es, trace w' = trace w ++ es /\ Forall to_site es.

(** A computation that adds at most [n] events of the kind [f] to the
    trace, whatever its result. *)
Definition bounded (f : event -> bool) (n : nat) {A} (m : M A) : Prop :=
  forall w, exists es,
    trace (snd (m w)) = trace w ++ es
    /\ (List.length (filter f es) <= n)%nat.

(** The network calls a command can make at most, whatever the server
    answers; [invest] has a bound of its own. *)
Definition call_budget (name : string) : nat :=
  if String.eqb name "commands" || String.eqb name "set-cookie" then 0
  else if String.eqb name "settings" || String.eqb name "portfolio" then 2
  else 1.

(** [v.k] where the read cannot fail: on [undefined] and [null] the
    script never gets that far. *)
Definition field_of (v : value) (k : string) : value :=
  match get_prop v k with
  | Some x => x
  | None => VUndef
  end.

(** A notification the server marks as read. *)
Definition is_read (n : value) : bool := truthy (field_of n "isRead").

(** The two lines [notifications] prints for one notification. *)
Definition notification_line (n : value) : event :=
  Log [Tpl [Chalk bold [Str (field_of n "title")]; Txt nl;
            Str (field_of n "message")]].

Section Printing.
Context {host : Host}.

(** A notification that can be printed: it has properties, and its
    title and message have a text. *)
Definition printable (n : value) : Prop :=
  get_prop n "isRead" <> None
  /\ doc_ok (Str (field_of n "title")) = true
  /\ doc_ok (Str (field_of n "message")) = true.

(** The directories once [writeConfig] has run: the directory of the
    configuration file is made when nothing is at its path and the file
    system allows it. *)
Definition made_dirs (w : World) : list string :=
  let dir := path_dirname (config_path w) in
  match lookup_file dir (files w) with
  | Some _ => dirs w
  | None =>
      if negb (is_dir dir w) && writable w dir then dir :: dirs w
      else dirs w
  end.

End Printing.

(** [u.nodes[0].data[i]], when every step has something to read
    from. *)
Definition profile_value (u : value) (i : nat) : option value :=
  match get_prop u "nodes" with
  | Some nodes =>
      match get_index nodes 0 with
      | Some n0 =>
          match get_prop n0 "data" with
          | Some data => get_index data i
          | None => None
          end
      | None => None
      end
  | None => None
  end.

(** The line [commands] prints for an entry of the registry. *)
Definition command_line (entry : string * Command) : event :=
  Log [Tpl [Chalk bold [Txt (fst entry)]; Txt "(";
            Txt (args_buf (args (snd entry))); Txt "):"];
       Raw (VStr (desc (snd entry)))].

(** An object as [JSON.parse] makes them, without a [toString] of its
    own. *)
Definition plain_object (v : value) : Prop :=
  exists fields, v = VObj fields /\ assoc "toString" fields = None.

(** The column header that [view-user] has for its created coins. *)
Definition is_created_header (e : event) : bool :=
  match e with
  | Log [Tpl [Txt s]] =>
      String.eqb s "  Symbol (Name) | Price | 24h Change | Market cap"
  | _ => false
  end.

(** A text between double quotes. *)
Definition quoted (s : string) : string := String dquote (s ++ str1 dquote).

(** The JSON text of a number: [null] for what is not finite. *)
Definition number_json (n : number) : string :=
  match n with
  | PInf | NInf | NaN => "null"
  | _ => Number_toString n
  end.

(** Whether a character occurs in a text. *)
Fixpoint occurs (c : ascii) (s : string) : bool :=
  match s with
  | EmptyString => false
  | String d r => Ascii.eqb d c || occurs c r
  end.

End Observe.
Export Observe.

(* ================================================================== *)
(** * A concrete platform and concrete worlds, for the examples *)
(* ================================================================== *)

Module Examples.
Import Shell.
#[local] Open Scope list_scope.

(** The part of a path before its last slash. *)
Fixpoint before_last_slash (s : string) : option string :=
  match s with
  | EmptyString => None
  | String c r =>
      match before_last_slash r with
      | Some d => Some (String c d)
      | None => if Ascii.eqb c "/" then Some EmptyString else None
      end
  end.

Definition plain_host : Host :=
  {| path_join := fun a b => (a ++ "/" ++ b)%string;
     path_dirname := fun p =>
       match before_last_slash p with
       | Some EmptyString => "/"
       | Some d => d
       | None => "."
       end;
     chalk_name := VStr "chalk" |}.

Definition q : string := str1 dquote.

(** [{"k":"v"}]-style text without typing the quotes. *)
Definition field (k v : string) : string := (q ++ k ++ q ++ ":" ++ v)%string.
Definition text_of (s : string) : string := (q ++ s ++ q)%string.

Definition home_env (k : string) : option string :=
  if String.eqb k "HOME" then Some "/home/u" else None.

Definition config_file : string := "/home/u/rugplay_api_saves.json".

(** A server that answers every call with the same response. *)
Definition always (r : Response) : nat -> Request -> outcome :=
  fun _ _ => Respond r.

Definition ok_with (t : string) : Response := {| ok := true; text := t |}.

(** A machine with a home directory and no configuration file yet. *)
Definition fresh (srv : nat -> Request -> outcome) : World :=
  {| config := VUndef; env := home_env; files := []; dirs := ["/home/u"];
     readable := fun _ => true; writable := fun _ => true; clock := Fin 0;
     server := srv; trace := [] |}.

(** The same machine once the script has started with cookie [c]. *)
Definition logged_in (c : string) (srv : nat -> Request -> outcome) : World :=
  set_config (VObj [("cookie", VStr c)]) (fresh srv).

(** The text of a JSON object from the texts of its members. *)
Fixpoint members_text (l : list (string * string)) : string :=
  match l with
  | [] => EmptyString
  | [(k, v)] => field k v
  | (k, v) :: r => (field k v ++ "," ++ members_text r)%string
  end.

Definition object_text (l : list (string * string)) : string :=
  ("{" ++ members_text l ++ "}")%string.


(** A market page that lists the given symbols. *)
Fixpoint coins_text (l : list string) : string :=
  match l with
  | [] => EmptyString
  | [x] => object_text [("symbol", text_of x)]
  | x :: r => (object_text [("symbol", text_of x)] ++ "," ++ coins_text r)%string
  end.

Definition listing_text (l : list string) : string :=
  object_text [("coins", ("[" ++ coins_text l ++ "]")%string)].

Definition listing_value (l : list string) : value :=
  VObj [("coins", VArr (map (fun x => VObj [("symbol", VStr x)]) l))].

Definition five : list string := ["AAA"; "BBB"; "CCC"; "DDD"; "EEE"].

(** A market that lists five coins and accepts every order. *)
Definition five_coins : World :=
  logged_in "abc" (always (ok_with (listing_text five))).




(** A machine without a configuration file that refuses every write. *)
Definition read_only : World :=
  {| config := VUndef; env := home_env; files := []; dirs := ["/home/u"];
     readable := fun _ => true; writable := fun _ => false; clock := Fin 0;
     server := always (ok_with "{}"); trace := [] |}.

(** A machine whose configuration file holds the cookie [abc]. *)
Definition configured : World :=
  set_files [(config_file,
              {| content := object_text [("cookie", text_of "abc")];
                 mtime := None |})]
    (fresh (always (ok_with "{}"))).

(** The script started without a cookie. *)
Definition anonymous : World := logged_in "unknown" (always (ok_with "{}")).

(** The value a JSON text stands for. *)
Definition parsed (t : string) : value :=
  match JSON.parse t with
  | Some v => v
  | None => VNull
  end.

(** A server that answers every call with an error page. *)
Definition forbidden : Response := {| ok := false; text := "Forbidden" |}.

Definition refusing : World := logged_in "abc" (always forbidden).

(** A network that is down. *)
Definition unplugged : World :=
  logged_in "abc" (fun _ _ => Reject (NetworkError "connection refused")).

(** Two notifications, the read one first. *)
Definition inbox_text : string :=
  object_text
    [ ("unreadCount", "1");
      ("notifications",
       ("[" ++ object_text [ ("title", text_of "old");
                             ("message", text_of "seen");
                             ("isRead", "true") ]
        ++ "," ++ object_text [ ("title", text_of "new");
                                ("message", text_of "fresh");
                                ("isRead", "false") ]
        ++ "]")%string) ].

Definition inbox : World := logged_in "abc" (always (ok_with inbox_text)).

Definition old_notification : value :=
  VObj [("title", VStr "old"); ("message", VStr "seen");
        ("isRead", VBool true)].

Definition new_notification : value :=
  VObj [("title", VStr "new"); ("message", VStr "fresh");
        ("isRead", VBool false)].

(** The page data of the user Ann. *)
Definition page_text : string :=
  object_text
    [ ("nodes",
       ("[" ++ object_text
                 [ ("data",
                    ("[0,1,2," ++ text_of "Ann" ++ "," ++ text_of "ann"
                     ++ ",5,6,7,8,9," ++ text_of "hello" ++ "]")%string) ]
        ++ "]")%string) ].

(** A server that answers every call with that page, for a script
    with the cookie [c]. *)
Definition profile_page (c : string) : World :=
  logged_in c (always (ok_with page_text)).

(** The answer to a coin that was created. *)
Definition created_text : string :=
  object_text [ ("coin", object_text [("symbol", text_of "DOG")]);
                ("feePaid", "100"); ("message", text_of "welcome") ].

Definition icon_entry : FileEntry :=
  {| content := "PNG"; mtime := Some (Fin 7) |}.

(** A machine with an icon in [pics], and a server that creates every
    coin. *)
Definition with_icon : World :=
  set_files [("pics/logo.png"%string, icon_entry)]
    (logged_in "abc" (always (ok_with created_text))).

(** A server that accepts every order. *)
Definition order_text : string :=
  object_text [("coinsSold", "3"); ("newBalance", "97")].

Definition trader : World := logged_in "abc" (always (ok_with order_text)).

(** A server that takes every promotion code. *)
Definition promo_text : string := object_text [("message", text_of "done")].

Definition promoter : World := logged_in "abc" (always (ok_with promo_text)).

(** A machine whose configuration file holds [null]. *)
Definition null_config : World :=
  set_files [(config_file, {| content := "null"; mtime := None |})]
    (fresh (always (ok_with "{}"))).

End Examples.

(* ================================================================== *)
(** * Properties *)
(* ================================================================== *)

Import Shell.
#[local] Open Scope list_scope.

(** ** The model on small inputs *)

Example parseFloat_examples :
  parseFloat "0.01" = Fin (5764607523034235 # 576460752303423488)
  /\ parseFloat " 12.5e1px" = Fin 125
  /\ parseFloat "-.5" = Fin (-1 # 2)
  /\ parseFloat "5.999999999999999999" = Fin 6
  /\ parseFloat "-0" = NegZero
  /\ parseFloat "1e400" = PInf
  /\ parseFloat "abc" = NaN
  /\ parseFloat EmptyString = NaN
  /\ parseFloat "-Infinity" = NInf.
Proof. repeat split; vm_compute; reflexivity. Qed.

Example StringToNumber_examples :
  StringToNumber EmptyString = Fin 0
  /\ StringToNumber " 42 " = Fin 42
  /\ StringToNumber "0x1F" = Fin 31
  /\ StringToNumber "9007199254740993" = Fin 9007199254740992
  /\ StringToNumber "12px" = NaN.
Proof. repeat split; vm_compute; reflexivity. Qed.

Example Number_toString_examples :
  map (fun t => Number_toString (parseFloat t))
    [ "0.01"; "100"; "12.50"; "-0"; "1e21"; "123456789012345680000";
      "0.000001"; "1e-7"; "5e-324"; "1.7976931348623157e308";
      "0.1e1"; "9007199254740993" ]
  = [ "0.01"; "100"; "12.5"; "0"; "1e+21"; "123456789012345680000";
      "0.000001"; "1e-7"; "5e-324"; "1.7976931348623157e+308";
      "1"; "9007199254740992" ]%string.
Proof. vm_compute. reflexivity. Qed.

Example split_examples :
  split_on " " "coinflip 1 5" = ["coinflip"; "1"; "5"]%string
  /\ split_on " " "a  b" = ["a"; EmptyString; "b"]%string
  /\ split_on " " EmptyString = [EmptyString]
  /\ last_piece "/" "pics/logo.png" = "logo.png"%string
  /\ last_piece "." "pics/logo.png" = "png"%string.
Proof. repeat split; reflexivity. Qed.

Example encodeURIComponent_examples :
  encodeURIComponent "dog coin" = "dog%20coin"%string
  /\ encodeURIComponent "a&b=c/d" = "a%26b%3Dc%2Fd"%string
  /\ encodeURIComponent EmptyString = EmptyString.
Proof. repeat split; reflexivity. Qed.

Example parse_examples :
  JSON.parse "[1, 2.50, -3e2, true, null, {}]"
  = Some (VArr [VNum (Fin 1); VNum (Fin (5 # 2)); VNum (Fin (-300));
                VBool true; VNull; VObj []])
  /\ JSON.parse (Examples.listing_text ["AAA"; "BBB"]%string)
     = Some (Examples.listing_value ["AAA"; "BBB"]%string)
  /\ JSON.parse "{" = None
  /\ JSON.parse "01" = None
  /\ JSON.parse EmptyString = None.
Proof. repeat split; vm_compute; reflexivity. Qed.

(** Arithmetic is that of doubles: the quotient of 0.3 by 0.1 is below
    3, the thousandfold of 4.0005 is below 4000.5 and that of 1.005
    below 1005. *)
Example rounding_examples :
  map Number_toString
    [ Num.div (parseFloat "0.3") (parseFloat "0.1");
      Num.floor (Num.div (parseFloat "0.3") (parseFloat "0.1"));
      Num.mul (parseFloat "4.0005") (of_Z 1000);
      Num.div (Num.round (Num.mul (parseFloat "4.0005") (of_Z 1000)))
        (of_Z 1000);
      Num.div (Num.floor (Num.mul (parseFloat "1.005") (of_Z 1000)))
        (of_Z 1000);
      Num.div (Num.round (Num.mul (parseFloat "12.3456") (of_Z 1000)))
        (of_Z 1000);
      Num.div (Num.round (Num.mul (parseFloat "0.0001") (of_Z 1000)))
        (of_Z 1000) ]
  = [ "2.9999999999999996"; "2"; "4000.4999999999995"; "4"; "1.004";
      "12.346"; "0" ]%string
  /\ Num.round (Fin (-5 # 2)) = Fin (-2)
  /\ Num.round (Fin (-1 # 4)) = NegZero
  /\ Num.floor (Num.div (Fin 100) (Fin 20)) = Fin 5
  /\ Num.div (Fin 100) (Fin 0) = PInf
  /\ Num.div (Fin 100) NegZero = NInf
  /\ Num.add (of_Z (2 ^ 53)) (of_Z 1) = of_Z (2 ^ 53).
Proof. repeat split; vm_compute; reflexivity. Qed.

(** ** Doubles: powers of two, the binary logarithm and rounding *)

Lemma pow2_Qpower e : (pow2 e == 2 ^ e)%Q.
Proof.
  unfold pow2. destruct (Z.leb_spec 0 e) as [H | H].
  - exact (Zpower_Qpower 2 e H).
  - replace e with (- - e) at 2 by lia. rewrite Qpower_opp.
    rewrite <- (Zpower_Qpower 2 (- e)) by lia.
    assert (P : 0 < 2 ^ (- e)) by (apply Z.pow_pos_nonneg; lia).
    destruct (2 ^ (- e)) as [| p | p] eqn:E; try lia.
    reflexivity.
Qed.

Lemma pow2_pos e : (0 < pow2 e)%Q.
Proof. rewrite pow2_Qpower. now apply Qpower_0_lt. Qed.

Lemma pow2_add a b : (pow2 (a + b) == pow2 a * pow2 b)%Q.
Proof. rewrite !pow2_Qpower. now apply Qpower_plus. Qed.

Lemma pow2_le a b : a <= b -> (pow2 a <= pow2 b)%Q.
Proof.
  intros H. rewrite !pow2_Qpower. apply Qpower_le_compat_l; [exact H |].
  discriminate.
Qed.

Lemma pow2_lt a b : a < b -> (pow2 a < pow2 b)%Q.
Proof.
  intros H. rewrite !pow2_Qpower. apply Qpower_lt_compat_l; [exact H |].
  reflexivity.
Qed.

Lemma pow2_nat e : 0 <= e -> pow2 e = inject_Z (2 ^ e).
Proof. intros H. unfold pow2. apply Z.leb_le in H. now rewrite H. Qed.

Lemma pow2_succ e : (pow2 (e + 1) == 2 * pow2 e)%Q.
Proof. rewrite pow2_add. rewrite Qmult_comm. reflexivity. Qed.

Lemma Qmake_mult (q : Q) : (q * inject_Z (Zpos (Qden q)) == inject_Z (Qnum q))%Q.
Proof. destruct q as [n d]. unfold Qeq. simpl. lia. Qed.

(** The estimate of [ilog2] is off by less than one on either side. *)
Lemma ilog2_estimate q :
  (0 < q)%Q ->
  let e := Z.log2 (Qnum q) - Z.log2 (Zpos (Qden q)) in
  (pow2 (e - 1) <= q /\ q < pow2 (e + 1))%Q.
Proof.
  intros Hq e.
  assert (Hn : 0 < Qnum q) by (destruct q as [n d]; unfold Qlt in Hq; simpl in *; lia).
  destruct (Z.log2_spec (Qnum q) Hn) as [A1 A2].
  destruct (Z.log2_spec (Zpos (Qden q)) eq_refl) as [B1 B2].
  set (a := Z.log2 (Qnum q)) in *. set (b := Z.log2 (Zpos (Qden q))) in *.
  assert (Ha : 0 <= a) by apply Z.log2_nonneg.
  assert (Hb : 0 <= b) by apply Z.log2_nonneg.
  pose proof (Qmake_mult q) as M.
  assert (EB : (pow2 e * pow2 b == pow2 a)%Q).
  { rewrite <- pow2_add. subst e. now replace (a - b + b) with a by lia. }
  rewrite (pow2_nat a Ha), (pow2_nat b Hb) in EB.
  pose proof (pow2_pos e) as Ep.
  assert (E1 : (pow2 e == 2 * pow2 (e - 1))%Q).
  { rewrite <- pow2_succ. now replace (e - 1 + 1) with e by lia. }
  pose proof (pow2_succ e) as E2.
  rewrite Z.pow_succ_r in A2, B2 by assumption.
  rewrite Zle_Qle in A1, B1. rewrite Zlt_Qlt in A2, B2.
  rewrite inject_Z_mult in A2, B2.
  set (N := inject_Z (Qnum q)) in *. set (D := inject_Z (Zpos (Qden q))) in *.
  set (A := inject_Z (2 ^ a)) in *. set (B := inject_Z (2 ^ b)) in *.
  assert (Bp : (0 < B)%Q).
  { subst B. rewrite <- (pow2_nat b Hb). apply pow2_pos. }
  change (inject_Z 2) with 2%Q in *.
  set (E := pow2 e) in *. set (E' := pow2 (e - 1)) in *. set (E'' := pow2 (e + 1)) in *.
  clearbody N D A B E E' E''. clear - M EB Ep E1 E2 A1 A2 B1 B2 Bp Hq.
  split.
  - apply Qnot_lt_le. intros C. nra.
  - apply Qnot_le_lt. intros C. nra.
Qed.

Lemma Zlt_Q a b : a < b -> (inject_Z a < inject_Z b)%Q.
Proof. intros H. now rewrite <- Zlt_Qlt. Qed.

Lemma Zle_Q a b : a <= b -> (inject_Z a <= inject_Z b)%Q.
Proof. intros H. now rewrite <- Zle_Qle. Qed.

Lemma Q_Zle a b : (inject_Z a <= inject_Z b)%Q -> a <= b.
Proof. intros H. now rewrite Zle_Qle. Qed.

Lemma Q_Zlt a b : (inject_Z a < inject_Z b)%Q -> a < b.
Proof. intros H. now rewrite Zlt_Qlt. Qed.

Lemma ilog2_spec q :
  (0 < q)%Q -> (pow2 (ilog2 q) <= q /\ q < pow2 (ilog2 q + 1))%Q.
Proof.
  intros Hq. destruct (ilog2_estimate q Hq) as [L U]. unfold ilog2.
  set (e := Z.log2 (Qnum q) - Z.log2 (Zpos (Qden q))) in *.
  destruct (Qle_bool (pow2 e) q) eqn:T.
  - apply Qle_bool_iff in T. now split.
  - split; [exact L |]. replace (e - 1 + 1) with e by lia.
    apply Qnot_le_lt. intros C. apply Qle_bool_iff in C. congruence.
Qed.

(** The binary logarithm is the only exponent with that property. *)
Lemma ilog2_unique q e :
  (pow2 e <= q)%Q -> (q < pow2 (e + 1))%Q -> ilog2 q = e.
Proof.
  intros L U.
  assert (Hq : (0 < q)%Q) by (eapply Qlt_le_trans; [apply pow2_pos | exact L]).
  destruct (ilog2_spec q Hq) as [L' U'].
  destruct (Z.lt_trichotomy (ilog2 q) e) as [H | [H | H]]; [| exact H |].
  - exfalso. assert (P : (pow2 (ilog2 q + 1) <= pow2 e)%Q) by (apply pow2_le; lia).
    lra.
  - exfalso. assert (P : (pow2 (e + 1) <= pow2 (ilog2 q))%Q) by (apply pow2_le; lia).
    lra.
Qed.

Lemma ilog2_comp q q' : (0 < q)%Q -> (q == q')%Q -> ilog2 q = ilog2 q'.
Proof.
  intros Hq E. destruct (ilog2_spec q Hq) as [L U].
  symmetry. apply ilog2_unique; now rewrite <- E.
Qed.

Lemma rne_comp q q' : (q == q')%Q -> rne q = rne q'.
Proof.
  intros E. unfold rne. rewrite (Qfloor_comp q q' E).
  assert (C : (q - inject_Z (Qfloor q') ?= 1 # 2)%Q
              = (q' - inject_Z (Qfloor q') ?= 1 # 2)%Q) by now rewrite E.
  now rewrite C.
Qed.

Lemma rne_Z z : rne (inject_Z z) = z.
Proof.
  unfold rne. rewrite Qfloor_Z.
  assert (C : (inject_Z z - inject_Z z ?= 1 # 2)%Q = Lt).
  { assert (E : (inject_Z z - inject_Z z == 0)%Q) by ring. now rewrite E. }
  now rewrite C.
Qed.


Lemma rne_nonneg q : (0 <= q)%Q -> 0 <= rne q.
Proof.
  intros H. assert (F : 0 <= Qfloor q).
  { change 0 with (Qfloor 0). now apply Qfloor_resp_le. }
  unfold rne. destruct (_ ?= _)%Q; [destruct (Z.even _) | |]; lia.
Qed.

Lemma ulp_exp_comp q q' : (0 < q)%Q -> (q == q')%Q -> ulp_exp q = ulp_exp q'.
Proof. intros H E. unfold ulp_exp. now rewrite (ilog2_comp q q' H E). Qed.

Lemma nearest_raw_comp q q' :
  (0 < q)%Q -> (q == q')%Q -> nearest_raw q = nearest_raw q'.
Proof.
  intros H E. unfold nearest_raw. rewrite (ulp_exp_comp q q' H E).
  now rewrite (rne_comp (q / pow2 (ulp_exp q'))%Q (q' / pow2 (ulp_exp q'))%Q)
    by now rewrite E.
Qed.

Lemma nearest_comp q q' : (q == q')%Q -> nearest q = nearest q'.
Proof.
  intros E. unfold nearest, nearest_pos.
  assert (S : (q ?= 0)%Q = (q' ?= 0)%Q) by now rewrite E.
  rewrite S.
  destruct (q' ?= 0)%Q eqn:C; [reflexivity | |].
  - apply Qlt_alt in C.
    rewrite (nearest_raw_comp (- q)%Q (- q')%Q); [reflexivity | | now rewrite E].
    rewrite E. lra.
  - apply Qgt_alt in C.
    rewrite (nearest_raw_comp q q'); [reflexivity | | exact E].
    now rewrite E.
Qed.

(** A positive number that is a multiple of its last place, below the
    largest double, is a double. *)
Lemma nearest_raw_exact q m :
  (0 < q)%Q -> (q == inject_Z m * pow2 (ulp_exp q))%Q -> (q < pow2 1024)%Q ->
  exists r, nearest_raw q = Some r /\ (r == q)%Q.
Proof.
  intros Hq E B. unfold nearest_raw.
  pose proof (pow2_pos (ulp_exp q)) as Up.
  set (u := pow2 (ulp_exp q)) in *.
  assert (T : (q / u == inject_Z m)%Q).
  { rewrite E at 1. field. lra. }
  rewrite (rne_comp _ _ T), rne_Z.
  destruct (Qle_bool (pow2 1024) (inject_Z m * u)) eqn:O.
  - apply Qle_bool_iff in O. rewrite <- E in O. lra.
  - eexists. split; [reflexivity |]. now rewrite E.
Qed.

Lemma nearest_exact q m :
  (0 < q)%Q -> (q == inject_Z m * pow2 (ulp_exp q))%Q -> (q < pow2 1024)%Q ->
  nearest q = Fin (Qred q).
Proof.
  intros Hq E B. destruct (nearest_raw_exact q m Hq E B) as (r & R & Er).
  unfold nearest, nearest_pos. rewrite (proj1 (Qgt_alt q 0%Q) Hq), R. cbn.
  f_equal. now apply Qred_complete.
Qed.

Lemma Qred_inject_Z z : Qred (inject_Z z) = inject_Z z.
Proof. apply Qred_identity. simpl. apply Z.gcd_1_r. Qed.

(** The positive integers up to [2^53] are doubles. *)
Lemma nearest_of_pos z : 0 < z <= 2 ^ 53 -> nearest (inject_Z z) = of_Z z.
Proof.
  intros [Hz Hb]. unfold of_Z.
  enough (X : nearest (inject_Z z) = Fin (Qred (inject_Z z)))
    by now rewrite X, Qred_inject_Z.
  assert (Hq : (0 < inject_Z z)%Q) by now apply (Zlt_Q 0 z).
  destruct (ilog2_spec (inject_Z z) Hq) as [L U].
  set (e := ilog2 (inject_Z z)) in *.
  assert (O : (inject_Z z <= inject_Z (2 ^ 53))%Q) by now apply Zle_Q.
  assert (He : 0 <= e <= 53).
  { split.
    - destruct (Z.le_gt_cases 0 e) as [H | H]; [exact H | exfalso].
      assert (P : (pow2 (e + 1) <= pow2 0)%Q) by (apply pow2_le; lia).
      assert (O1 : (inject_Z 1 <= inject_Z z)%Q) by (apply Zle_Q; lia).
      change (pow2 0) with 1%Q in P. change (inject_Z 1) with 1%Q in O1. lra.
    - destruct (Z.le_gt_cases e 53) as [H | H]; [exact H | exfalso].
      assert (P : (pow2 54 <= pow2 e)%Q) by (apply pow2_le; lia).
      assert (S : (inject_Z (2 ^ 53) < pow2 54)%Q) by reflexivity.
      lra. }
  assert (B : (inject_Z z < pow2 1024)%Q).
  { assert (P : (pow2 53 < pow2 1024)%Q) by (apply pow2_lt; lia).
    change (pow2 53) with (inject_Z (2 ^ 53)) in P. lra. }
  assert (K : ulp_exp (inject_Z z) = e - 52) by (unfold ulp_exp; fold e; lia).
  destruct (Z.eq_dec e 53) as [E53 | N53].
  - assert (Z53 : z = 2 ^ 53).
    { rewrite E53 in L. change (pow2 53) with (inject_Z (2 ^ 53)) in L.
      apply Q_Zle in L. lia. }
    apply (nearest_exact _ (2 ^ 52)); [exact Hq | | exact B].
    rewrite K, E53, Z53. reflexivity.
  - apply (nearest_exact _ (z * 2 ^ (52 - e))); [exact Hq | | exact B].
    rewrite K, inject_Z_mult.
    rewrite <- (pow2_nat (52 - e)) by lia.
    rewrite <- Qmult_assoc, <- pow2_add.
    replace (52 - e + (e - 52)) with 0 by lia.
    change (pow2 0) with 1%Q. now rewrite Qmult_1_r.
Qed.

(** Counting up: below [2^53] the successor is exact. *)
Lemma add_one i : 0 <= i < 2 ^ 53 -> Num.add (of_Z i) (of_Z 1) = of_Z (i + 1).
Proof.
  intros [L U]. unfold Num.add, of_Z. cbn [isNaN orb finite].
  assert (P : (0 < inject_Z i + inject_Z 1)%Q).
  { rewrite <- inject_Z_plus. apply (Zlt_Q 0 (i + 1)). lia. }
  assert (N : Qeq_bool (inject_Z i + inject_Z 1) 0 = false).
  { destruct (Qeq_bool _ _) eqn:E; [| reflexivity].
    apply Qeq_bool_iff in E. rewrite E in P. discriminate. }
  rewrite N. rewrite (nearest_comp _ (inject_Z (i + 1))) by (now rewrite inject_Z_plus).
  apply nearest_of_pos. lia.
Qed.


Section Properties.
Context {host : Host}.

(** ** Sequencing *)

Lemma bind_Ok {A B} (m : M A) (k : A -> M B) w a w' :
  m w = (Ok a, w') -> bind m k w = k a w'.
Proof. intros H. unfold bind. now rewrite H. Qed.

Lemma bind_Throw {A B} (m : M A) (k : A -> M B) w e w' :
  m w = (Throw e, w') -> bind m k w = (Throw e, w').
Proof. intros H. unfold bind. now rewrite H. Qed.

Lemma emits_nil w : emits [] w = w.
Proof. destruct w; unfold emits; simpl. now rewrite app_nil_r. Qed.


Lemma emits_emits es es' w : emits es' (emits es w) = emits (es ++ es') w.
Proof. unfold emits; simpl. now rewrite app_assoc. Qed.

Lemma emit_is_emits e w : emit e w = emits [e] w.
Proof. reflexivity. Qed.

Lemma calls_app t t' : calls (t ++ t') = (calls t + calls t')%nat.
Proof. unfold calls, fetches. now rewrite filter_app, length_app. Qed.

Lemma warnings_app t t' : warnings (t ++ t') = (warnings t + warnings t')%nat.
Proof. unfold warnings. now rewrite filter_app, length_app. Qed.

(** ** The guard of the Gateway *)

Lemma api_req_unknown api method body w :
  cookie_unknown w ->
  api_req api method body w = (Ok None, emit (Log unauthenticated) w).
Proof.
  intros H. unfold cookie_unknown, stored_cookie in H.
  unfold api_req, config_cookie, bind, get, typed. rewrite H. reflexivity.
Qed.

Lemma api_req_set api method body w c :
  stored_cookie w = Some c ->
  loose_eq_str c "unknown" = Some false ->
  api_req api method body w =
  let r := {| url := "https://rugplay.com/api/" ++ api; method := method;
              headers := request_headers c; body := body |} in
  match server w (calls (trace w)) r with
  | Respond resp => (Ok (Some resp), emit (Fetch r) w)
  | Reject e => (Throw e, emit (Fetch r) w)
  end.
Proof.
  intros H E. unfold stored_cookie in H.
  unfold api_req, config_cookie, bind, get, typed. rewrite H. simpl.
  rewrite E. simpl. rewrite H. simpl. unfold fetch, calls.
  destruct (server w _ _); reflexivity.
Qed.

(** ** Nothing ever leaves the trace *)

Lemma extends_refl w : extends w w.
Proof. exists []. now rewrite app_nil_r. Qed.

Lemma extends_trans w1 w2 w3 : extends w1 w2 -> extends w2 w3 -> extends w1 w3.
Proof.
  intros [a Ha] [b Hb]. exists (a ++ b). now rewrite Hb, Ha, app_assoc.
Qed.

Lemma extends_emit e w : extends w (emit e w).
Proof. now exists [e]. Qed.

Lemma monotone_ret {A} (a : A) : monotone (ret a).
Proof. intros w. apply extends_refl. Qed.

Lemma monotone_throw {A} e : monotone (@throw A e).
Proof. intros w. apply extends_refl. Qed.

Lemma monotone_stuck {A} : monotone (@stuck A).
Proof. intros w. apply extends_refl. Qed.

Lemma monotone_get : monotone get.
Proof. intros w. apply extends_refl. Qed.

Lemma monotone_typed {A} (o : option A) : monotone (typed o).
Proof. destruct o; [apply monotone_ret | apply monotone_throw]. Qed.

Lemma monotone_bind {A B} (m : M A) (k : A -> M B) :
  monotone m -> (forall a, monotone (k a)) -> monotone (bind m k).
Proof.
  intros Hm Hk w. unfold bind. specialize (Hm w).
  destruct (m w) as [[a | e |] w1]; simpl in *; trivial.
  eapply extends_trans; [eassumption | apply Hk].
Qed.

Lemma monotone_try_catch {A} (m : M A) (h : error -> M A) :
  monotone m -> (forall e, monotone (h e)) -> monotone (try_catch m h).
Proof.
  intros Hm Hh w. unfold try_catch. specialize (Hm w).
  destruct (m w) as [[a | e |] w1]; simpl in *; trivial.
  eapply extends_trans; [eassumption | apply Hh].
Qed.

Lemma monotone_for_each {A} (l : list A) (f : A -> M unit) :
  (forall a, monotone (f a)) -> monotone (for_each l f).
Proof.
  intros Hf. induction l as [| x l IH]; simpl.
  - apply monotone_ret.
  - apply monotone_bind; [apply Hf | intros _; apply IH].
Qed.

Lemma monotone_set_config c : monotone (modify (set_config c)).
Proof. intros w. exists []. simpl. now rewrite app_nil_r. Qed.

Lemma monotone_console_log args : monotone (console_log args).
Proof.
  intros w. unfold console_log.
  destruct (forallb arg_ok args); [apply extends_emit | apply extends_refl].
Qed.

Lemma monotone_readTextFileSync p : monotone (readTextFileSync p).
Proof.
  intros w. unfold readTextFileSync.
  destruct (lookup_file p (files w)); [destruct (readable w p) |];
    apply extends_refl.
Qed.

Lemma monotone_statSync p : monotone (statSync p).
Proof.
  intros w. unfold statSync.
  destruct (lookup_file p (files w)); [| destruct (is_dir p w)];
    apply extends_refl.
Qed.

Lemma monotone_mkdirSync p : monotone (mkdirSync p).
Proof.
  intros w. unfold mkdirSync.
  destruct (is_dir p w); [| destruct (writable w p)];
    try apply extends_refl.
  exists []. simpl. now rewrite app_nil_r.
Qed.

Lemma monotone_writeTextFileSync p t : monotone (writeTextFileSync p t).
Proof.
  intros w. unfold writeTextFileSync.
  destruct (negb _); [| destruct (writable w p)]; try apply extends_refl.
  exists []. simpl. now rewrite app_nil_r.
Qed.

Lemma monotone_fetch r : monotone (fetch r).
Proof.
  intros w. unfold fetch. destruct (server w _ r); apply extends_emit.
Qed.

Create HintDb mono.
#[local] Hint Resolve monotone_ret monotone_throw monotone_stuck monotone_get
  monotone_typed monotone_set_config monotone_console_log
  monotone_readTextFileSync monotone_statSync monotone_mkdirSync
  monotone_writeTextFileSync monotone_fetch : mono.

(** Splitting a computation along its sequencing and its branches. *)
Ltac mono :=
  repeat first
    [ progress auto with mono
    | apply monotone_bind; [| intros ]
    | apply monotone_try_catch; [| intros ]
    | apply monotone_for_each; intros
    | match goal with
      | |- monotone (match ?x with _ => _ end) => destruct x
      | |- monotone (if ?b then _ else _) => destruct b
      end ].

Lemma monotone_getConfigPath : monotone getConfigPath.
Proof. unfold getConfigPath. mono. Qed.
#[local] Hint Resolve monotone_getConfigPath : mono.

Lemma monotone_readConfig : monotone readConfig.
Proof. unfold readConfig. mono. Qed.

Lemma monotone_writeConfig c : monotone (writeConfig c).
Proof. unfold writeConfig. mono. Qed.
#[local] Hint Resolve monotone_readConfig monotone_writeConfig : mono.

Lemma monotone_config_cookie : monotone config_cookie.
Proof. unfold config_cookie. mono. Qed.

Lemma monotone_set_config_cookie c : monotone (set_config_cookie c).
Proof. unfold set_config_cookie. mono. Qed.
#[local] Hint Resolve monotone_config_cookie monotone_set_config_cookie : mono.

Lemma monotone_api_req api method body : monotone (api_req api method body).
Proof. unfold api_req. mono. Qed.

Lemma monotone_api_error a : monotone (api_error a).
Proof. unfold api_error. mono. Qed.

Lemma monotone_json_of a : monotone (json_of a).
Proof. unfold json_of. mono. Qed.
#[local] Hint Resolve monotone_api_req monotone_api_error monotone_json_of
  : mono.

Lemma monotone_me : monotone me.
Proof. unfold me. mono. Qed.

Lemma monotone_mk_file p : monotone (mk_file p).
Proof. unfold mk_file. mono. Qed.

Lemma monotone_prop v k : monotone (prop v k).
Proof. unfold prop. mono. Qed.
#[local] Hint Resolve monotone_me monotone_mk_file monotone_prop : mono.

Lemma monotone_props ks : forall v, monotone (props v ks).
Proof. induction ks; intros v; simpl; mono. Qed.

Lemma monotone_index v i : monotone (index v i).
Proof. unfold index. mono. Qed.

Lemma monotone_splice v : monotone (splice v).
Proof. unfold splice. mono. Qed.

Lemma monotone_round3 v : monotone (round3 v).
Proof. unfold round3. mono. Qed.

Lemma monotone_floor3 v : monotone (floor3 v).
Proof. unfold floor3. mono. Qed.

Lemma monotone_floor0 v : monotone (floor0 v).
Proof. unfold floor0. mono. Qed.

Lemma monotone_log d : monotone (log d).
Proof. unfold log. mono. Qed.
#[local] Hint Resolve monotone_props monotone_index monotone_splice
  monotone_round3 monotone_floor3 monotone_floor0 monotone_log : mono.

Lemma monotone_on_ok a k :
  (forall r, monotone (k r)) -> monotone (on_ok a k).
Proof. intros H. unfold on_ok. mono. Qed.

Lemma monotone_dayChange v : monotone (dayChange v).
Proof. unfold dayChange. mono. Qed.

Lemma monotone_profile_field u i : monotone (profile_field u i).
Proof. unfold profile_field. mono. Qed.
#[local] Hint Resolve monotone_dayChange monotone_profile_field : mono.

Ltac mono_handler :=
  repeat first
    [ apply monotone_on_ok; intros
    | progress mono ].

Lemma monotone_wager_result json amount : monotone (wager_result json amount).
Proof. unfold wager_result. mono. Qed.
#[local] Hint Resolve monotone_wager_result : mono.

Lemma monotone_market_table page json : monotone (market_table page json).
Proof. unfold market_table, market_row. mono. Qed.

Lemma monotone_view_user_tables json : monotone (view_user_tables json).
Proof.
  unfold view_user_tables, created_coin, recent_transaction. mono.
Qed.

Lemma monotone_cmd_settings args : monotone (cmd_settings args).
Proof.
  unfold cmd_settings.
  destruct args as [| a [| b [| c [| d r]]]]; mono_handler.
Qed.

(** ** The registry *)

Lemma commands_signatures :
  map (fun '(k, c) => (k, args c, desc c)) commands = signatures.
Proof. reflexivity. Qed.

Lemma split_on_not_nil sep s : split_on sep s <> [].
Proof.
  destruct s as [| c r]; simpl; [discriminate |].
  destruct (Ascii.eqb c sep); [discriminate |].
  destruct (split_on sep r); discriminate.
Qed.

(** ** Handlers under the sentinel cookie *)

Lemma mk_file_pure p w : snd (mk_file p w) = w.
Proof.
  unfold mk_file, bind, readTextFileSync, statSync, get, ret.
  destruct (lookup_file p (files w)) eqn:E; [| reflexivity].
  destruct (readable w p); [| reflexivity].
  simpl. rewrite E. reflexivity.
Qed.

Lemma mk_file_not_stuck p w : fst (mk_file p w) <> Stuck.
Proof.
  unfold mk_file, bind, readTextFileSync, statSync, get, ret.
  destruct (lookup_file p (files w)) eqn:E; [| discriminate].
  destruct (readable w p); [| discriminate].
  simpl. rewrite E. discriminate.
Qed.

Ltac refused H :=
  rewrite (bind_Ok _ _ _ _ _ (api_req_unknown _ _ _ _ H)); simpl.

Ltac warned := eexists [_]; repeat split; reflexivity.

Lemma quiet_coinflip args w :
  cookie_unknown w -> quiet cmd_coinflip args w 1.
Proof.
  intros H. unfold quiet, cmd_coinflip.
  destruct (shift args) as [s r]. destruct (shift r) as [am r'].
  refused H. warned.
Qed.

Lemma quiet_slots args w : cookie_unknown w -> quiet cmd_slots args w 1.
Proof.
  intros H. unfold quiet, cmd_slots. destruct (shift args) as [am r].
  refused H. warned.
Qed.

Lemma quiet_summary args w : cookie_unknown w -> quiet cmd_summary args w 1.
Proof. intros H. unfold quiet, cmd_summary. refused H. warned. Qed.

Lemma quiet_redeem args w : cookie_unknown w -> quiet cmd_redeem args w 1.
Proof.
  intros H. unfold quiet, cmd_redeem. destruct (shift args) as [c r].
  refused H. warned.
Qed.

Lemma quiet_daily_reward args w :
  cookie_unknown w -> quiet cmd_daily_reward args w 1.
Proof. intros H. unfold quiet, cmd_daily_reward. refused H. warned. Qed.

Lemma quiet_notifications args w :
  cookie_unknown w -> quiet cmd_notifications args w 1.
Proof. intros H. unfold quiet, cmd_notifications. refused H. warned. Qed.

Lemma quiet_market args w : cookie_unknown w -> quiet cmd_market args w 1.
Proof.
  intros H. unfold quiet, cmd_market.
  destruct (shift args) as [p r]. destruct (shift r) as [i r'].
  refused H. warned.
Qed.

Ltac silent := eexists [_]; repeat split; reflexivity.

Lemma quiet_view_user args w :
  cookie_unknown w ->
  quiet cmd_view_user args w (if passes_checks "view-user" args w then 1 else 0).
Proof.
  intros H. unfold quiet, cmd_view_user.
  destruct args as [| u [| v r]]; simpl; try silent.
  refused H. warned.
Qed.

Lemma quiet_trade name type verb sign st args w :
  name = "buy-coin" \/ name = "sell-coin" ->
  cookie_unknown w ->
  quiet (trade type verb sign st) args w
    (if passes_checks name args w then 1 else 0).
Proof.
  intros Hn H.
  assert (E : passes_checks name args w = (List.length args =? 2)%nat)
    by (destruct Hn; subst; reflexivity).
  rewrite E. unfold quiet, trade.
  destruct args as [| c [| a [| x r]]]; simpl; try silent.
  refused H. warned.
Qed.

Lemma quiet_invest args w :
  cookie_unknown w ->
  quiet cmd_invest args w (if passes_checks "invest" args w then 1 else 0).
Proof.
  intros H. unfold quiet, cmd_invest.
  destruct args as [| sb [| sa r]]; simpl; try silent.
  change (passes_checks "invest" (sb :: sa :: r) w)
    with (negb (isNaN (parseFloat sb)) && negb (isNaN (parseFloat sa))).
  destruct (isNaN (parseFloat sb)); simpl.
  { exists []. rewrite emits_nil. now repeat split. }
  destruct (isNaN (parseFloat sa)); simpl.
  { exists []. rewrite emits_nil. now repeat split. }
  refused H. warned.
Qed.

Lemma quiet_new_coin args w :
  cookie_unknown w ->
  quiet cmd_new_coin args w
    (if passes_checks "new-coin" args w then 1 else 0).
Proof.
  intros H. unfold quiet, cmd_new_coin.
  destruct args as [| n [| s [| i [| x r]]]]; simpl; try silent.
  pose proof (mk_file_pure i w) as P.
  change (passes_checks "new-coin" [n; s; i] w)
    with (match fst (mk_file i w) with Ok _ => true | _ => false end).
  unfold bind at 1. unfold try_catch. unfold bind at 1.
  destruct (mk_file i w) as [[f | e |] w1] eqn:E; simpl in P; subst w1; simpl.
  - refused H. warned.
  - rewrite !emit_is_emits, emits_emits. simpl.
    eexists. repeat split; reflexivity.
  - exfalso. apply (mk_file_not_stuck i w). now rewrite E.
Qed.

Lemma handler_cases name f :
  In name single_call_commands -> handler name = Some f ->
  (name = "coinflip" /\ f = cmd_coinflip)
  \/ (name = "slots" /\ f = cmd_slots)
  \/ (name = "summary" /\ f = cmd_summary)
  \/ (name = "redeem" /\ f = cmd_redeem)
  \/ (name = "new-coin" /\ f = cmd_new_coin)
  \/ (name = "daily-reward" /\ f = cmd_daily_reward)
  \/ (name = "notifications" /\ f = cmd_notifications)
  \/ (name = "invest" /\ f = cmd_invest)
  \/ (name = "view-user" /\ f = cmd_view_user)
  \/ (name = "market" /\ f = cmd_market)
  \/ (name = "buy-coin" /\ f = cmd_buy_coin)
  \/ (name = "sell-coin" /\ f = cmd_sell_coin).
Proof.
  intros Hin Hf. simpl in Hin.
  repeat (destruct Hin as [<- | Hin];
          [ injection Hf as <-; tauto | ]).
  contradiction.
Qed.

(** The first event a computation adds. *)
Lemma bind_first {A B} (m : M A) (k : A -> M B) w e :
  (exists rest, trace (snd (m w)) = trace w ++ e :: rest) ->
  (forall a, monotone (k a)) ->
  exists rest, trace (snd (bind m k w)) = trace w ++ e :: rest.
Proof.
  intros [rest Hm] Hk. unfold bind.
  destruct (m w) as [[a | err |] w1]; simpl in *; eauto.
  destruct (Hk a w1) as [es Hes]. exists (rest ++ es).
  rewrite Hes, Hm, <- app_assoc. reflexivity.
Qed.

Lemma config_cookie_Ok w c :
  stored_cookie w = Some c -> config_cookie w = (Ok c, w).
Proof.
  unfold stored_cookie, config_cookie, bind, get, typed. now intros ->.
Qed.

Lemma me_first w c :
  stored_cookie w = Some c ->
  exists rest, trace (snd (me w)) = trace w ++ Fetch (me_request c) :: rest.
Proof.
  intros H. unfold me. rewrite (bind_Ok _ _ _ _ _ (config_cookie_Ok _ _ H)).
  apply bind_first.
  - exists []. unfold fetch. destruct (server w _ _); reflexivity.
  - intros a. mono.
Qed.

Lemma api_req_first api method body w c :
  stored_cookie w = Some c ->
  loose_eq_str c "unknown" = Some false ->
  trace (snd (api_req api method body w)) =
  trace w ++ [Fetch {| url := "https://rugplay.com/api/" ++ api;
                       method := method; headers := request_headers c;
                       body := body |}].
Proof.
  intros H E. rewrite (api_req_set _ _ _ _ _ H E). simpl.
  destruct (server w _ _); reflexivity.
Qed.

(** C1, as the code has it.  With the sentinel cookie stored, a call of
    the Gateway makes no network call and prints the warning once.  So
    every command that calls the Gateway once makes no network call and
    prints the warning exactly once when its own checks of the
    arguments pass, and not at all when they fail; [portfolio], which
    calls the Gateway twice before it looks at either result, prints
    the warning twice; [settings], given its four arguments, first
    fetches the profile through [me], which has no guard. *)
Theorem sentinel_cookie_guard (w : World) :
  cookie_unknown w ->
  (forall api method body,
     api_req api method body w = (Ok None, emit (Log unauthenticated) w))
  /\ (forall name f args,
        In name single_call_commands -> handler name = Some f ->
        exists es,
          f args w = (Ok tt, emits es w) /\ calls es = 0%nat
          /\ warnings es = if passes_checks name args w then 1%nat else 0%nat)
  /\ (forall args,
        cmd_portfolio args w =
        (Ok tt, emits [Log unauthenticated; Log unauthenticated] w))
  /\ warnings [Log unauthenticated; Log unauthenticated] = 2%nat
  /\ calls [Log unauthenticated; Log unauthenticated] = 0%nat
  /\ (forall args, (4 <= List.length args)%nat ->
        exists rest,
          trace (snd (cmd_settings args w)) =
          trace w ++ Fetch (me_request (VStr "unknown")) :: rest).
Proof.
  intros H. repeat split.
  - intros. now apply api_req_unknown.
  - intros name f args Hin Hf.
    destruct (handler_cases name f Hin Hf)
      as [[-> ->] | [[-> ->] | [[-> ->] | [[-> ->] | [[-> ->] | [[-> ->]
         | [[-> ->] | [[-> ->] | [[-> ->] | [[-> ->] | [[-> ->] | [-> ->]
         ]]]]]]]]]]].
    + now apply quiet_coinflip.
    + now apply quiet_slots.
    + now apply quiet_summary.
    + now apply quiet_redeem.
    + now apply quiet_new_coin.
    + now apply quiet_daily_reward.
    + now apply quiet_notifications.
    + now apply quiet_invest.
    + now apply quiet_view_user.
    + now apply quiet_market.
    + apply quiet_trade; auto.
    + apply quiet_trade; auto.
  - intros args. unfold cmd_portfolio.
    rewrite (bind_Ok _ _ _ _ _ (api_req_unknown _ _ _ _ H)).
    assert (H' : cookie_unknown (emit (Log unauthenticated) w)) by exact H.
    rewrite (bind_Ok _ _ _ _ _ (api_req_unknown _ _ _ _ H')).
    simpl. rewrite !emit_is_emits, emits_emits. reflexivity.
  - intros args Hlen.
    destruct args as [| a [| b [| c [| d r]]]]; simpl in Hlen; try lia.
    unfold cmd_settings. apply bind_first.
    + now apply me_first.
    + intros u. mono_handler.
Qed.

(** C9.  A line whose first token is no registered command prints one
    line, the error that names the token between double quotes and
    points to [commands], and does nothing else: the configuration and
    the files are as before, no network call is made, and the loop goes
    on with the next line. *)
Theorem unknown_command_reported (line : string) (input : list string)
  (w : World) :
  handler (first_token line) = None ->
  let complaint :=
    Log [Tpl [Chalk red_bright [Txt "Command"]; Txt " ";
              Chalk green [Txt (quoted (first_token line))]; Txt " ";
              Chalk red_bright [Txt "does not exist"];
              Txt ". Type 'commands' to list commands."]] in
  let w' := emit complaint w in
  repl_step line w = (Ok tt, w')
  /\ trace w' = trace w ++ [complaint]
  /\ config w' = config w
  /\ files w' = files w
  /\ dirs w' = dirs w
  /\ calls (trace w') = calls (trace w)
  /\ repl (line :: input) w = repl input w'.
Proof.
  intros Hn complaint w'. unfold first_token in *.
  assert (Hs : repl_step line w = (Ok tt, w')).
  { unfold repl_step. subst w' complaint.
    destruct (split_on " " line) as [| name rest] eqn:E.
    - now apply split_on_not_nil in E.
    - cbn [hd] in *. unfold handler in Hn.
      destruct (commands_get name commands); [discriminate |].
      reflexivity. }
  repeat split; trivial.
  - subst w'. unfold emit. cbn [trace]. rewrite calls_app.
    change (calls [complaint]) with 0%nat. lia.
  - simpl. now rewrite (bind_Ok _ _ _ _ _ Hs).
Qed.

(** C8.  [market] without arguments asks the Gateway for page 1 with an
    empty search term and limit 6; with a cookie set, that request is
    the first thing the command does. *)
Theorem market_defaults (w : World) (c : value) :
  stored_cookie w = Some c ->
  loose_eq_str c "unknown" = Some false ->
  market_query EmptyString "1" "6" =
    "market?search=&sortBy=marketCap&sortOrder=desc&priceFilter=all&changeFilter=all&page=1&limit=6"%string
  /\ exists rest,
       trace (snd (cmd_market [] w)) =
       trace w
       ++ Fetch {| url := "https://rugplay.com/api/market?search=&sortBy=marketCap&sortOrder=desc&priceFilter=all&changeFilter=all&page=1&limit=6";
                   method := "GET";
                   headers := request_headers c;
                   body := NoBody |} :: rest.
Proof.
  intros H E. split; [reflexivity |].
  unfold cmd_market. cbn [shift or_default append_rest encodeURIComponent].
  apply bind_first.
  - exists []. now rewrite (api_req_first _ _ _ _ _ H E).
  - intros a. apply monotone_on_ok. intros r.
    apply monotone_bind; [apply monotone_json_of |].
    intros json. apply monotone_market_table.
Qed.

Lemma append_assoc (a b c : string) : ((a ++ b) ++ c = a ++ (b ++ c))%string.
Proof. induction a as [| x a IH]; simpl; [reflexivity | now rewrite IH]. Qed.

Lemma append_nil_r (a : string) : (a ++ EmptyString = a)%string.
Proof. induction a as [| x a IH]; simpl; [reflexivity | now rewrite IH]. Qed.

Lemma stringify_number n : JSON.stringify (VNum n) = Some (number_json n).
Proof. destruct n; reflexivity. Qed.

(** Texts are compared with their appends associated to the right. *)
Ltac text_norm :=
  repeat (progress (rewrite ?append_assoc, ?append_nil_r; cbn [append])).

(** The JSON text of an object with a text and a number. *)
Lemma stringify_order k1 s k2 n :
  JSON.stringify (VObj [(k1, VStr s); (k2, VNum n)])
  = Some ("{" ++ JSON.quote k1 ++ ":" ++ JSON.quote s ++ ","
          ++ JSON.quote k2 ++ ":" ++ number_json n ++ "}")%string.
Proof.
  assert (E : JSON.stringify (VObj [(k1, VStr s); (k2, VNum n)])
              = Some ("{" ++ (EmptyString ++ JSON.quote k1 ++ ":"
                              ++ JSON.quote s
                              ++ ("," ++ JSON.quote k2 ++ ":"
                                  ++ number_json n ++ EmptyString))
                      ++ "}")%string)
    by (destruct n; reflexivity).
  rewrite E. f_equal. text_norm. reflexivity.
Qed.

(** The body of a wager on a side. *)
Lemma coinflip_body side amount :
  json_body (VObj [("side", VStr side); ("amount", VNum amount)])
  = TextBody ("{" ++ quoted "side" ++ ":" ++ JSON.quote side ++ ","
              ++ quoted "amount" ++ ":" ++ number_json amount ++ "}").
Proof. unfold json_body. now rewrite stringify_order. Qed.

(** C10.  In [coinflip] every side token other than the string 1, a
    missing one included, wagers heads, and a missing amount is the
    wager 0.01: with a cookie set, the request that carries them in its
    body is the first thing the command does. *)
Theorem coinflip_defaults (w : World) (c : value) (args : list string) :
  stored_cookie w = Some c ->
  loose_eq_str c "unknown" = Some false ->
  hd_error args <> Some "1"%string ->
  let amount := parseFloat (nth 1 args "0.01"%string) in
  (exists rest,
     trace (snd (cmd_coinflip args w)) =
     trace w
     ++ Fetch {| url := "https://rugplay.com/api/gambling/coinflip";
                 method := "POST";
                 headers := request_headers c;
                 body := TextBody
                           ("{" ++ quoted "side" ++ ":" ++ quoted "heads"
                            ++ "," ++ quoted "amount" ++ ":"
                            ++ number_json amount ++ "}") |} :: rest)
  /\ ((List.length args <= 1)%nat ->
      amount = Fin (5764607523034235 # 576460752303423488)
      /\ number_json amount = "0.01"%string).
Proof.
  intros H E Hs amount. split.
  - unfold cmd_coinflip.
    assert (Hside : match fst (shift args) with
                    | Some x => if String.eqb x "1" then "tails" else "heads"
                    | None => "heads"
                    end = "heads"%string).
    { destruct args as [| x r]; simpl; [reflexivity |].
      destruct (String.eqb_spec x "1"); [subst; now elim Hs | reflexivity]. }
    assert (Ham : or_default (fst (shift (snd (shift args)))) "0.01"
                  = nth 1 args "0.01"%string).
    { destruct args as [| x [| y r]]; reflexivity. }
    destruct (shift args) as [s r]. cbn [fst snd] in *.
    destruct (shift r) as [am r']. cbn [fst] in *.
    rewrite Hside, Ham. fold amount. rewrite coinflip_body.
    apply bind_first.
    + exists []. now rewrite (api_req_first _ _ _ _ _ H E).
    + intros a. mono_handler.
  - intros Hl. subst amount.
    destruct args as [| x [| y r]]; simpl in Hl; try lia;
      split; vm_compute; reflexivity.
Qed.

(** ** Single steps that succeed *)

Lemma prop_Ok v k x w : get_prop v k = Some x -> prop v k w = (Ok x, w).
Proof. unfold prop, typed. now intros ->. Qed.

Lemma index_Ok v i x w : get_index v i = Some x -> index v i w = (Ok x, w).
Proof. unfold index, typed. now intros ->. Qed.

Lemma splice_Ok v t w : to_string v = Some t -> splice v w = (Ok t, w).
Proof. unfold splice, typed. now intros ->. Qed.

Lemma json_of_Ok a v w : JSON.parse (text a) = Some v -> json_of a w = (Ok v, w).
Proof. unfold json_of. now intros ->. Qed.

Lemma console_log_Ok args w :
  forallb arg_ok args = true ->
  console_log args w = (Ok tt, emit (Log args) w).
Proof. unfold console_log. now intros ->. Qed.

Lemma log_Ok d w :
  forallb doc_ok d = true -> log d w = (Ok tt, emit (Log [Tpl d]) w).
Proof.
  intros H. unfold log. apply console_log_Ok. simpl. now rewrite H.
Qed.

Lemma props2_Ok v k1 k2 x y w :
  get_prop v k1 = Some x -> get_prop x k2 = Some y ->
  props v [k1; k2] w = (Ok y, w).
Proof.
  intros H1 H2. simpl. rewrite (bind_Ok _ _ _ _ _ (prop_Ok _ _ _ _ H1)).
  rewrite (bind_Ok _ _ _ _ _ (prop_Ok _ _ _ _ H2)). reflexivity.
Qed.

(** One step of a computation whose result is known. *)
Ltac run H := rewrite (bind_Ok _ _ _ _ _ H).

(** ** Formatting *)

Lemma gtb_zero n q :
  Num.finite n = Some q -> (Num.gtb n (Fin 0) = true <-> (0 < q)%Q).
Proof.
  intros F. unfold Num.gtb.
  assert (N : isNaN n = false) by (destruct n; try discriminate; reflexivity).
  rewrite N, F. cbn [isNaN orb Num.finite].
  rewrite Qlt_alt, <- (Qcompare_antisym q 0%Q).
  destruct (q ?= 0)%Q; simpl; split; congruence.
Qed.

Lemma eqb_zero n q :
  Num.finite n = Some q -> (Num.eqb n (Fin 0) = true <-> (q == 0)%Q).
Proof.
  intros F. unfold Num.eqb.
  assert (N : isNaN n = false) by (destruct n; try discriminate; reflexivity).
  rewrite N, F. cbn [isNaN orb Num.finite]. apply Qeq_bool_iff.
Qed.

Lemma sign_exclusive q :
  ((0 < q)%Q -> (q == 0)%Q -> False)
  /\ ((0 < q)%Q -> (q < 0)%Q -> False)
  /\ ((q == 0)%Q -> (q < 0)%Q -> False).
Proof.
  repeat split; intros A B.
  - rewrite B in A. now apply (Qlt_irrefl 0%Q).
  - apply (Qlt_irrefl 0%Q). now apply Qlt_trans with q.
  - rewrite A in B. now apply (Qlt_irrefl 0%Q).
Qed.

(** The chain on a finite number: the document and its direction. *)
Lemma dayChange_finite n q w :
  Num.finite n = Some q ->
  exists d,
    dayChange (VNum n) w = (Ok d, w)
    /\ direction_of d = Some (sign_direction q)
    /\ doc_ok d = true
    /\ ((0 < q)%Q -> d = Chalk bg_green [Txt "^ "; Str (VNum n)])
    /\ ((q == 0)%Q -> d = Chalk bg_gray [Txt "- "; Str (VNum n)])
    /\ ((q < 0)%Q -> d = Chalk bg_red_bright [Txt "v "; Str (VNum n)]).
Proof.
  intros F. destruct (sign_exclusive q) as (PZ & PN & ZN).
  unfold dayChange, bind, typed, gt_num, loose_eq_num, to_number, option_map,
    ret, sign_direction.
  destruct (Num.gtb n (Fin 0)) eqn:G.
  - apply (gtb_zero n q F) in G. eexists. split; [reflexivity |].
    assert (C : (q ?= 0)%Q = Gt) by now apply Qgt_alt.
    rewrite C. repeat split; intros; trivial; exfalso; eauto.
  - assert (N : ~ (0 < q)%Q) by (rewrite <- (gtb_zero n q F); congruence).
    destruct (Num.eqb n (Fin 0)) eqn:Z.
    + apply (eqb_zero n q F) in Z. eexists. split; [reflexivity |].
      assert (C : (q ?= 0)%Q = Eq) by now apply Qeq_alt.
      rewrite C. repeat split; intros; trivial; exfalso; eauto.
    + assert (NZ : ~ (q == 0)%Q) by (rewrite <- (eqb_zero n q F); congruence).
      assert (L : (q < 0)%Q).
      { destruct (Q_dec q 0%Q) as [[L | G'] | E]; trivial; contradiction. }
      eexists. split; [reflexivity |].
      assert (C : (q ?= 0)%Q = Lt) by now apply Qlt_alt.
      rewrite C. repeat split; intros; trivial; exfalso; eauto.
Qed.

(** ** Rows of primitive values *)

Lemma primitive_text x : primitive x -> exists t, to_string x = Some t.
Proof. destruct x as [| | [] | | | | |]; simpl; intros P; now eauto. Qed.

Lemma primitive_number x : primitive x -> exists n, to_number x = Some n.
Proof. destruct x as [| | [] | | | | |]; simpl; intros P; now eauto. Qed.


Lemma flat_row_prop c k :
  flat_row c -> inherited k = false ->
  exists x, get_prop c k = Some x /\ primitive x.
Proof.
  intros (fields & -> & All) I. unfold get_prop, obj_get. rewrite I.
  induction fields as [| [k' v] fields IH]; simpl.
  - now exists VUndef.
  - inversion All as [| ? ? P All']; subst.
    destruct (String.eqb k k'); [now exists v | now apply IH].
Qed.

Lemma round3_Ok v n w :
  to_number v = Some n -> round3 v w = (Ok (VNum (rounded3 n)), w).
Proof. intros N. unfold round3, bind, typed. now rewrite N. Qed.

Lemma floor3_Ok v n w :
  to_number v = Some n -> floor3 v w = (Ok (VNum (floored3 n)), w).
Proof. intros N. unfold floor3, bind, typed. now rewrite N. Qed.


(** A line whose splices all have a text can be printed. *)
Ltac docs_ok :=
  repeat match goal with
         | H : doc_ok (Str _) = true |- _ => cbn [doc_ok] in H
         end;
  cbn [forallb doc_ok to_string];
  repeat match goal with
         | P : primitive ?x |- context [to_string ?x] =>
             let t := fresh "t" in
             let E := fresh "E" in
             destruct (primitive_text x P) as [t E]; rewrite E
         | H : match to_string ?x with _ => _ end = true
           |- context [to_string ?x] =>
             destruct (to_string x); [| discriminate H]
         | H : doc_ok ?d = true |- context [doc_ok ?d] => rewrite H
         end;
  reflexivity.

(** Reading a member of a row of primitive values. *)
Ltac member c k x Hx Px :=
  match goal with
  | F : flat_row c |- _ =>
      destruct (flat_row_prop c k F eq_refl) as (x & Hx & Px)
  end.

(** C6.  For every real change value the if-chain of the handlers picks
    the prefix by the sign: the positive form exactly when the value is
    above zero, the zero form exactly when it is zero, the negative form
    exactly when it is below zero.  The chain is in every place where a
    change value is rendered: a row of [market], a row of the created
    coins of [view-user] and a row of the holdings of [portfolio] (for
    the P&L% and for the 24h change) each print one line, in which the
    change values are shown by their signs. *)
Theorem change_direction (n : number) (q : Q) (w : World) :
  Num.finite n = Some q ->
  (exists d,
     dayChange (VNum n) w = (Ok d, w)
     /\ (direction_of d = Some Positive <-> (0 < q)%Q)
     /\ (direction_of d = Some Zero <-> (q == 0)%Q)
     /\ (direction_of d = Some Negative <-> (q < 0)%Q)
     /\ ((0 < q)%Q -> d = Chalk bg_green [Txt "^ "; Str (VNum n)])
     /\ ((q == 0)%Q -> d = Chalk bg_gray [Txt "- "; Str (VNum n)])
     /\ ((q < 0)%Q -> d = Chalk bg_red_bright [Txt "v "; Str (VNum n)]))
  /\ (forall c,
        flat_row c -> get_prop c "change24h" = Some (VNum n) ->
        (exists line,
           market_row c w = (Ok tt, emit line w)
           /\ directions line = [sign_direction q])
        /\ (doc_ok (Str chalk_name) = true ->
            exists line,
              created_coin c w = (Ok tt, emit line w)
              /\ directions line = [sign_direction q]))
  /\ (forall h n' q',
        flat_row h ->
        get_prop h "percentageChange" = Some (VNum n) ->
        get_prop h "change24h" = Some (VNum n') ->
        Num.finite n' = Some q' ->
        exists line,
          holding_row h w = (Ok tt, emit line w)
          /\ directions line = [sign_direction q; sign_direction q']).
Proof.
  intros F. destruct (sign_exclusive q) as (PZ & PN & ZN).
  destruct (dayChange_finite n q w F) as (d & Hd & Dir & Dd & P & Z & N).
  split; [| split].
  - exists d. split; [exact Hd |]. rewrite Dir. unfold sign_direction.
    destruct (q ?= 0)%Q eqn:C.
    + apply Qeq_alt in C.
      repeat split; intros; auto; try discriminate; exfalso; eauto.
    + apply Qlt_alt in C.
      repeat split; intros; auto; try discriminate; exfalso; eauto.
    + apply Qgt_alt in C.
      repeat split; intros; auto; try discriminate; exfalso; eauto.
  - intros c Fc Hc.
    member c "symbol" sy Hsym Psym. member c "name" name Hname Pname.
    member c "currentPrice" price Hprice Pprice.
    member c "marketCap" cap Hcap Pcap.
    member c "creatorName" creator Hcreator Pcreator.
    destruct (primitive_number price Pprice) as [p Np].
    destruct (primitive_number cap Pcap) as [m Nm].
    split.
    + eexists. split.
      * unfold market_row.
        run (prop_Ok _ _ _ w Hc). run Hd. run (prop_Ok _ _ _ w Hsym).
        run (prop_Ok _ _ _ w Hname). run (prop_Ok _ _ _ w Hprice).
        run (round3_Ok _ _ w Np). run (prop_Ok _ _ _ w Hcap).
        run (prop_Ok _ _ _ w Hcreator).
        apply log_Ok. docs_ok.
      * cbn [directions flat_map direction_of String.eqb Ascii.eqb Bool.eqb
               app]. rewrite Dir. reflexivity.
    + intros Dname. eexists. split.
      * unfold created_coin.
        run (prop_Ok _ _ _ w Hc). run Hd. run (prop_Ok _ _ _ w Hprice).
        run (round3_Ok _ _ w Np). run (prop_Ok _ _ _ w Hcap).
        run (floor3_Ok _ _ w Nm).
        apply log_Ok. docs_ok.
      * cbn [directions flat_map direction_of String.eqb Ascii.eqb Bool.eqb
               app]. rewrite Dir. reflexivity.
  - intros h n' q' Fh Hpc Hch F'.
    destruct (dayChange_finite n' q' w F')
      as (d' & Hd' & Dir' & Dd' & P' & Z' & N').
    member h "symbol" sy Hsym Psym. member h "quantity" qty Hqty Pqty.
    member h "currentPrice" price Hprice Pprice.
    member h "value" val Hval Pval.
    destruct (primitive_number qty Pqty) as [m Nm].
    destruct (primitive_number val Pval) as [p Np].
    eexists. split.
    + unfold holding_row.
      run (prop_Ok _ _ _ w Hpc). run Hd. run (prop_Ok _ _ _ w Hch). run Hd'.
      run (prop_Ok _ _ _ w Hsym). run (prop_Ok _ _ _ w Hqty).
      run (round3_Ok _ _ w Nm). run (prop_Ok _ _ _ w Hprice).
      run (prop_Ok _ _ _ w Hval). run (round3_Ok _ _ w Np).
      apply log_Ok. docs_ok.
    + cbn [directions flat_map direction_of String.eqb Ascii.eqb Bool.eqb
             app]. rewrite Dir, Dir'. reflexivity.
Qed.

(** ** Slot symbols *)

Lemma assoc_slot_miss k :
  ~ In k slot_names -> assoc k slot_record = None.
Proof.
  intros N. unfold slot_record, assoc.
  repeat match goal with
         | |- context [String.eqb k ?s] =>
             destruct (String.eqb_spec k s);
             [ subst; exfalso; apply N; simpl; tauto | ]
         end.
  reflexivity.
Qed.

(** C7, as the code has it.  [slot_record] gives a fixed glyph to each
    of the six identifiers.  It is an object literal, so a lookup that
    finds no glyph goes on to [Object.prototype]: every other
    identifier yields [undefined] unless it names an inherited member
    ([constructor], [toString], ...), in which case the lookup yields
    that member.  [slots] passes the three lookups to [console.log] as
    they are, with no placeholder and no error, and goes on to the
    result of the wager. *)
Theorem slot_lookup :
  (obj_get slot_record "wattesigma" = VStr "◻️"
   /\ obj_get slot_record "webx" = VStr "⬛"
   /\ obj_get slot_record "twoblade" = VStr "🟥"
   /\ obj_get slot_record "lyntr" = VStr "🟪"
   /\ obj_get slot_record "bussin" = VStr "🟧"
   /\ obj_get slot_record "subterfuge" = VStr "🟩")
  /\ (forall k, ~ In k slot_names -> inherited k = false ->
        obj_get slot_record k = VUndef)
  /\ (forall k, inherited k = true -> obj_get slot_record k = VNative k)
  /\ (forall w c args resp json symbols v0 v1 v2 k0 k1 k2,
        stored_cookie w = Some c ->
        loose_eq_str c "unknown" = Some false ->
        let amount := parseFloat (nth 0 args "0.01"%string) in
        let r := {| url := "https://rugplay.com/api/gambling/slots";
                    method := "POST"; headers := request_headers c;
                    body := json_body (VObj [("amount", VNum amount)]) |} in
        server w (calls (trace w)) r = Respond resp ->
        ok resp = true ->
        JSON.parse (text resp) = Some json ->
        get_prop json "symbols" = Some symbols ->
        get_index symbols 0 = Some v0 -> to_string v0 = Some k0 ->
        get_index symbols 1 = Some v1 -> to_string v1 = Some k1 ->
        get_index symbols 2 = Some v2 -> to_string v2 = Some k2 ->
        cmd_slots args w =
        wager_result json amount
          (emits [Fetch r;
                  Log [Raw (obj_get slot_record k0);
                       Raw (obj_get slot_record k1);
                       Raw (obj_get slot_record k2)]] w)).
Proof.
  split; [repeat split; reflexivity |].
  split; [| split].
  - intros k N I. unfold obj_get. now rewrite (assoc_slot_miss k N), I.
  - intros k I. unfold obj_get.
    rewrite assoc_slot_miss, I; [reflexivity |].
    intros N. simpl in N.
    repeat (destruct N as [<- | N]; [discriminate I |]). contradiction.
  - intros w c args resp json symbols v0 v1 v2 k0 k1 k2 H E amount r
      Hs Hok Hj Hsym H0 T0 H1 T1 H2 T2.
    unfold cmd_slots.
    assert (Ha : or_default (fst (shift args)) "0.01" = nth 0 args "0.01"%string)
      by (destruct args; reflexivity).
    destruct (shift args) as [am rest]. cbn [fst] in Ha. rewrite Ha.
    fold amount.
    assert (A : api_req "gambling/slots" "POST"
                  (json_body (VObj [("amount", VNum amount)])) w
                = (Ok (Some resp), emit (Fetch r) w)).
    { rewrite (api_req_set _ _ _ _ _ H E). cbv zeta.
      cbn [append]. fold r. now rewrite Hs. }
    rewrite (bind_Ok _ _ _ _ _ A).
    unfold on_ok. rewrite Hok.
    run (json_of_Ok _ _ (emit (Fetch r) w) Hj).
    run (prop_Ok _ _ _ (emit (Fetch r) w) Hsym).
    run (index_Ok _ _ _ (emit (Fetch r) w) H0).
    run (splice_Ok _ _ (emit (Fetch r) w) T0).
    run (prop_Ok _ _ _ (emit (Fetch r) w) Hsym).
    run (index_Ok _ _ _ (emit (Fetch r) w) H1).
    run (splice_Ok _ _ (emit (Fetch r) w) T1).
    run (prop_Ok _ _ _ (emit (Fetch r) w) Hsym).
    run (index_Ok _ _ _ (emit (Fetch r) w) H2).
    run (splice_Ok _ _ (emit (Fetch r) w) T2).
    erewrite bind_Ok; [| apply console_log_Ok; reflexivity].
    rewrite !emit_is_emits, emits_emits. reflexivity.
Qed.

(** ** JSON text of a configuration *)

(** Reading back what [quote] wrote, character by character. *)
Lemma string_body_quote (s rest : string) :
  JSON.string_body (JSON.quote_chars s ++ String dquote rest)%string
  = Some (s, rest).
Proof.
  induction s as [| a s IH]; [reflexivity |].
  cbn [JSON.quote_chars]. rewrite append_assoc.
  destruct a as [[] [] [] [] [] [] [] []];
    cbn; rewrite IH; reflexivity.
Qed.

Lemma stringify_config c :
  JSON.stringify (VObj [("cookie", VStr c)]) = Some (config_text c).
Proof. unfold config_text. cbn. now rewrite append_nil_r. Qed.

Lemma parse_value_config f c :
  JSON.parse_value (S (S f)) (config_text c)
  = Some (VObj [("cookie", VStr c)], EmptyString).
Proof.
  assert (T : config_text c
              = ("{" ++ JSON.quote "cookie" ++ ":"
                 ++ String dquote
                      (JSON.quote_chars c ++ String dquote "}"))%string).
  { unfold config_text, JSON.quote. cbn [append].
    now rewrite (append_assoc (JSON.quote_chars c)). }
  rewrite T. clear T.
  pose proof (string_body_quote c "}") as B.
  remember (JSON.quote_chars c ++ String dquote "}")%string as body.
  clear Heqbody.
  change (JSON.parse_value (S (S f)))
    with (fun s => JSON.parse_value (S (S f)) s).
  cbv beta. unfold JSON.parse_value at 1. fold JSON.parse_value.
  cbn -[JSON.parse_value].
  unfold JSON.parse_value at 1. fold JSON.parse_value.
  cbn -[JSON.parse_value]. rewrite B. reflexivity.
Qed.

Lemma parse_config_text c :
  JSON.parse (config_text c) = Some (VObj [("cookie", VStr c)]).
Proof.
  unfold JSON.parse.
  assert (L : exists f, String.length (config_text c) = S f).
  { unfold config_text. cbn [append String.length]. eauto. }
  destruct L as [f ->]. now rewrite parse_value_config.
Qed.

(** ** Configuration file *)

Lemma lookup_store p e fs : lookup_file p (store_file p e fs) = Some e.
Proof.
  induction fs as [| [q0 e0] fs IH]; simpl.
  - now rewrite String.eqb_refl.
  - destruct (String.eqb p q0) eqn:E; simpl.
    + now rewrite String.eqb_refl.
    + now rewrite E.
Qed.

Lemma readConfig_Ok w e v :
  lookup_file (config_path w) (files w) = Some e ->
  readable w (config_path w) = true ->
  JSON.parse (content e) = Some v ->
  readConfig w = (Ok v, w).
Proof.
  intros L R P. unfold readConfig, getConfigPath, bind, get, ret,
    readTextFileSync. rewrite L, R, P. reflexivity.
Qed.

Lemma readConfig_fails w :
  config_unusable w -> exists err, readConfig w = (Throw err, w).
Proof.
  unfold config_unusable, readConfig, getConfigPath, bind, get, ret,
    readTextFileSync.
  destruct (lookup_file (config_path w) (files w)) as [e |].
  - intros [R | P].
    + rewrite R. eexists. reflexivity.
    + destruct (readable w (config_path w)); [rewrite P |];
        eexists; reflexivity.
  - intros _. eexists. reflexivity.
Qed.

Lemma writeConfig_Ok cfg t w :
  can_save w = true ->
  JSON.stringify cfg = Some t ->
  exists w', writeConfig cfg w = (Ok tt, w') /\ saved t w w'.
Proof.
  unfold can_save. intros C T.
  apply andb_prop in C as [Wp C].
  unfold writeConfig. unfold bind at 1. unfold getConfigPath, bind at 1.
  cbn [get ret]. rewrite T.
  unfold bind, try_catch, statSync, mkdirSync, writeTextFileSync, ret.
  destruct (is_dir (path_dirname (config_path w)) w) eqn:D.
  - destruct (lookup_file (path_dirname (config_path w)) (files w));
      rewrite D; cbn [negb]; rewrite Wp;
      (eexists; split; [reflexivity |]);
      repeat split; cbn; apply lookup_store.
  - cbn [orb] in C. apply andb_prop in C as [L Wd].
    destruct (lookup_file (path_dirname (config_path w)) (files w));
      [discriminate |].
    rewrite Wd.
    assert (D' : is_dir (path_dirname (config_path w))
                   (set_dirs (path_dirname (config_path w) :: dirs w) w)
                 = true).
    { unfold is_dir. cbn. now rewrite String.eqb_refl. }
    rewrite ?D. cbv beta iota. rewrite D'. cbn [negb].
    change (writable (set_dirs (path_dirname (config_path w) :: dirs w) w))
      with (writable w).
    rewrite Wp.
    eexists; split; [reflexivity |].
    repeat split; cbn; apply lookup_store.
Qed.


(** The world once [writeConfig] has looked for the directory of the
    file and tried to make it. *)
Lemma writeConfig_steps cfg w :
  exists w1,
    writeConfig cfg w =
    match JSON.stringify cfg with
    | Some t => writeTextFileSync (config_path w) t w1
    | None => (Throw TypeError, w1)
    end
    /\ config w1 = config w /\ trace w1 = trace w /\ files w1 = files w
    /\ clock w1 = clock w
    /\ dirs w1 = made_dirs w.
Proof.
  unfold writeConfig, getConfigPath. unfold bind at 1. unfold bind at 1.
  cbn [get ret]. unfold bind at 1.
  set (d := path_dirname (config_path w)).
  assert (E : exists w1,
            try_catch (statSync d;; ret tt)
              (fun _ => try_catch (mkdirSync d) (fun _ => ret tt)) w
            = (Ok tt, w1)
            /\ config w1 = config w /\ trace w1 = trace w
            /\ files w1 = files w /\ clock w1 = clock w
            /\ dirs w1 = made_dirs w).
  { unfold made_dirs. fold d.
    unfold try_catch, bind, statSync, mkdirSync, ret.
    destruct (lookup_file d (files w));
      [exists w; repeat split |].
    destruct (is_dir d w) eqn:D; [exists w; repeat split |].
    cbv beta iota. rewrite D.
    destruct (writable w d); eexists; repeat split. }
  destruct E as (w1 & -> & H). exists w1. split; [| exact H].
  destruct (JSON.stringify cfg); reflexivity.
Qed.

Lemma writeConfig_frame cfg w :
  config (snd (writeConfig cfg w)) = config w
  /\ trace (snd (writeConfig cfg w)) = trace w.
Proof.
  destruct (writeConfig_steps cfg w) as (w1 & -> & Hc & Ht & _).
  destruct (JSON.stringify cfg) as [t |]; [| now split].
  unfold writeTextFileSync.
  destruct (negb _); [now split |].
  destruct (writable w1 _); now split.
Qed.

Lemma startup_reads w e fields :
  lookup_file (config_path w) (files w) = Some e ->
  readable w (config_path w) = true ->
  JSON.parse (content e) = Some (VObj fields) ->
  startup w = (Ok tt, set_config (VObj fields) w).
Proof.
  intros L R P. unfold startup, bind at 1. cbn [modify].
  unfold try_catch, bind.
  rewrite (readConfig_Ok (set_config default_config w) e (VObj fields) L R P).
  reflexivity.
Qed.

(** C3, as the code has it.  When the configuration file holds JSON
    with a string field [cookie], the start of the script takes the
    parsed object, cookie unchanged, and prints and writes nothing.
    When the file is missing, unreadable or not JSON, the start reports
    the failure in three lines and keeps the default with the sentinel
    cookie, whatever becomes of the write; when the file system accepts
    the write, it writes that default to the file and goes on. *)
Theorem startup_config (w : World) :
  (forall e fields c,
     lookup_file (config_path w) (files w) = Some e ->
     readable w (config_path w) = true ->
     JSON.parse (content e) = Some (VObj fields) ->
     assoc "cookie" fields = Some (VStr c) ->
     startup w = (Ok tt, set_config (VObj fields) w)
     /\ stored_cookie (set_config (VObj fields) w) = Some (VStr c))
  /\ (config_unusable w ->
      exists err,
        config (snd (startup w)) = VObj [("cookie", VStr "unknown")]
        /\ stored_cookie (snd (startup w)) = Some (VStr "unknown")
        /\ trace (snd (startup w)) =
           trace w
           ++ [ Log [Tpl [Txt "Couldn't read configuration file:"]];
                Log [RawError err];
                Log [Tpl [Txt "Wrote default file."]] ]
        /\ (can_save w = true ->
            fst (startup w) = Ok tt
            /\ lookup_file (config_path w) (files (snd (startup w)))
               = Some {| content :=
                           "{" ++ quoted "cookie" ++ ":" ++ quoted "unknown"
                           ++ "}";
                         mtime := Some (clock w) |}
            /\ JSON.parse ("{" ++ quoted "cookie" ++ ":" ++ quoted "unknown"
                           ++ "}")
               = Some (VObj [("cookie", VStr "unknown")]))).
Proof.
  split.
  - intros e fields c L R P A. split.
    + now apply startup_reads with e.
    + unfold stored_cookie, get_prop, obj_get. cbn [config set_config].
      now rewrite A.
  - intros U.
    destruct (readConfig_fails (set_config default_config w) U) as [err F].
    set (w3 := emits [ Log [Tpl [Txt "Couldn't read configuration file:"]];
                       Log [RawError err];
                       Log [Tpl [Txt "Wrote default file."]] ]
                 (set_config default_config w)).
    assert (S : startup w = writeConfig default_config w3).
    { unfold startup, bind at 1. cbn [modify].
      unfold try_catch. unfold bind at 1. rewrite F.
      do 3 (erewrite bind_Ok; [| apply console_log_Ok; reflexivity]).
      rewrite !emit_is_emits, !emits_emits. cbn [app].
      unfold bind at 1. cbn [get]. reflexivity. }
    exists err. rewrite S.
    destruct (writeConfig_frame default_config w3) as (Hc & Ht).
    split; [now rewrite Hc |].
    split; [unfold stored_cookie; now rewrite Hc |].
    split; [now rewrite Ht |].
    intros C.
    destruct (writeConfig_Ok default_config (config_text "unknown") w3 C
                (stringify_config "unknown"))
      as (w' & Hw & Hf & _).
    rewrite Hw. split; [reflexivity |].
    split; [exact Hf |]. exact (parse_config_text "unknown").
Qed.

(** C4.  For every cookie string, a configuration saved with it and
    loaded again holds the same cookie: [readConfig] returns the object
    that [writeConfig] wrote, and the next start of the script has that
    cookie.  In particular [set-cookie] with the tokens of a cookie,
    then a restart, gives the tokens joined by single spaces.  The file
    system has to accept the write and allow the read. *)
Theorem save_load_roundtrip (w : World) (c : string) :
  can_save w = true ->
  readable w (config_path w) = true ->
  (exists w1,
     writeConfig (VObj [("cookie", VStr c)]) w = (Ok tt, w1)
     /\ readConfig w1 = (Ok (VObj [("cookie", VStr c)]), w1)
     /\ exists w2, startup w1 = (Ok tt, w2)
                   /\ stored_cookie w2 = Some (VStr c))
  /\ (forall old rest,
        config w = VObj [("cookie", old)] ->
        exists w1,
          cmd_set_cookie (c :: rest) w = (Ok tt, w1)
          /\ exists w2, startup w1 = (Ok tt, w2)
                        /\ stored_cookie w2
                           = Some (VStr (append_rest c rest))).
Proof.
  intros C R.
  assert (reload : forall t w0 w1,
            saved (config_text t) w0 w1 ->
            readable w0 (config_path w0) = true ->
            readConfig w1 = (Ok (VObj [("cookie", VStr t)]), w1)
            /\ exists w2, startup w1 = (Ok tt, w2)
                          /\ stored_cookie w2 = Some (VStr t)).
  { intros t w0 w1 (Hf & _ & He & _ & Hr & _) R0.
    assert (P : config_path w1 = config_path w0)
      by (unfold config_path; now rewrite He).
    assert (L : lookup_file (config_path w1) (files w1)
                = Some {| content := config_text t;
                          mtime := Some (clock w0) |})
      by now rewrite P.
    assert (R1 : readable w1 (config_path w1) = true)
      by now rewrite Hr, P.
    split.
    - apply (readConfig_Ok w1 _ _ L R1). apply parse_config_text.
    - eexists. split.
      + apply (startup_reads w1 _ [("cookie", VStr t)] L R1).
        apply parse_config_text.
      + reflexivity. }
  split.
  - destruct (writeConfig_Ok _ _ w C (stringify_config c)) as (w1 & Hw & S).
    exists w1. split; [exact Hw |]. now apply (reload c w w1).
  - intros old rest Hcfg.
    set (line := Log [Tpl [Txt "Set cookie ";
                           Chalk green_bright [Txt "successfully"];
                           Txt "."]]).
    set (w' := emit line
                 (set_config (VObj [("cookie", VStr (append_rest c rest))]) w)).
    destruct (writeConfig_Ok _ _ w' C (stringify_config (append_rest c rest)))
      as (w1 & Hw & S).
    exists w1. split.
    + unfold cmd_set_cookie, set_config_cookie.
      unfold bind at 1. unfold bind at 1. cbn [get]. rewrite Hcfg.
      cbn [assoc_set String.eqb Ascii.eqb Bool.eqb modify].
      erewrite bind_Ok; [| apply log_Ok; reflexivity].
      unfold bind at 1. cbn [get]. exact Hw.
    + now apply (reload (append_rest c rest) w' w1).
Qed.

(** ** The loop of [invest] *)

Lemma ltb_of_Z x y : Num.ltb (of_Z x) (of_Z y) = (x <? y)%Z.
Proof.
  unfold Num.ltb, Num.gtb, of_Z, Qcompare. simpl.
  rewrite !Z.mul_1_r, Z.ltb_compare, (Z.compare_antisym y x).
  destruct (y ?= x)%Z; reflexivity.
Qed.

Lemma ltb_counter i n : Num.ltb (counter i) (of_Z n) = (Z.of_nat i <? n)%Z.
Proof. apply ltb_of_Z. Qed.


(** Below [2^53] the counter counts. *)
Lemma counter_next i :
  (Z.of_nat i < 2 ^ 53)%Z -> Num.add (counter i) (of_Z 1) = counter (S i).
Proof.
  intros H. unfold counter. rewrite add_one by lia.
  f_equal. lia.
Qed.

Lemma Qceiling_inject_Z z : Qceiling (inject_Z z) = z.
Proof. unfold Qceiling. rewrite <- inject_Z_opp, Qfloor_Z. lia. Qed.



Section Invest.

Variables (w : World) (c : value) (json coins : value).
Variables (symv : nat -> value) (sym : nat -> string).
Variables (amount : number) (n : Z).

Hypothesis Hc : stored_cookie w = Some c.
Hypothesis Hset : loose_eq_str c "unknown" = Some false.
Hypothesis Hcoins : get_prop json "coins" = Some coins.
Hypothesis Hsym :
  forall i, (Z.of_nat i < n)%Z ->
    exists ci, get_index coins i = Some ci
               /\ get_prop ci "symbol" = Some (symv i)
               /\ to_string (symv i) = Some (sym i).
Hypothesis Hn : (n <= 2 ^ 53)%Z.









End Invest.

(** ** The fuel of the loop is enough *)

Lemma answered_ret {A} (a : A) : answered (ret a).
Proof. intros w. discriminate. Qed.

Lemma answered_throw {A} e : answered (@throw A e).
Proof. intros w. discriminate. Qed.

Lemma answered_typed {A} (o : option A) : answered (typed o).
Proof. destruct o; [apply answered_ret | apply answered_throw]. Qed.

Lemma answered_bind {A B} (m : M A) (k : A -> M B) :
  answered m -> (forall a, answered (k a)) -> answered (bind m k).
Proof.
  intros Hm Hk w. unfold bind. specialize (Hm w).
  destruct (m w) as [[a | e |] w1]; simpl in *;
    [apply Hk | discriminate | congruence].
Qed.

Lemma answered_console_log args : answered (console_log args).
Proof.
  intros w. unfold console_log. destruct (forallb arg_ok args); discriminate.
Qed.

Lemma answered_config_cookie : answered config_cookie.
Proof.
  unfold config_cookie. apply answered_bind.
  - intros w. discriminate.
  - intros w. apply answered_typed.
Qed.

Lemma answered_fetch r : answered (fetch r).
Proof. intros w. unfold fetch. destruct (server w _ _); discriminate. Qed.

Lemma answered_api_req api method body : answered (api_req api method body).
Proof.
  unfold api_req.
  apply answered_bind; [apply answered_config_cookie |]. intros cookie.
  apply answered_bind; [apply answered_typed |]. intros unknown.
  destruct unknown.
  - apply answered_bind; [apply answered_console_log |].
    intros _. apply answered_ret.
  - apply answered_bind; [apply answered_config_cookie |]. intros cookie'.
    apply answered_bind; [apply answered_fetch |].
    intros r. apply answered_ret.
Qed.

Lemma answered_api_error a : answered (api_error a).
Proof.
  unfold api_error.
  apply answered_bind; [| intros _]; apply answered_console_log.
Qed.

Lemma invest_loop_S fuel json amount limit i :
  invest_loop (S fuel) json amount limit i =
  if Num.ltb i limit then
    coins <- prop json "coins" ;;
    c <- index coins (index_of i) ;;
    symbol <- prop c "symbol" ;;
    s <- splice symbol ;;
    a <- api_req ("coin/" ++ s ++ "/trade") "POST"
           (json_body (VObj [("type", VStr "BUY");
                             ("amount", VNum amount)])) ;;
    on_ok a (fun _ =>
      log [Txt " Invested in "; Chalk bg_white [Str symbol]; Txt " (-";
           Chalk red_bright [Str (VNum amount)]; Txt ")"] ;;
      invest_loop fuel json amount limit (Num.add i (of_Z 1)))
  else ret tt.
Proof. reflexivity. Qed.

(** With a limit [n] of at most [2^53], one round more than the rounds
    that are left is fuel enough. *)
Lemma invest_loop_answered json amount n :
  (n <= 2 ^ 53)%Z ->
  forall fuel i,
    (Z.to_nat n <= i + fuel)%nat ->
    answered (invest_loop (S fuel) json amount (of_Z n) (counter i)).
Proof.
  intros Hn.
  induction fuel as [| fuel IH]; intros i Hf; rewrite invest_loop_S;
    rewrite ltb_counter; destruct (Z.ltb_spec (Z.of_nat i) n) as [Hi | Hi];
    try apply answered_ret.
  - exfalso. lia.
  - rewrite counter_next by lia.
    apply answered_bind; [apply answered_typed |]. intros coins.
    apply answered_bind; [apply answered_typed |]. intros ci.
    apply answered_bind; [apply answered_typed |]. intros symbol.
    apply answered_bind; [apply answered_typed |]. intros t.
    apply answered_bind; [apply answered_api_req |]. intros r.
    unfold on_ok. destruct r as [r |]; [| apply answered_ret].
    destruct (ok r); [| apply answered_api_error].
    apply answered_bind; [apply answered_console_log |].
    intros _. apply IH. lia.
Qed.

(** [invest] with a count that is an integer of at most [2^53] always
    gets its answer from the model: the loop never runs out of fuel. *)
Lemma cmd_invest_answered sb sa rest n :
  Num.floor (Num.div (parseFloat sb) (parseFloat sa)) = of_Z n ->
  (n <= 2 ^ 53)%Z ->
  answered (cmd_invest (sb :: sa :: rest)).
Proof.
  intros Hl Hn. unfold cmd_invest. rewrite Hl.
  destruct (isNaN (parseFloat sb)); [apply answered_ret |].
  destruct (isNaN (parseFloat sa)); [apply answered_ret |].
  apply answered_bind; [apply answered_api_req |].
  intros a. unfold on_ok. destruct a as [r |]; [| apply answered_ret].
  destruct (ok r); [| apply answered_api_error].
  apply answered_bind.
  { unfold json_of. destruct (JSON.parse (text r));
      [apply answered_ret | apply answered_throw]. }
  intros json. apply answered_bind; [apply answered_console_log |].
  intros _. unfold invest_fuel, of_Z. rewrite Qceiling_inject_Z.
  apply (invest_loop_answered json (parseFloat sa) n Hn _ 0%nat). lia.
Qed.



(** ** Relations that every step keeps *)

Lemma keeps_ret R (F : Frame R) {A} (a : A) : keeps R (ret a).
Proof. intros w. apply (rel_refl R F). Qed.

Lemma keeps_throw R (F : Frame R) {A} e : keeps R (@throw A e).
Proof. intros w. apply (rel_refl R F). Qed.

Lemma keeps_stuck R (F : Frame R) {A} : keeps R (@stuck A).
Proof. intros w. apply (rel_refl R F). Qed.

Lemma keeps_get R (F : Frame R) : keeps R get.
Proof. intros w. apply (rel_refl R F). Qed.

Lemma keeps_typed R (F : Frame R) {A} (o : option A) : keeps R (typed o).
Proof. destruct o; [now apply keeps_ret | now apply keeps_throw]. Qed.

Lemma keeps_bind R (F : Frame R) {A B} (m : M A) (k : A -> M B) :
  keeps R m -> (forall a, keeps R (k a)) -> keeps R (bind m k).
Proof.
  intros Hm Hk w. unfold bind. specialize (Hm w).
  destruct (m w) as [[a | e |] w1]; simpl in *; trivial.
  eapply (rel_trans R F); [eassumption | apply Hk].
Qed.

Lemma keeps_try_catch R (F : Frame R) {A} (m : M A) (h : error -> M A) :
  keeps R m -> (forall e, keeps R (h e)) -> keeps R (try_catch m h).
Proof.
  intros Hm Hh w. unfold try_catch. specialize (Hm w).
  destruct (m w) as [[a | e |] w1]; simpl in *; trivial.
  eapply (rel_trans R F); [eassumption | apply Hh].
Qed.

Lemma keeps_for_each R (F : Frame R) {A} (l : list A) (f : A -> M unit) :
  (forall a, keeps R (f a)) -> keeps R (for_each l f).
Proof.
  intros Hf. induction l as [| x l IH]; simpl.
  - now apply keeps_ret.
  - apply keeps_bind; [exact F | apply Hf | intros _; apply IH].
Qed.

Lemma keeps_console_log R (F : Frame R) args : keeps R (console_log args).
Proof.
  intros w. unfold console_log.
  destruct (forallb arg_ok args); [apply (rel_log R F) | apply (rel_refl R F)].
Qed.

Lemma keeps_readTextFileSync R (F : Frame R) p : keeps R (readTextFileSync p).
Proof.
  intros w. unfold readTextFileSync.
  destruct (lookup_file p (files w)); [destruct (readable w p) |];
    apply (rel_refl R F).
Qed.

Lemma keeps_statSync R (F : Frame R) p : keeps R (statSync p).
Proof.
  intros w. unfold statSync.
  destruct (lookup_file p (files w)); [| destruct (is_dir p w)];
    apply (rel_refl R F).
Qed.

Create HintDb keep.
#[local] Hint Resolve site_frame keeps_ret keeps_throw keeps_stuck keeps_get
  keeps_typed keeps_console_log keeps_readTextFileSync keeps_statSync : keep.

(** Splitting a computation along its sequencing and its branches. *)
Ltac keep :=
  repeat first
    [ progress auto with keep
    | apply keeps_bind; [| | intros ]
    | apply keeps_try_catch; [| | intros ]
    | apply keeps_for_each; [| intros ]
    | match goal with
      | |- keeps _ (match ?x with _ => _ end) => destruct x
      | |- keeps _ (if ?b then _ else _) => destruct b
      end ].

Lemma keeps_config_cookie R (F : Frame R) : keeps R config_cookie.
Proof. unfold config_cookie. keep. Qed.

Lemma keeps_api_error R (F : Frame R) a : keeps R (api_error a).
Proof. unfold api_error. keep. Qed.

Lemma keeps_json_of R (F : Frame R) a : keeps R (json_of a).
Proof. unfold json_of. keep. Qed.

Lemma keeps_mk_file R (F : Frame R) p : keeps R (mk_file p).
Proof. unfold mk_file. keep. Qed.

Lemma keeps_prop R (F : Frame R) v k : keeps R (prop v k).
Proof. unfold prop. keep. Qed.
#[local] Hint Resolve keeps_config_cookie keeps_api_error keeps_json_of
  keeps_mk_file keeps_prop : keep.

Lemma keeps_props R (F : Frame R) ks : forall v, keeps R (props v ks).
Proof. induction ks; intros v; simpl; keep. Qed.

Lemma keeps_index R (F : Frame R) v i : keeps R (index v i).
Proof. unfold index. keep. Qed.

Lemma keeps_splice R (F : Frame R) v : keeps R (splice v).
Proof. unfold splice. keep. Qed.

Lemma keeps_round3 R (F : Frame R) v : keeps R (round3 v).
Proof. unfold round3. keep. Qed.

Lemma keeps_floor3 R (F : Frame R) v : keeps R (floor3 v).
Proof. unfold floor3. keep. Qed.

Lemma keeps_floor0 R (F : Frame R) v : keeps R (floor0 v).
Proof. unfold floor0. keep. Qed.

Lemma keeps_log R (F : Frame R) d : keeps R (log d).
Proof. unfold log. keep. Qed.
#[local] Hint Resolve keeps_props keeps_index keeps_splice keeps_round3
  keeps_floor3 keeps_floor0 keeps_log : keep.

Lemma keeps_on_ok R (F : Frame R) a k :
  (forall r, keeps R (k r)) -> keeps R (on_ok a k).
Proof. intros H. unfold on_ok. keep. Qed.

Lemma keeps_dayChange R (F : Frame R) v : keeps R (dayChange v).
Proof. unfold dayChange. keep. Qed.

Lemma keeps_profile_field R (F : Frame R) u i : keeps R (profile_field u i).
Proof. unfold profile_field. keep. Qed.
#[local] Hint Resolve keeps_dayChange keeps_profile_field : keep.

Lemma keeps_wager_result R (F : Frame R) json amount :
  keeps R (wager_result json amount).
Proof. unfold wager_result. keep. Qed.

Lemma keeps_summary_lines R (F : Frame R) json : keeps R (summary_lines json).
Proof. unfold summary_lines. keep. Qed.

Lemma keeps_print_notifications R (F : Frame R) json read :
  keeps R (print_notifications json read).
Proof. unfold print_notifications. keep. Qed.

Lemma keeps_market_table R (F : Frame R) page json :
  keeps R (market_table page json).
Proof. unfold market_table, market_row. keep. Qed.

Lemma keeps_view_user_profile R (F : Frame R) json :
  keeps R (view_user_profile json).
Proof. unfold view_user_profile. keep. Qed.

Lemma keeps_view_user_stats R (F : Frame R) json :
  keeps R (view_user_stats json).
Proof. unfold view_user_stats. keep. Qed.

Lemma keeps_view_user_tables R (F : Frame R) json :
  keeps R (view_user_tables json).
Proof. unfold view_user_tables, created_coin, recent_transaction. keep. Qed.

Lemma keeps_portfolio_totals R (F : Frame R) json :
  keeps R (portfolio_totals json).
Proof. unfold portfolio_totals. keep. Qed.
#[local] Hint Resolve keeps_portfolio_totals : keep.

Lemma keeps_holding_row R (F : Frame R) h : keeps R (holding_row h).
Proof. unfold holding_row. keep. Qed.

Lemma keeps_portfolio_transaction R (F : Frame R) t :
  keeps R (portfolio_transaction t).
Proof. unfold portfolio_transaction. keep. Qed.

Lemma keeps_cmd_commands R (F : Frame R) args : keeps R (cmd_commands args).
Proof.
  unfold cmd_commands. apply keeps_bind; [exact F | keep |]. intros _.
  apply keeps_for_each; [exact F |]. intros [[k a] d]. keep.
Qed.
#[local] Hint Resolve keeps_wager_result keeps_summary_lines
  keeps_print_notifications keeps_market_table keeps_view_user_profile
  keeps_view_user_stats keeps_view_user_tables keeps_holding_row
  keeps_portfolio_transaction keeps_cmd_commands : keep.

(** ** The requests of the script *)

Lemma keeps_fetch R (S : Site R) r w c :
  stored_cookie w = Some c -> on_site c r -> R w (snd (fetch r w)).
Proof.
  intros Hc Hr. unfold fetch.
  destruct (server w _ r); apply (site_fetch R S w c r Hc Hr).
Qed.

Lemma keeps_api_req R (S : Site R) api method body :
  method = "GET"%string \/ method = "POST"%string ->
  keeps R (api_req api method body).
Proof.
  intros Hm w. pose proof (site_frame R S) as F.
  unfold api_req, config_cookie. unfold bind at 1. unfold bind at 1.
  cbn [get]. unfold typed at 1.
  destruct (get_prop (config w) "cookie") as [c |] eqn:Hc;
    [| apply (rel_refl R F)].
  cbn [ret]. unfold bind at 1. unfold typed at 1.
  destruct (loose_eq_str c "unknown") as [[] |]; cbn [ret throw];
    [| | apply (rel_refl R F)].
  - apply keeps_bind; [exact F | now apply keeps_console_log |].
    intros _. now apply keeps_ret.
  - unfold bind at 1. unfold bind at 1. cbn [get]. rewrite Hc. cbn [typed ret].
    unfold bind.
    match goal with
    | |- context [fetch ?r w] =>
        assert (K : R w (snd (fetch r w)))
          by (apply (keeps_fetch R S r w c Hc); repeat split;
              [discriminate | exact Hm]);
        destruct (fetch r w) as [[resp | e |] w1]; exact K
    end.
Qed.

Lemma keeps_me R (S : Site R) : keeps R me.
Proof.
  intros w. pose proof (site_frame R S) as F.
  unfold me, config_cookie. unfold bind at 1. unfold bind at 1.
  cbn [get]. unfold typed at 1.
  destruct (get_prop (config w) "cookie") as [c |] eqn:Hc;
    [| apply (rel_refl R F)].
  cbn [ret]. unfold bind at 1.
  assert (K : R w (snd (fetch (me_request c) w)))
    by (apply (keeps_fetch R S _ w c Hc); repeat split;
        [discriminate | now left]).
  destruct (fetch (me_request c) w) as [[resp | e |] w1]; cbn [snd] in *;
    trivial.
  eapply (rel_trans R F); [exact K |].
  match goal with
  | |- R w1 (snd (?m w1)) =>
      assert (K' : keeps R m) by (destruct (negb (ok resp)); keep);
      apply K'
  end.
Qed.
#[local] Hint Resolve keeps_api_req keeps_me : keep.

(** ** The handlers keep every relation of the site *)

Ltac keep_handler :=
  repeat first
    [ apply keeps_on_ok; [| intros ]
    | progress keep ].

Lemma keeps_cmd_coinflip R (S : Site R) args : keeps R (cmd_coinflip args).
Proof.
  unfold cmd_coinflip. destruct (shift args) as [s r].
  destruct (shift r) as [am r']. keep_handler.
Qed.

Lemma keeps_cmd_slots R (S : Site R) args : keeps R (cmd_slots args).
Proof. unfold cmd_slots. destruct (shift args) as [am r]. keep_handler. Qed.

Lemma keeps_cmd_summary R (S : Site R) args : keeps R (cmd_summary args).
Proof. unfold cmd_summary. keep_handler. Qed.

Lemma keeps_cmd_redeem R (S : Site R) args : keeps R (cmd_redeem args).
Proof. unfold cmd_redeem. destruct (shift args) as [c r]. keep_handler. Qed.

Lemma keeps_cmd_new_coin R (S : Site R) args : keeps R (cmd_new_coin args).
Proof.
  unfold cmd_new_coin.
  destruct args as [| a [| b [| c [| d r]]]]; keep_handler.
Qed.

Lemma keeps_cmd_settings R (S : Site R) args : keeps R (cmd_settings args).
Proof.
  unfold cmd_settings.
  destruct args as [| a [| b [| c [| d r]]]]; keep_handler.
Qed.

Lemma keeps_cmd_me R (S : Site R) args : keeps R (cmd_me args).
Proof. unfold cmd_me. keep_handler. Qed.

Lemma keeps_cmd_daily_reward R (S : Site R) args :
  keeps R (cmd_daily_reward args).
Proof. unfold cmd_daily_reward. keep_handler. Qed.

Lemma keeps_cmd_notifications R (S : Site R) args :
  keeps R (cmd_notifications args).
Proof. unfold cmd_notifications. keep_handler. Qed.

Lemma keeps_invest_loop R (S : Site R) json amount limit :
  forall fuel i, keeps R (invest_loop fuel json amount limit i).
Proof.
  induction fuel as [| fuel IH]; intros i.
  - cbn [invest_loop]. keep.
  - rewrite invest_loop_S. keep_handler.
Qed.
#[local] Hint Resolve keeps_invest_loop : keep.

Lemma keeps_cmd_invest R (S : Site R) args : keeps R (cmd_invest args).
Proof.
  unfold cmd_invest. destruct args as [| sb [| sa r]]; keep_handler.
Qed.

Lemma keeps_cmd_view_user R (S : Site R) args : keeps R (cmd_view_user args).
Proof.
  unfold cmd_view_user. destruct args as [| u [| v r]]; keep_handler.
Qed.

Lemma keeps_cmd_market R (S : Site R) args : keeps R (cmd_market args).
Proof.
  unfold cmd_market. destruct (shift args) as [p r].
  destruct (shift r) as [i r']. keep_handler.
Qed.

Lemma keeps_trade R (S : Site R) type verb sign st args :
  keeps R (trade type verb sign st args).
Proof.
  unfold trade. destruct args as [| c [| a [| x r]]]; keep_handler.
Qed.

Lemma keeps_cmd_portfolio R (S : Site R) args : keeps R (cmd_portfolio args).
Proof. unfold cmd_portfolio. keep_handler. Qed.

(** ** The relations at hand *)

Lemma added_site : Site added.
Proof.
  split; [split |].
  - intros w. exists []. split; [now rewrite emits_nil | constructor].
  - intros w1 w2 w3 (a & -> & Ha) (b & -> & Hb). exists (a ++ b).
    split; [now rewrite emits_emits |].
    apply Forall_app. split; [exact Ha | exact Hb].
  - intros a w. exists [Log a]. split; [reflexivity |].
    constructor; [exact I | constructor].
  - intros w c r Hc Hr. exists [Fetch r]. split; [reflexivity |].
    constructor; [| constructor]. exists c. now split.
Qed.

Lemma offline_frame : Frame offline.
Proof.
  split.
  - intros w. exists []. split; [now rewrite app_nil_r | reflexivity].
  - intros w1 w2 w3 (a & Ha & Ca) (b & Hb & Cb). exists (a ++ b).
    split; [now rewrite Hb, Ha, app_assoc |].
    rewrite calls_app, Ca, Cb. reflexivity.
  - intros a w. exists [Log a]. split; reflexivity.
Qed.

Lemma session_site : Site session.
Proof.
  split; [split |].
  - intros w. exists []. split; [now rewrite app_nil_r | constructor].
  - intros w1 w2 w3 (a & Ha & Pa) (b & Hb & Pb). exists (a ++ b).
    split; [now rewrite Hb, Ha, app_assoc |].
    apply Forall_app. now split.
  - intros a w. exists [Log a]. split; [reflexivity |].
    constructor; [exact I | constructor].
  - intros w c r Hc Hr. exists [Fetch r]. split; [reflexivity |].
    constructor; [| constructor]. now exists c.
Qed.
#[local] Hint Resolve added_site offline_frame session_site : keep.

(** ** The registry, command by command *)

Lemma handler_keeps R (S : Site R) name f :
  handler name = Some f -> name <> "set-cookie"%string ->
  forall args, keeps R (f args).
Proof.
  intros Hf Hn args. unfold handler in Hf. cbn in Hf.
  repeat match type of Hf with
         | context [String.eqb name ?s] =>
             destruct (String.eqb_spec name s);
             [ injection Hf as <- | ]
         end;
    try discriminate; try (now elim Hn).
  - now apply keeps_cmd_commands; apply site_frame.
  - now apply keeps_cmd_coinflip.
  - now apply keeps_cmd_slots.
  - now apply keeps_cmd_summary.
  - now apply keeps_cmd_redeem.
  - now apply keeps_cmd_new_coin.
  - now apply keeps_cmd_settings.
  - now apply keeps_cmd_me.
  - now apply keeps_cmd_daily_reward.
  - now apply keeps_cmd_notifications.
  - now apply keeps_cmd_invest.
  - now apply keeps_cmd_view_user.
  - now apply keeps_cmd_market.
  - now apply keeps_trade.
  - now apply keeps_trade.
  - now apply keeps_cmd_portfolio.
Qed.

(** ** Steps that change the configuration or the files *)

Lemma offline_on_trace : on_trace offline.
Proof.
  intros w w' H. exists []. split; [now rewrite app_nil_r | reflexivity].
Qed.

Lemma session_on_trace : on_trace session.
Proof.
  intros w w' H. exists []. split; [now rewrite app_nil_r | constructor].
Qed.
#[local] Hint Resolve offline_on_trace session_on_trace : keep.

Lemma keeps_modify_config R (T : on_trace R) c :
  keeps R (modify (set_config c)).
Proof. intros w. now apply T. Qed.

Lemma keeps_mkdirSync R (T : on_trace R) p : keeps R (mkdirSync p).
Proof.
  intros w. apply T. unfold mkdirSync.
  destruct (is_dir p w); [| destruct (writable w p)]; reflexivity.
Qed.

Lemma keeps_writeTextFileSync R (T : on_trace R) p t :
  keeps R (writeTextFileSync p t).
Proof.
  intros w. apply T. unfold writeTextFileSync.
  destruct (negb _); [| destruct (writable w p)]; reflexivity.
Qed.
#[local] Hint Resolve keeps_modify_config keeps_mkdirSync
  keeps_writeTextFileSync : keep.

Lemma keeps_getConfigPath R (F : Frame R) : keeps R getConfigPath.
Proof. unfold getConfigPath. keep. Qed.
#[local] Hint Resolve keeps_getConfigPath : keep.

Lemma keeps_readConfig R (F : Frame R) : keeps R readConfig.
Proof. unfold readConfig. keep. Qed.

Lemma keeps_writeConfig R (F : Frame R) (T : on_trace R) c :
  keeps R (writeConfig c).
Proof. unfold writeConfig. keep. Qed.

Lemma keeps_set_config_cookie R (F : Frame R) (T : on_trace R) c :
  keeps R (set_config_cookie c).
Proof. unfold set_config_cookie. keep. Qed.
#[local] Hint Resolve keeps_readConfig keeps_writeConfig
  keeps_set_config_cookie : keep.

Lemma keeps_cmd_set_cookie R (F : Frame R) (T : on_trace R) args :
  keeps R (cmd_set_cookie args).
Proof. unfold cmd_set_cookie. keep. Qed.

Lemma keeps_startup R (F : Frame R) (T : on_trace R) : keeps R startup.
Proof. unfold startup. keep. Qed.

Lemma registry_keeps R (S : Site R) (T : on_trace R) name c :
  commands_get name commands = Some c ->
  forall args, keeps R (callback c args).
Proof.
  intros H args. destruct (String.eqb_spec name "set-cookie") as [-> | N].
  - cbn in H. injection H as <-. cbn [callback].
    apply keeps_cmd_set_cookie; [now apply site_frame | exact T].
  - apply (handler_keeps R S name); [| exact N].
    unfold handler. now rewrite H.
Qed.

Lemma keeps_repl_step R (S : Site R) (T : on_trace R) line :
  keeps R (repl_step line).
Proof.
  unfold repl_step. destruct (split_on " " line) as [| name rest].
  - apply keeps_ret. now apply site_frame.
  - destruct (commands_get name commands) as [c |] eqn:E.
    + now apply (registry_keeps R S T name).
    + apply keeps_console_log. now apply site_frame.
Qed.

Lemma keeps_repl R (S : Site R) (T : on_trace R) input :
  keeps R (repl input).
Proof.
  pose proof (site_frame R S) as F.
  induction input as [| line rest IH]; cbn [repl].
  - now apply keeps_ret.
  - apply keeps_bind; [exact F | now apply keeps_repl_step |].
    intros _. exact IH.
Qed.

Lemma keeps_main R (S : Site R) (T : on_trace R) input :
  keeps R (main input).
Proof.
  pose proof (site_frame R S) as F. unfold main.
  apply keeps_bind; [exact F | now apply keeps_startup |]. intros _.
  apply keeps_bind; [exact F | now apply keeps_log |]. intros _.
  apply keeps_bind; [exact F | now apply keeps_cmd_commands |]. intros _.
  now apply keeps_repl.
Qed.

Lemma no_call_no_fetch es r : calls es = 0%nat -> ~ In (Fetch r) es.
Proof.
  unfold calls, fetches. intros H Hin.
  assert (Hf : In (Fetch r) (filter is_fetch es))
    by (apply filter_In; now split).
  destruct (filter is_fetch es); [contradiction | discriminate].
Qed.

(** ** Counting the events of a kind *)

Lemma filter_length_le {A} (f : A -> bool) (l : list A) :
  (List.length (filter f l) <= List.length l)%nat.
Proof.
  induction l as [| x l IH]; simpl; [lia |].
  destruct (f x); simpl; lia.
Qed.

Lemma bounded_weaken f n n' {A} (m : M A) :
  (n <= n')%nat -> bounded f n m -> bounded f n' m.
Proof.
  intros Hn H w. destruct (H w) as (es & He & Hc).
  exists es. split; [exact He | lia].
Qed.

Lemma bounded_bind f a b {A B} (m : M A) (k : A -> M B) :
  bounded f a m -> (forall x, bounded f b (k x)) ->
  bounded f (a + b) (bind m k).
Proof.
  intros Hm Hk w. unfold bind. destruct (Hm w) as (es & He & Hc).
  destruct (m w) as [[x | e |] w1]; cbn [snd] in *;
    try (exists es; split; [exact He | lia]).
  destruct (Hk x w1) as (es' & He' & Hc'). exists (es ++ es').
  split; [now rewrite He', He, app_assoc |].
  rewrite filter_app, length_app. lia.
Qed.

(** What makes no network call adds no event of a kind of call. *)
Lemma bounded_offline f {A} (m : M A) :
  (forall e, f e = true -> is_fetch e = true) ->
  keeps offline m -> bounded f 0 m.
Proof.
  intros Hf H w. destruct (H w) as (es & He & Hc).
  exists es. split; [exact He |].
  unfold calls, fetches in Hc.
  assert (N : filter f es = []).
  { clear He. induction es as [| e es IH]; [reflexivity |].
    cbn [filter] in *. destruct (is_fetch e) eqn:E; [discriminate |].
    destruct (f e) eqn:E'; [| now apply IH].
    apply Hf in E'. congruence. }
  now rewrite N.
Qed.

Lemma bounded_fetch f r : bounded f 1 (fetch r).
Proof.
  intros w. exists [Fetch r]. split.
  - unfold fetch. destruct (server w _ r); reflexivity.
  - apply (filter_length_le f [Fetch r]).
Qed.

Lemma bounded_api_req f api method body :
  bounded f 1 (api_req api method body).
Proof.
  intros w. unfold api_req, config_cookie. unfold bind at 1. unfold bind at 1.
  cbn [get]. unfold typed at 1.
  destruct (get_prop (config w) "cookie") as [c |] eqn:Hc;
    [| exists []; split; [now rewrite app_nil_r | cbn; lia]].
  cbn [ret]. unfold bind at 1. unfold typed at 1.
  destruct (loose_eq_str c "unknown") as [[] |]; cbn [ret throw];
    [| | exists []; split; [now rewrite app_nil_r | cbn; lia]].
  - exists [Log unauthenticated]. split; [reflexivity |].
    apply (filter_length_le f [Log unauthenticated]).
  - unfold bind at 1. unfold bind at 1. cbn [get]. rewrite Hc. cbn [typed ret].
    unfold bind.
    match goal with
    | |- context [fetch ?r w] =>
        destruct (bounded_fetch f r w) as (es & He & Hn);
        destruct (fetch r w) as [[resp | e |] w1]; exists es; now split
    end.
Qed.


Lemma fetch_is_fetch e : is_fetch e = true -> is_fetch e = true.
Proof. trivial. Qed.


Lemma bounded_me f :
  (forall e, f e = true -> is_fetch e = true) -> bounded f 1 me.
Proof.
  intros Hf. unfold me.
  apply (bounded_bind f 0 1); [apply bounded_offline; [exact Hf | keep] |].
  intros cookie.
  apply (bounded_bind f 1 0); [apply bounded_fetch |].
  intros req. apply bounded_offline; [exact Hf | keep].
Qed.

(** One Gateway call, then no other. *)
Lemma bounded_call f api method body (k : option Response -> M unit) :
  (forall e, f e = true -> is_fetch e = true) ->
  (forall a, keeps offline (k a)) ->
  bounded f 1 (a <- api_req api method body ;; k a).
Proof.
  intros Hf Hk. apply (bounded_bind f 1 0); [apply bounded_api_req |].
  intros a. now apply bounded_offline.
Qed.

Lemma bounded_cmd_coinflip args : bounded is_fetch 1 (cmd_coinflip args).
Proof.
  unfold cmd_coinflip. destruct (shift args) as [s r].
  destruct (shift r) as [am r'].
  apply bounded_call; [exact fetch_is_fetch | intros a; keep_handler].
Qed.

Lemma bounded_cmd_slots args : bounded is_fetch 1 (cmd_slots args).
Proof.
  unfold cmd_slots. destruct (shift args) as [am r].
  apply bounded_call; [exact fetch_is_fetch | intros a; keep_handler].
Qed.

Lemma bounded_cmd_summary args : bounded is_fetch 1 (cmd_summary args).
Proof.
  unfold cmd_summary.
  apply bounded_call; [exact fetch_is_fetch | intros a; keep_handler].
Qed.

Lemma bounded_cmd_redeem args : bounded is_fetch 1 (cmd_redeem args).
Proof.
  unfold cmd_redeem. destruct (shift args) as [c r].
  apply bounded_call; [exact fetch_is_fetch | intros a; keep_handler].
Qed.

Lemma bounded_cmd_daily_reward args :
  bounded is_fetch 1 (cmd_daily_reward args).
Proof.
  unfold cmd_daily_reward.
  apply bounded_call; [exact fetch_is_fetch | intros a; keep_handler].
Qed.

Lemma bounded_cmd_notifications args :
  bounded is_fetch 1 (cmd_notifications args).
Proof.
  unfold cmd_notifications.
  apply bounded_call; [exact fetch_is_fetch | intros a; keep_handler].
Qed.

Lemma bounded_cmd_market args : bounded is_fetch 1 (cmd_market args).
Proof.
  unfold cmd_market. destruct (shift args) as [p r].
  destruct (shift r) as [i r'].
  apply bounded_call; [exact fetch_is_fetch | intros a; keep_handler].
Qed.

Lemma bounded_cmd_view_user args : bounded is_fetch 1 (cmd_view_user args).
Proof.
  unfold cmd_view_user.
  destruct args as [| u [| v r]];
    try solve [apply (bounded_weaken is_fetch 0); [lia |];
               apply bounded_offline; [exact fetch_is_fetch | keep]].
  apply bounded_call; [exact fetch_is_fetch | intros a; keep_handler].
Qed.

Lemma bounded_trade type verb sign st args :
  bounded is_fetch 1 (trade type verb sign st args).
Proof.
  unfold trade.
  destruct args as [| c [| a [| x r]]];
    try solve [apply (bounded_weaken is_fetch 0); [lia |];
               apply bounded_offline; [exact fetch_is_fetch | keep]].
  apply bounded_call; [exact fetch_is_fetch | intros a'; keep_handler].
Qed.

Lemma bounded_cmd_new_coin args : bounded is_fetch 1 (cmd_new_coin args).
Proof.
  unfold cmd_new_coin.
  destruct args as [| n [| s [| i [| x r]]]];
    try solve [apply (bounded_weaken is_fetch 0); [lia |];
               apply bounded_offline; [exact fetch_is_fetch | keep]].
  apply (bounded_bind is_fetch 0 1);
    [apply bounded_offline; [exact fetch_is_fetch | keep] |].
  intros [form |].
  - apply bounded_call; [exact fetch_is_fetch | intros a; keep_handler].
  - apply (bounded_weaken is_fetch 0); [lia |].
    apply bounded_offline; [exact fetch_is_fetch | keep].
Qed.

Lemma bounded_cmd_me args : bounded is_fetch 1 (cmd_me args).
Proof.
  unfold cmd_me. apply (bounded_bind is_fetch 1 0).
  - apply bounded_me. exact fetch_is_fetch.
  - intros json. apply bounded_offline; [exact fetch_is_fetch | keep].
Qed.

Lemma bounded_cmd_settings args : bounded is_fetch 2 (cmd_settings args).
Proof.
  unfold cmd_settings.
  destruct args as [| a [| b [| c [| d r]]]];
    try solve [apply (bounded_weaken is_fetch 0); [lia |];
               apply bounded_offline; [exact fetch_is_fetch | keep]].
  apply (bounded_bind is_fetch 1 1);
    [apply bounded_me; exact fetch_is_fetch |].
  intros u. destruct (nullish u).
  { apply (bounded_weaken is_fetch 0); [lia |].
    apply bounded_offline; [exact fetch_is_fetch | keep]. }
  apply (bounded_bind is_fetch 0 1);
    [apply bounded_offline; [exact fetch_is_fetch | keep] |].
  intros f_name.
  apply (bounded_bind is_fetch 0 1);
    [apply bounded_offline; [exact fetch_is_fetch | keep] |].
  intros [f_avatar |].
  - apply bounded_call; [exact fetch_is_fetch | intros a'; keep_handler].
  - apply (bounded_weaken is_fetch 0); [lia |].
    apply bounded_offline; [exact fetch_is_fetch | keep].
Qed.

Lemma bounded_cmd_portfolio args : bounded is_fetch 2 (cmd_portfolio args).
Proof.
  unfold cmd_portfolio.
  apply (bounded_bind is_fetch 1 1); [apply bounded_api_req |]. intros a.
  apply (bounded_bind is_fetch 1 0); [apply bounded_api_req |]. intros b.
  apply bounded_offline; [exact fetch_is_fetch | keep].
Qed.

Lemma bounded_cmd_commands args : bounded is_fetch 0 (cmd_commands args).
Proof.
  apply bounded_offline; [exact fetch_is_fetch |].
  apply keeps_cmd_commands. exact offline_frame.
Qed.

Lemma bounded_cmd_set_cookie args : bounded is_fetch 0 (cmd_set_cookie args).
Proof.
  apply bounded_offline; [exact fetch_is_fetch |].
  apply keeps_cmd_set_cookie; [exact offline_frame | exact offline_on_trace].
Qed.



(** ** What every command leaves alone *)

(** X1.  A command other than [set-cookie] changes nothing but the
    trace: whatever its arguments, the server's answers and its result,
    the world afterwards is the world before with more console lines
    and network calls, so the configuration in memory, the files and
    the directories are as they were. *)
Theorem commands_only_add_events (name : string) (f : list string -> M unit)
  (args : list string) (w : World) :
  handler name = Some f ->
  name <> "set-cookie"%string ->
  exists es,
    snd (f args w) = emits es w
    /\ config (snd (f args w)) = config w
    /\ files (snd (f args w)) = files w
    /\ dirs (snd (f args w)) = dirs w.
Proof.
  intros Hf Hn.
  destruct (handler_keeps added added_site name f Hf Hn args w)
    as (es & He & _).
  exists es. rewrite He. repeat split.
Qed.

(** X2.  Every network call a command makes goes to the site, is a GET
    or a POST, and carries the four headers with the cookie that was
    stored when the command began; [set-cookie] makes no call. *)
Theorem requests_carry_cookie (name : string) (f : list string -> M unit)
  (args : list string) (w : World) :
  handler name = Some f ->
  exists es,
    trace (snd (f args w)) = trace w ++ es
    /\ forall r, In (Fetch r) es ->
         exists c, stored_cookie w = Some c /\ on_site c r.
Proof.
  intros Hf. destruct (String.eqb_spec name "set-cookie") as [-> | Hn].
  - injection Hf as <-.
    destruct (keeps_cmd_set_cookie offline offline_frame offline_on_trace
                args w) as (es & He & Hc).
    exists es. split; [exact He |].
    intros r Hr. now apply no_call_no_fetch in Hr.
  - destruct (handler_keeps added added_site name f Hf Hn args w)
      as (es & He & Hall).
    exists es. split; [now rewrite He |].
    intros r Hr. rewrite Forall_forall in Hall. exact (Hall _ Hr).
Qed.

(** X3.  Over a whole run of the script, from its start through the
    banner, the list of commands and every line typed at the prompt,
    each network call goes to [https://rugplay.com/], is a GET or a
    POST, and carries the four fixed headers around some cookie. *)
Theorem session_on_site (input : list string) (w : World) :
  exists es,
    trace (snd (main input w)) = trace w ++ es
    /\ forall r, In (Fetch r) es ->
         strip_prefix "https://rugplay.com/" (url r) <> None
         /\ (method r = "GET"%string \/ method r = "POST"%string)
         /\ exists c, headers r = request_headers c.
Proof.
  destruct (keeps_main session session_site session_on_trace input w)
    as (es & He & Hall).
  exists es. split; [exact He |].
  intros r Hr. rewrite Forall_forall in Hall.
  destruct (Hall _ Hr) as (c & Hu & Hm & Hh).
  split; [exact Hu |]. split; [exact Hm |]. now exists c.
Qed.

(** X4.  Whatever the arguments and whatever the server answers, a
    command makes at most as many network calls as its handler has
    call sites: none for [commands] and [set-cookie], two for
    [settings] and [portfolio], one for every other command but
    [invest]. *)
Theorem call_bounds (name : string) (f : list string -> M unit)
  (args : list string) (w : World) :
  handler name = Some f ->
  name <> "invest"%string ->
  exists es,
    trace (snd (f args w)) = trace w ++ es
    /\ (calls es <= call_budget name)%nat.
Proof.
  intros Hf Hn. revert w. change (bounded is_fetch (call_budget name) (f args)).
  unfold handler in Hf. cbn in Hf.
  repeat match type of Hf with
         | context [String.eqb name ?s] =>
             destruct (String.eqb_spec name s);
             [ injection Hf as <-; subst name | ]
         end;
    try discriminate; try (now elim Hn).
  - apply bounded_cmd_commands.
  - apply bounded_cmd_set_cookie.
  - apply bounded_cmd_coinflip.
  - apply bounded_cmd_slots.
  - apply bounded_cmd_summary.
  - apply bounded_cmd_redeem.
  - apply bounded_cmd_new_coin.
  - apply bounded_cmd_settings.
  - apply bounded_cmd_me.
  - apply bounded_cmd_daily_reward.
  - apply bounded_cmd_notifications.
  - apply bounded_cmd_view_user.
  - apply bounded_cmd_market.
  - apply bounded_trade.
  - apply bounded_trade.
  - apply bounded_cmd_portfolio.
Qed.


(** ** Answers that are not OK, and calls that fail *)

(** A handler that calls the Gateway once comes down to that call and
    the two checks after it, once its own checks have passed. *)
Lemma single_call_shape name f args w :
  In name single_call_commands -> handler name = Some f ->
  passes_checks name args w = true ->
  exists api method body k,
    (method = "GET"%string \/ method = "POST"%string)
    /\ f args w = (a <- api_req api method body ;; on_ok a k) w.
Proof.
  intros Hin Hf Hp.
  destruct (handler_cases name f Hin Hf)
    as [[-> ->] | [[-> ->] | [[-> ->] | [[-> ->] | [[-> ->] | [[-> ->]
       | [[-> ->] | [[-> ->] | [[-> ->] | [[-> ->] | [[-> ->] | [-> ->]
       ]]]]]]]]]]].
  - unfold cmd_coinflip. destruct (shift args) as [s r].
    destruct (shift r) as [am r']. do 4 eexists. split; [| reflexivity]. auto.
  - unfold cmd_slots. destruct (shift args) as [am r].
    do 4 eexists. split; [| reflexivity]. auto.
  - unfold cmd_summary. do 4 eexists. split; [| reflexivity]. auto.
  - unfold cmd_redeem. destruct (shift args) as [cd r].
    do 4 eexists. split; [| reflexivity]. auto.
  - destruct args as [| n [| s [| i [| x r]]]]; try discriminate Hp.
    change (passes_checks "new-coin" [n; s; i] w)
      with (match fst (mk_file i w) with Ok _ => true | _ => false end) in Hp.
    pose proof (mk_file_pure i w) as P.
    unfold cmd_new_coin. unfold bind at 1. unfold try_catch. unfold bind at 1.
    destruct (mk_file i w) as [[file | e |] w1]; try discriminate Hp.
    cbn [snd] in P. subst w1. cbn [ret].
    do 4 eexists. split; [| reflexivity]. auto.
  - unfold cmd_daily_reward. do 4 eexists. split; [| reflexivity]. auto.
  - unfold cmd_notifications. do 4 eexists. split; [| reflexivity]. auto.
  - destruct args as [| sb [| sa r]]; try discriminate Hp.
    change (passes_checks "invest" (sb :: sa :: r) w)
      with (negb (isNaN (parseFloat sb)) && negb (isNaN (parseFloat sa)))
      in Hp.
    apply andb_prop in Hp as [Hb Ha].
    apply negb_true_iff in Hb, Ha.
    unfold cmd_invest. rewrite Hb, Ha.
    do 4 eexists. split; [| reflexivity]. auto.
  - destruct args as [| u [| v r]]; try discriminate Hp.
    unfold cmd_view_user. do 4 eexists. split; [| reflexivity]. auto.
  - unfold cmd_market. destruct (shift args) as [p r].
    destruct (shift r) as [i r']. do 4 eexists. split; [| reflexivity]. auto.
  - destruct args as [| cn [| a [| x r]]]; try discriminate Hp.
    unfold cmd_buy_coin, trade. do 4 eexists. split; [| reflexivity]. auto.
  - destruct args as [| cn [| a [| x r]]]; try discriminate Hp.
    unfold cmd_sell_coin, trade. do 4 eexists. split; [| reflexivity]. auto.
Qed.

Lemma on_site_api c api method body :
  method = "GET"%string \/ method = "POST"%string ->
  on_site c {| url := "https://rugplay.com/api/" ++ api; method := method;
               headers := request_headers c; body := body |}.
Proof. intros Hm. repeat split; [discriminate | exact Hm]. Qed.

(** The call is answered, and the answer is not OK. *)
Lemma call_not_ok api method body k w c resp :
  stored_cookie w = Some c ->
  loose_eq_str c "unknown" = Some false ->
  (forall r, server w (calls (trace w)) r = Respond resp) ->
  ok resp = false ->
  (a <- api_req api method body ;; on_ok a k) w =
  (Ok tt,
   emits [Fetch {| url := "https://rugplay.com/api/" ++ api; method := method;
                   headers := request_headers c; body := body |};
          Log api_error_line; Log [Raw (VStr (text resp))]] w).
Proof.
  intros Hc Hset Hs Hok. unfold bind at 1.
  rewrite (api_req_set _ _ _ _ _ Hc Hset). cbv zeta. rewrite Hs.
  unfold on_ok. rewrite Hok. unfold api_error.
  erewrite bind_Ok; [| apply console_log_Ok; reflexivity].
  rewrite console_log_Ok by reflexivity.
  rewrite !emit_is_emits, !emits_emits. reflexivity.
Qed.

(** The call fails: no answer comes back. *)
Lemma call_rejected api method body k w c e :
  stored_cookie w = Some c ->
  loose_eq_str c "unknown" = Some false ->
  (forall r, server w (calls (trace w)) r = Reject e) ->
  (a <- api_req api method body ;; on_ok a k) w =
  (Throw e,
   emits [Fetch {| url := "https://rugplay.com/api/" ++ api; method := method;
                   headers := request_headers c; body := body |}] w).
Proof.
  intros Hc Hset Hs. unfold bind at 1.
  rewrite (api_req_set _ _ _ _ _ Hc Hset). cbv zeta. rewrite Hs.
  reflexivity.
Qed.

(** X6.  Every command that calls the Gateway once reports an answer
    that is not OK in the same way: after its request it prints the
    line [API ERROR:] and the text of the response, and returns; it
    prints nothing else and makes no other call. *)
Theorem api_error_reported (name : string) (f : list string -> M unit)
  (args : list string) (w : World) (c : value) (resp : Response) :
  In name single_call_commands ->
  handler name = Some f ->
  stored_cookie w = Some c ->
  loose_eq_str c "unknown" = Some false ->
  passes_checks name args w = true ->
  (forall r, server w (calls (trace w)) r = Respond resp) ->
  ok resp = false ->
  exists r,
    on_site c r
    /\ f args w =
       (Ok tt,
        emits [Fetch r; Log api_error_line; Log [Raw (VStr (text resp))]] w).
Proof.
  intros Hin Hf Hc Hset Hp Hs Hok.
  destruct (single_call_shape name f args w Hin Hf Hp)
    as (api & method & body & k & Hm & ->).
  eexists. split; [apply (on_site_api c api method body Hm) |].
  now apply call_not_ok.
Qed.

(** X7.  No handler and no part of the loop catches a network call
    that fails: when the call of a command that calls the Gateway once
    is refused by the network, the command ends in that failure right
    after the request, and so does the loop, which reads no further
    line. *)
Theorem network_failure_ends_session (name : string)
  (f : list string -> M unit) (args : list string) (w : World) (c : value)
  (e : error) (line : string) (rest : list string) :
  In name single_call_commands ->
  handler name = Some f ->
  stored_cookie w = Some c ->
  loose_eq_str c "unknown" = Some false ->
  passes_checks name args w = true ->
  (forall r, server w (calls (trace w)) r = Reject e) ->
  split_on " " line = name :: args ->
  exists r,
    on_site c r
    /\ f args w = (Throw e, emits [Fetch r] w)
    /\ repl (line :: rest) w = (Throw e, emits [Fetch r] w).
Proof.
  intros Hin Hf Hc Hset Hp Hs Hl.
  destruct (single_call_shape name f args w Hin Hf Hp)
    as (api & method & body & k & Hm & E).
  assert (E' : f args w
               = (Throw e,
                  emits [Fetch {| url := "https://rugplay.com/api/" ++ api;
                                  method := method;
                                  headers := request_headers c;
                                  body := body |}] w))
    by (rewrite E; now apply call_rejected).
  eexists. split; [apply (on_site_api c api method body Hm) |].
  split; [exact E' |].
  cbn [repl]. apply bind_Throw. unfold repl_step. rewrite Hl.
  unfold handler in Hf.
  destruct (commands_get name commands) as [cmd |]; [| discriminate].
  cbn [option_map] in Hf. injection Hf as ->. exact E'.
Qed.

(** X8.  [portfolio] sends both of its requests before it looks at
    either answer.  When the first answer is not OK it reports that
    one; when the first is OK and the second is not, it reports the
    second; in both cases it prints nothing of the portfolio. *)
Theorem portfolio_needs_both (args : list string) (w : World) (c : value)
  (ra rb : Response) :
  stored_cookie w = Some c ->
  loose_eq_str c "unknown" = Some false ->
  let total := {| url := "https://rugplay.com/api/portfolio/total";
                  method := "GET"; headers := request_headers c;
                  body := NoBody |} in
  let transactions := {| url := "https://rugplay.com/api/transactions";
                         method := "GET"; headers := request_headers c;
                         body := NoBody |} in
  server w (calls (trace w)) total = Respond ra ->
  server w (S (calls (trace w))) transactions = Respond rb ->
  (ok ra = false ->
   cmd_portfolio args w =
   (Ok tt, emits [Fetch total; Fetch transactions; Log api_error_line;
                  Log [Raw (VStr (text ra))]] w))
  /\ (ok ra = true -> ok rb = false ->
      cmd_portfolio args w =
      (Ok tt, emits [Fetch total; Fetch transactions; Log api_error_line;
                     Log [Raw (VStr (text rb))]] w)).
Proof.
  intros Hc Hset total transactions Ha Hb.
  assert (E : cmd_portfolio args w =
              (if negb (ok ra) then api_error ra
               else if negb (ok rb) then api_error rb
               else
                 json <- json_of ra ;;
                 portfolio_totals json ;;
                 log [Txt "Coin holdings"] ;;
                 log [Txt "  Symbol | Quantity Owned | Price | P&L% | 24h Change | Value"] ;;
                 holdings <- prop json "coinHoldings" ;;
                 l <- typed (iterate holdings) ;;
                 for_each l holding_row ;;
                 log [Txt "Transactions"] ;;
                 trans <- json_of rb ;;
                 ts <- prop trans "transactions" ;;
                 l <- typed (iterate ts) ;;
                 for_each l portfolio_transaction)
                (emits [Fetch total; Fetch transactions] w)).
  { unfold cmd_portfolio. unfold bind at 1.
    rewrite (api_req_set _ _ _ _ _ Hc Hset). cbv zeta.
    cbn [append]. fold total. rewrite Ha.
    unfold bind at 1.
    rewrite (api_req_set _ _ _ (emit (Fetch total) w) c Hc Hset). cbv zeta.
    cbn [append]. fold transactions.
    assert (N : calls (trace (emit (Fetch total) w)) = S (calls (trace w))).
    { unfold emit. cbn [trace]. rewrite calls_app. cbn. lia. }
    rewrite N. change (server (emit (Fetch total) w)) with (server w).
    rewrite Hb. rewrite !emit_is_emits, emits_emits. reflexivity. }
  split.
  - intros Hok. rewrite E, Hok. cbn [negb]. unfold api_error.
    erewrite bind_Ok; [| apply console_log_Ok; reflexivity].
    rewrite console_log_Ok by reflexivity.
    rewrite !emit_is_emits, !emits_emits. reflexivity.
  - intros Hok Hok'. rewrite E, Hok, Hok'. cbn [negb]. unfold api_error.
    erewrite bind_Ok; [| apply console_log_Ok; reflexivity].
    rewrite console_log_Ok by reflexivity.
    rewrite !emit_is_emits, !emits_emits. reflexivity.
Qed.

(** X9.  The checks a handler makes on its arguments come before
    anything else: with the wrong number of arguments [new-coin],
    [settings], [invest], [view-user], [buy-coin] and [sell-coin] print
    their one line of complaint and do nothing more, with or without a
    cookie; and [invest] with a budget or an amount that is no number
    returns without a word. *)
Theorem arguments_checked_first (w : World) :
  (forall args, List.length args <> 3%nat ->
     cmd_new_coin args w
     = (Ok tt, emit (Log [Tpl [Txt "Invalid argument length"]]) w))
  /\ (forall args, (List.length args < 4)%nat ->
        cmd_settings args w
        = (Ok tt, emit (Log [Tpl [Txt "Invalid command parameters"]]) w))
  /\ (forall args, (List.length args < 2)%nat ->
        cmd_invest args w
        = (Ok tt, emit (Log [Tpl [Txt "Invald paramteres to command"]]) w))
  /\ (forall sb sa rest,
        parseFloat sb = NaN \/ parseFloat sa = NaN ->
        cmd_invest (sb :: sa :: rest) w = (Ok tt, w))
  /\ (forall args, List.length args <> 1%nat ->
        cmd_view_user args w
        = (Ok tt, emit (Log [Tpl [Txt "Invalid parameters to command"]]) w))
  /\ (forall args, List.length args <> 2%nat ->
        cmd_buy_coin args w
        = (Ok tt, emit (Log [Tpl [Txt "Invalid command parameters"]]) w)
        /\ cmd_sell_coin args w
           = (Ok tt, emit (Log [Tpl [Txt "Invalid command parameters"]]) w)).
Proof.
  split; [| split; [| split; [| split; [| split]]]].
  - intros [| a [| b [| c [| d r]]]] H; try reflexivity. now elim H.
  - intros [| a [| b [| c [| d r]]]] H; try reflexivity. simpl in H. lia.
  - intros [| a [| b r]] H; try reflexivity. simpl in H. lia.
  - intros sb sa rest [H | H]; unfold cmd_invest; rewrite H;
      [reflexivity |].
    destruct (isNaN (parseFloat sb)); reflexivity.
  - intros [| a [| b r]] H; try reflexivity. now elim H.
  - intros [| a [| b [| c r]]] H; try (split; reflexivity). now elim H.
Qed.

(** ** Splitting a line and joining its words *)

Lemma append_rest_app a b r :
  append_rest (a ++ b) r = (a ++ append_rest b r)%string.
Proof.
  revert b. induction r as [| y r IH]; intros b; cbn [append_rest];
    [reflexivity |].
  now rewrite append_assoc, IH.
Qed.

Lemma append_rest_cons c x r :
  append_rest (String c x) r = String c (append_rest x r).
Proof. apply (append_rest_app (str1 c) x r). Qed.

Lemma append_rest_next x y r :
  append_rest x (y :: r) = (x ++ String " " (append_rest y r))%string.
Proof.
  cbn [append_rest]. rewrite append_rest_app.
  now rewrite (append_rest_app " " y r).
Qed.

(** The words of a line, joined as [set-cookie] joins its arguments,
    are the line again. *)
Lemma split_join s :
  exists x r, split_on " " s = x :: r /\ append_rest x r = s.
Proof.
  induction s as [| c s (x & r & Hs & Hj)].
  - exists EmptyString, []. split; reflexivity.
  - cbn [split_on]. rewrite Hs. destruct (Ascii.eqb_spec c " ") as [-> | N].
    + exists EmptyString, (x :: r). split; [reflexivity |].
      now rewrite append_rest_next, Hj.
    + exists (String c x), r. split; [reflexivity |].
      now rewrite append_rest_cons, Hj.
Qed.

Lemma split_plain sep x : occurs sep x = false -> split_on sep x = [x].
Proof.
  induction x as [| c x IH]; [reflexivity |]. cbn [occurs split_on].
  intros H. apply orb_false_elim in H as [Hc Hx].
  now rewrite Hc, (IH Hx).
Qed.

Lemma split_app sep x y :
  occurs sep x = false ->
  split_on sep (x ++ String sep y) = x :: split_on sep y.
Proof.
  induction x as [| c x IH]; cbn [occurs append split_on].
  - intros _. now rewrite Ascii.eqb_refl.
  - intros H. apply orb_false_elim in H as [Hc Hx].
    now rewrite Hc, (IH Hx).
Qed.

(** Words without a space, joined by spaces, split into themselves. *)
Lemma join_split r :
  forall x,
    occurs " " x = false ->
    Forall (fun a => occurs " " a = false) r ->
    split_on " " (append_rest x r) = x :: r.
Proof.
  induction r as [| y r IH]; intros x Hx Hr.
  - now apply split_plain.
  - inversion Hr as [| ? ? Hy Hr']; subst.
    rewrite append_rest_next, (split_app " " x _ Hx).
    now rewrite (IH y Hy Hr').
Qed.

(** No name in the registry has a space in it. *)
Lemma registered_name_plain name c :
  commands_get name commands = Some c -> occurs " " name = false.
Proof.
  intros H. cbn in H.
  repeat match type of H with
         | context [String.eqb name ?s] =>
             destruct (String.eqb_spec name s); [subst; reflexivity |]
         end.
  discriminate.
Qed.

(** X10.  The loop finds every command of the registry: a line made
    of a registered name and arguments without spaces, joined by single
    spaces, is split into just these words and runs the handler of that
    name on just these arguments. *)
Theorem prompt_reaches_handler (name : string) (c : Command)
  (arguments : list string) (w : World) :
  commands_get name commands = Some c ->
  Forall (fun a => occurs " " a = false) arguments ->
  split_on " " (append_rest name arguments) = name :: arguments
  /\ repl_step (append_rest name arguments) w = callback c arguments w.
Proof.
  intros Hc Ha.
  assert (S : split_on " " (append_rest name arguments) = name :: arguments)
    by (apply join_split; [now apply registered_name_plain with c | exact Ha]).
  split; [exact S |]. unfold repl_step. now rewrite S, Hc.
Qed.

(** ** Saving the configuration *)


(** ** Setting the cookie at the prompt *)

Lemma assoc_assoc_set k v l : assoc k (assoc_set k v l) = Some v.
Proof.
  induction l as [| [k' v'] l IH]; cbn [assoc_set assoc].
  - now rewrite String.eqb_refl.
  - destruct (String.eqb k k') eqn:E; cbn [assoc].
    + now rewrite String.eqb_refl.
    + now rewrite E.
Qed.

(** [set-cookie] on an object configuration, up to the write. *)
Lemma cmd_set_cookie_steps args fields w :
  config w = VObj fields ->
  let cookie := match args with
                | [] => VUndef
                | c :: r => VStr (append_rest c r)
                end in
  let w1 := emit (Log [Tpl [Txt "Set cookie ";
                            Chalk green_bright [Txt "successfully"];
                            Txt "."]])
              (set_config (VObj (assoc_set "cookie" cookie fields)) w) in
  cmd_set_cookie args w = writeConfig (config w1) w1.
Proof.
  intros Hcfg cookie w1. unfold cmd_set_cookie, set_config_cookie.
  fold cookie. unfold bind at 1. unfold bind at 1. cbn [get]. rewrite Hcfg.
  cbn [modify].
  erewrite bind_Ok; [| apply log_Ok; reflexivity].
  reflexivity.
Qed.

(** X12.  [set-cookie] typed at the prompt stores the rest of the line
    as it was typed, spaces and all: the line is split at its spaces
    and the handler joins the pieces with single spaces again.  The
    cookie in memory is replaced and the success line is printed
    before the file is written, so both hold whether or not the write
    succeeds; no network call is made.  Typed without anything after
    it, the command stores [undefined]. *)
Theorem set_cookie_keeps_text (text : string) (fields : list (string * value))
  (w : World) :
  config w = VObj fields ->
  let done := Log [Tpl [Txt "Set cookie ";
                        Chalk green_bright [Txt "successfully"]; Txt "."]] in
  (let w' := snd (repl_step ("set-cookie " ++ text) w) in
   config w' = VObj (assoc_set "cookie" (VStr text) fields)
   /\ stored_cookie w' = Some (VStr text)
   /\ trace w' = trace w ++ [done])
  /\ (let w' := snd (repl_step "set-cookie" w) in
      config w' = VObj (assoc_set "cookie" VUndef fields)
      /\ stored_cookie w' = Some VUndef
      /\ trace w' = trace w ++ [done]).
Proof.
  intros Hcfg done.
  assert (stored : forall v,
            get_prop (VObj (assoc_set "cookie" v fields)) "cookie" = Some v).
  { intros v. cbn [get_prop]. unfold obj_get.
    now rewrite assoc_assoc_set. }
  split.
  - assert (S : split_on " " ("set-cookie " ++ text)
                = "set-cookie"%string :: split_on " " text)
      by (apply (split_app " " "set-cookie" text); reflexivity).
    destruct (split_join text) as (x & r & Hs & Hj).
    assert (E : repl_step ("set-cookie " ++ text) w
                = cmd_set_cookie (x :: r) w).
    { unfold repl_step. rewrite S, Hs. reflexivity. }
    rewrite E, (cmd_set_cookie_steps (x :: r) fields w Hcfg). cbv zeta.
    rewrite Hj.
    match goal with
    | |- context [writeConfig ?cfg ?w1] =>
        destruct (writeConfig_frame cfg w1) as (Hc & Ht)
    end.
    unfold stored_cookie. rewrite Hc, Ht.
    cbn [config set_config emit]. split; [reflexivity |].
    split; [apply stored | reflexivity].
  - assert (E : repl_step "set-cookie" w = cmd_set_cookie [] w)
      by reflexivity.
    rewrite E, (cmd_set_cookie_steps [] fields w Hcfg). cbv zeta.
    match goal with
    | |- context [writeConfig ?cfg ?w1] =>
        destruct (writeConfig_frame cfg w1) as (Hc & Ht)
    end.
    unfold stored_cookie. rewrite Hc, Ht.
    cbn [config set_config emit]. split; [reflexivity |].
    split; [apply stored | reflexivity].
Qed.


(** ** The last piece of a path *)


(** The type a [File] keeps of [image/] and an extension. *)
Lemma blob_type_image ext :
  blob_type ("image/" ++ ext)
  = if plain ext then ("image/" ++ lowercase ext)%string else EmptyString.
Proof.
  unfold blob_type, plain, lowercase.
  change (list_ascii_of_string ("image/" ++ ext))
    with (list_ascii_of_string "image/" ++ list_ascii_of_string ext).
  rewrite forallb_app, map_app.
  change (forallb (fun c => between 32 (code c) 126)
            (list_ascii_of_string "image/")) with true.
  cbn [andb].
  destruct (forallb _ (list_ascii_of_string ext)); reflexivity.
Qed.




(** ** Notifications *)

Lemma get_prop_field v k : get_prop v k <> None -> get_prop v k = Some (field_of v k).
Proof. unfold field_of. destruct (get_prop v k); [reflexivity | now intros []]. Qed.

Lemma printable_props n k : printable n -> get_prop n k = Some (field_of n k).
Proof.
  intros (H & _). apply get_prop_field.
  destruct n; try discriminate; now elim H.
Qed.

(** One pass over the notifications prints those whose mark is the one
    asked for, in the order of the list. *)
Lemma print_notifications_Ok json l b w :
  get_prop json "notifications" = Some (VArr l) ->
  Forall printable l ->
  print_notifications json b w =
  (Ok tt,
   emits (map notification_line (filter (fun n => Bool.eqb (is_read n) b) l))
     w).
Proof.
  intros Hn Hl. unfold print_notifications.
  run (prop_Ok _ _ _ w Hn). cbn [iterate typed]. unfold bind at 1.
  cbn [ret]. clear Hn. revert w.
  induction Hl as [| n l Hp Hl IH]; intros w.
  - cbn. now rewrite emits_nil.
  - cbn [for_each filter map].
    erewrite bind_Ok with
      (w' := emits (if Bool.eqb (is_read n) b then [notification_line n]
                    else []) w).
    + rewrite IH, emits_emits.
      destruct (Bool.eqb (is_read n) b); reflexivity.
    + cbv beta.
      run (prop_Ok _ _ _ w (printable_props n "isRead" Hp)).
      fold (is_read n). destruct (Bool.eqb (is_read n) b).
      * run (prop_Ok _ _ _ w (printable_props n "title" Hp)).
        run (prop_Ok _ _ _ w (printable_props n "message" Hp)).
        destruct Hp as (_ & Ht & Hm).
        apply log_Ok. cbn [forallb doc_ok] in *. now rewrite Ht, Hm.
      * now rewrite emits_nil.
Qed.

Lemma filter_split {A} (f : A -> bool) (l : list A) :
  (List.length (filter (fun x => negb (f x)) l) + List.length (filter f l)
   = List.length l)%nat.
Proof.
  induction l as [| x l IH]; [reflexivity |]. cbn [filter].
  destruct (f x); cbn [negb List.length]; lia.
Qed.

(** X15.  [notifications] prints every notification of the answer
    exactly once: under the heading [Unread] those whose [isRead] is
    not truthy, under the heading [Read] the others, each group in the
    order of the answer. *)
Theorem notifications_once_each (args : list string) (w : World) (c : value)
  (resp : Response) (json unread : value) (l : list value) :
  stored_cookie w = Some c ->
  loose_eq_str c "unknown" = Some false ->
  let r := {| url := "https://rugplay.com/api/notifications";
              method := "GET"; headers := request_headers c;
              body := NoBody |} in
  server w (calls (trace w)) r = Respond resp ->
  ok resp = true ->
  JSON.parse (text resp) = Some json ->
  get_prop json "unreadCount" = Some unread ->
  doc_ok (Str unread) = true ->
  get_prop json "notifications" = Some (VArr l) ->
  Forall printable l ->
  let unread_lines :=
    map notification_line (filter (fun n => negb (is_read n)) l) in
  let read_lines := map notification_line (filter is_read l) in
  cmd_notifications args w =
  (Ok tt,
   emits ([Fetch r;
           Log [Tpl [Chalk bold [Txt "Notifications"]; Txt " ";
                     Chalk bg_red_bright [Str unread]]];
           Log [Tpl [Chalk italic [Txt "Unread"]]]]
          ++ unread_lines
          ++ [Log [Tpl [Chalk italic [Txt "Read"]]]]
          ++ read_lines) w)
  /\ (List.length unread_lines + List.length read_lines = List.length l)%nat.
Proof.
  intros Hc Hset r Hs Hok Hj Hu Hd Hn Hl unread_lines read_lines.
  split.
  - unfold cmd_notifications. unfold bind at 1.
    rewrite (api_req_set _ _ _ _ _ Hc Hset). cbv zeta. cbn [append].
    fold r. rewrite Hs. unfold on_ok. rewrite Hok.
    run (json_of_Ok _ _ (emit (Fetch r) w) Hj).
    run (prop_Ok _ _ _ (emit (Fetch r) w) Hu).
    erewrite bind_Ok; [| apply log_Ok; cbn [forallb doc_ok] in *; now rewrite Hd].
    erewrite bind_Ok; [| apply log_Ok; reflexivity].
    erewrite bind_Ok; [| apply (print_notifications_Ok json l false _ Hn Hl)].
    erewrite bind_Ok; [| apply log_Ok; reflexivity].
    rewrite (print_notifications_Ok json l true _ Hn Hl).
    rewrite !emit_is_emits, !emits_emits.
    assert (F : forall b,
              filter (fun n => Bool.eqb (is_read n) b) l
              = filter (fun n => if b then is_read n else negb (is_read n)) l).
    { intros b. apply filter_ext. intros n.
      destruct (is_read n), b; reflexivity. }
    rewrite !F. reflexivity.
  - subst unread_lines read_lines. rewrite !length_map.
    apply filter_split.
Qed.

(** ** Change values that are no finite numbers *)

(** X16.  The if-chain that renders a change value decides on every
    value, not on finite numbers only: the value is made a number for
    the comparisons; it is shown as a rise when that number is above
    zero, as unchanged when the value is neither [undefined] nor
    [null] and the number equals zero, and as a fall in every other
    case.  So a change that is missing, [null] or not a number is
    shown as a fall; the text behind the prefix is the value as it
    came.  A value that cannot be made a number is a TypeError. *)
Theorem change_direction_total (v : value) (w : World) :
  (forall n, to_number v = Some n ->
     exists d st p,
       dayChange v w = (Ok d, w)
       /\ d = Chalk st [Txt p; Str v]
       /\ direction_of d
          = Some (if Num.gtb n (Fin 0) then Positive
                  else if negb (nullish v) && Num.eqb n (Fin 0) then Zero
                  else Negative))
  /\ (to_number v = None -> dayChange v w = (Throw TypeError, w))
  /\ (v = VUndef \/ v = VNull \/ v = VNum NaN \/ v = VNum NInf ->
      dayChange v w = (Ok (Chalk bg_red_bright [Txt "v "; Str v]), w)).
Proof.
  split; [| split].
  - intros n Hn.
    assert (Z : loose_eq_num v (Fin 0)
                = Some (negb (nullish v) && Num.eqb n (Fin 0))).
    { unfold loose_eq_num.
      destruct v; try reflexivity; rewrite Hn; reflexivity. }
    unfold dayChange, gt_num. rewrite Hn, Z.
    cbn [option_map typed]. unfold bind at 1. cbn [ret].
    destruct (Num.gtb n (Fin 0)).
    + do 3 eexists. split; [reflexivity |]. split; reflexivity.
    + unfold bind. cbn [ret].
      destruct (negb (nullish v) && Num.eqb n (Fin 0));
        do 3 eexists; (split; [reflexivity |]); split; reflexivity.
  - intros Hn. unfold dayChange, gt_num. now rewrite Hn.
  - intros [-> | [-> | [-> | ->]]]; reflexivity.
Qed.

(** ** How far a shown amount is from the amount *)

Lemma floor_half k : Qfloor (inject_Z k + (1 # 2)) = k.
Proof.
  pose proof (Qfloor_le (inject_Z k + (1 # 2))) as A.
  pose proof (Qlt_floor (inject_Z k + (1 # 2))) as B.
  set (m := Qfloor (inject_Z k + (1 # 2))) in *.
  assert (m < k + 1)%Z
    by (rewrite Zlt_Qlt, inject_Z_plus; change (inject_Z 1) with 1%Q; lra).
  assert (k < m + 1)%Z.
  { rewrite Zlt_Qlt. rewrite inject_Z_plus in B |- *.
    change (inject_Z 1) with 1%Q in *. lra. }
  lia.
Qed.

Lemma thousandth k : (inject_Z k / 1000 * 1000 == inject_Z k)%Q.
Proof. unfold Qdiv. change (/ 1000)%Q with (1 # 1000)%Q. lra. Qed.

Lemma spec_round3_fixed k :
  (spec_round3 (Qred (inject_Z k / 1000)) == inject_Z k / 1000)%Q.
Proof.
  unfold spec_round3.
  rewrite (Qfloor_comp (Qred (inject_Z k / 1000) * 1000 + (1 # 2))
             (inject_Z k + (1 # 2)))
    by (rewrite Qred_correct, thousandth; reflexivity).
  now rewrite floor_half.
Qed.

Lemma spec_floor3_fixed k :
  (spec_floor3 (Qred (inject_Z k / 1000)) == inject_Z k / 1000)%Q.
Proof.
  unfold spec_floor3.
  rewrite (Qfloor_comp (Qred (inject_Z k / 1000) * 1000) (inject_Z k))
    by (rewrite Qred_correct, thousandth; reflexivity).
  now rewrite Qfloor_Z.
Qed.

(* X17-HERE *)

(** ** The search term of [market] *)

Lemma hex_upper_digits c :
  unreserved (hex_upper (code c / 16)) = true
  /\ unreserved (hex_upper (code c mod 16)) = true
  /\ hex_of (hex_upper (code c / 16)) = Some (code c / 16)
  /\ hex_of (hex_upper (code c mod 16)) = Some (code c mod 16).
Proof.
  destruct c as [[] [] [] [] [] [] [] []]; vm_compute; repeat split.
Qed.

Lemma code_inj c1 c2 : code c1 = code c2 -> c1 = c2.
Proof.
  unfold code. intros H. apply N2Z.inj in H.
  rewrite <- (ascii_N_embedding c1), <- (ascii_N_embedding c2).
  now rewrite H.
Qed.

Lemma occurs_app ch a b :
  occurs ch (a ++ b) = occurs ch a || occurs ch b.
Proof.
  induction a as [| c a IH]; cbn [append occurs]; [reflexivity |].
  now rewrite IH, orb_assoc.
Qed.

(** Only unreserved characters and percent signs come out. *)
Lemma encode_safe s ch :
  occurs ch (encodeURIComponent s) = true ->
  unreserved ch = true \/ ch = "%"%char.
Proof.
  induction s as [| c s IH]; cbn [encodeURIComponent occurs];
    [discriminate |].
  destruct (hex_upper_digits c) as (Hh & Hl & _).
  destruct (unreserved c) eqn:U; cbn [occurs]; intros H;
    repeat (apply orb_prop in H as [H | H]);
    try (apply Ascii.eqb_eq in H; subst); auto.
Qed.

(** Different texts come out different. *)
Lemma encode_inj s1 :
  forall s2, encodeURIComponent s1 = encodeURIComponent s2 -> s1 = s2.
Proof.
  induction s1 as [| c1 s1 IH]; intros [| c2 s2]; cbn [encodeURIComponent].
  - reflexivity.
  - destruct (unreserved c2); discriminate.
  - destruct (unreserved c1); discriminate.
  - destruct (hex_upper_digits c1) as (_ & _ & H1 & L1).
    destruct (hex_upper_digits c2) as (_ & _ & H2 & L2).
    destruct (unreserved c1) eqn:U1, (unreserved c2) eqn:U2; intros E.
    + injection E as -> E. now rewrite (IH s2 E).
    + injection E as -> _. discriminate U1.
    + injection E as <- _. discriminate U2.
    + injection E as Eh El E. rewrite Eh in H1. rewrite El in L1.
      rewrite (IH s2 E). f_equal. apply code_inj.
      rewrite (Z.div_mod (code c1) 16), (Z.div_mod (code c2) 16) by lia.
      congruence.
Qed.

(** X18.  [market] with a page and a search term asks for that page
    with the words of the term joined by single spaces and percent
    encoded.  The encoded term is made of unreserved characters and
    percent signs only, so no character of the term can end the
    [search] parameter or start another one, and different terms give
    different requests.  The page is put into the address as typed. *)
Theorem market_search_encoded (page item : string) (rest : list string)
  (w : World) (c : value) :
  stored_cookie w = Some c ->
  loose_eq_str c "unknown" = Some false ->
  let term := encodeURIComponent (append_rest item rest) in
  (exists more,
     trace (snd (cmd_market (page :: item :: rest) w)) =
     trace w
     ++ Fetch {| url := "https://rugplay.com/api/market?search=" ++ term
                        ++ "&sortBy=marketCap&sortOrder=desc&priceFilter=all&changeFilter=all&page="
                        ++ page ++ "&limit=6";
                 method := "GET";
                 headers := request_headers c;
                 body := NoBody |} :: more)
  /\ (forall ch, occurs ch term = true ->
        unreserved ch = true \/ ch = "%"%char)
  /\ occurs "&" term = false
  /\ occurs "=" term = false
  /\ occurs "#" term = false
  /\ occurs " " term = false
  /\ (forall item' rest',
        encodeURIComponent (append_rest item' rest') = term ->
        append_rest item' rest' = append_rest item rest).
Proof.
  intros Hc Hset term.
  assert (absent : forall ch,
            unreserved ch = false -> ch <> "%"%char ->
            occurs ch term = false).
  { intros ch U N. destruct (occurs ch term) eqn:O; [| reflexivity].
    destruct (encode_safe _ _ O) as [U' | ->]; [congruence | now elim N]. }
  split.
  { unfold cmd_market. cbn [shift or_default]. fold term.
    apply bind_first.
    - exists []. now rewrite (api_req_first _ _ _ _ _ Hc Hset).
    - intros a. apply monotone_on_ok. intros r.
      apply monotone_bind; [apply monotone_json_of |].
      intros json. apply monotone_market_table. }
  split; [intros ch; apply encode_safe |].
  split; [apply absent; [reflexivity | discriminate] |].
  split; [apply absent; [reflexivity | discriminate] |].
  split; [apply absent; [reflexivity | discriminate] |].
  split; [apply absent; [reflexivity | discriminate] |].
  intros item' rest' E. now apply encode_inj.
Qed.

(** ** The profile page *)

Lemma me_Ok w c r u :
  stored_cookie w = Some c ->
  server w (calls (trace w)) (me_request c) = Respond r ->
  ok r = true ->
  JSON.parse (text r) = Some u ->
  me w = (Ok u, emit (Fetch (me_request c)) w).
Proof.
  intros Hc Hs Hok Hj. unfold me.
  run (config_cookie_Ok _ _ Hc). unfold bind at 1, fetch.
  change (List.length (fetches (trace w))) with (calls (trace w)).
  rewrite Hs, Hok. cbn [negb]. now apply json_of_Ok.
Qed.

Lemma me_not_ok w c r :
  stored_cookie w = Some c ->
  server w (calls (trace w)) (me_request c) = Respond r ->
  ok r = false ->
  me w = (Ok VUndef,
          emits [Fetch (me_request c); Log api_error_line;
                 Log [Raw (VStr (text r))]] w).
Proof.
  intros Hc Hs Hok. unfold me.
  run (config_cookie_Ok _ _ Hc). unfold bind at 1, fetch.
  change (List.length (fetches (trace w))) with (calls (trace w)).
  rewrite Hs, Hok. cbn [negb]. unfold api_error.
  erewrite bind_Ok.
  2:{ erewrite bind_Ok; [| apply console_log_Ok; reflexivity].
      apply console_log_Ok. reflexivity. }
  rewrite !emit_is_emits, !emits_emits. reflexivity.
Qed.

Lemma profile_field_typed u i w :
  profile_field u i w = typed (profile_value u i) w.
Proof.
  unfold profile_field, profile_value, prop, index, bind.
  destruct (get_prop u "nodes") as [nodes |]; [| reflexivity]. cbn [typed ret].
  destruct (get_index nodes 0) as [n0 |]; [| reflexivity]. cbn [typed ret].
  destruct (get_prop n0 "data") as [data |]; reflexivity.
Qed.

Lemma profile_field_Ok u i v w :
  profile_value u i = Some v -> profile_field u i w = (Ok v, w).
Proof. intros H. now rewrite profile_field_typed, H. Qed.

(** X19.  [settings] leaves out of the form what is given as [none]:
    the user name and the biography are sent only when they are not
    [none], and a biography takes all the words that are left; the
    display name is always sent, as the one given or, when that is
    [none], as the one of the profile page the command fetches first.
    Without an avatar the command makes these two calls and, when the
    second is answered OK, confirms in one line. *)
Theorem settings_form (name user bio : string) (rest : list string)
  (w : World) (c u : value) (r1 r2 : Response) (current : string) :
  stored_cookie w = Some c ->
  loose_eq_str c "unknown" = Some false ->
  server w (calls (trace w)) (me_request c) = Respond r1 ->
  ok r1 = true ->
  JSON.parse (text r1) = Some u ->
  nullish u = false ->
  (is_none name = true ->
   exists v, profile_value u 3 = Some v /\ to_string v = Some current) ->
  let form :=
    [("name", FormText (if is_none name then current else name))]
    ++ (if is_none user then [] else [("username", FormText user)])
    ++ (if is_none bio then []
        else [("bio", FormText (append_rest bio rest))]) in
  let post := {| url := "https://rugplay.com/api/settings";
                 method := "POST"; headers := request_headers c;
                 body := FormBody form |} in
  server w (S (calls (trace w))) post = Respond r2 ->
  ok r2 = true ->
  cmd_settings (name :: user :: "none" :: bio :: rest)%string w =
  (Ok tt,
   emits [Fetch (me_request c); Fetch post;
          Log [Tpl [Chalk green_bright [Txt "Updated settings"]]]] w).
Proof.
  intros Hc Hset Hs1 Hok1 Hj Hu Hname form post Hs2 Hok2.
  set (w1 := emit (Fetch (me_request c)) w).
  assert (N : calls (trace w1) = S (calls (trace w))).
  { unfold w1, emit. cbn [trace]. rewrite calls_app. cbn. lia. }
  unfold cmd_settings. run (me_Ok w c r1 u Hc Hs1 Hok1 Hj). fold w1.
  rewrite Hu.
  assert (Fname : (if negb (is_none name) then ret [("name", FormText name)]
                   else
                     v <- profile_field u 3 ;;
                     t <- splice v ;;
                     ret [("name", FormText t)]) w1
                  = (Ok [("name",
                          FormText (if is_none name then current else name))],
                     w1)).
  { destruct (is_none name); [| reflexivity]. cbn [negb].
    destruct (Hname eq_refl) as (v & Hv & Ht).
    run (profile_field_Ok u 3 v w1 Hv). run (splice_Ok v current w1 Ht).
    reflexivity. }
  run Fname. change (is_none "none") with true. cbn [negb].
  unfold bind at 1. cbn [ret app].
  assert (A : forall body',
            body' = FormBody form ->
            api_req "settings" "POST" body' w1
            = (Ok (Some r2), emit (Fetch post) w1)).
  { intros body' ->. rewrite (api_req_set _ _ _ w1 c Hc Hset). cbv zeta.
    cbn [append]. fold post. rewrite N.
    change (server w1) with (server w). now rewrite Hs2. }
  erewrite bind_Ok.
  2:{ apply A. unfold form. cbn [app].
      destruct (is_none user), (is_none bio); reflexivity. }
  unfold on_ok. rewrite Hok2. rewrite log_Ok by reflexivity.
  unfold w1. rewrite !emit_is_emits, !emits_emits. reflexivity.
Qed.

(** X20.  [me] asks for the profile page whatever the cookie is, the
    sentinel included: the Gateway's guard is not on this path.  An
    answer that is not OK is reported like one of the Gateway; an
    answer that is JSON [null] prints nothing; otherwise the command
    prints the display name, the user name and the eleventh entry of
    the page data, which must all be there. *)
Theorem me_prints_profile (args : list string) (w : World) (c : value)
  (r : Response) :
  stored_cookie w = Some c ->
  server w (calls (trace w)) (me_request c) = Respond r ->
  (ok r = false ->
   cmd_me args w =
   (Ok tt, emits [Fetch (me_request c); Log api_error_line;
                  Log [Raw (VStr (text r))]] w))
  /\ (ok r = true -> JSON.parse (text r) = Some VNull ->
      cmd_me args w = (Ok tt, emits [Fetch (me_request c)] w))
  /\ (forall u d3 d4 d10,
        ok r = true -> JSON.parse (text r) = Some u -> nullish u = false ->
        profile_value u 3 = Some d3 ->
        profile_value u 4 = Some d4 ->
        profile_value u 10 = Some d10 ->
        forallb doc_ok [Str d3; Str d4; Str d10] = true ->
        cmd_me args w =
        (Ok tt,
         emits [Fetch (me_request c);
                Log [Tpl [Chalk bold [Str d3]; Txt " ";
                          Chalk italic [Txt "(@"; Str d4; Txt ")"];
                          Txt nl; Str d10]]] w)).
Proof.
  intros Hc Hs. split; [| split].
  - intros Hok. unfold cmd_me. run (me_not_ok w c r Hc Hs Hok). reflexivity.
  - intros Hok Hj. unfold cmd_me. run (me_Ok w c r VNull Hc Hs Hok Hj).
    reflexivity.
  - intros u d3 d4 d10 Hok Hj Hu H3 H4 H10 Hd. unfold cmd_me.
    run (me_Ok w c r u Hc Hs Hok Hj). rewrite Hu.
    set (w1 := emit (Fetch (me_request c)) w).
    run (profile_field_Ok u 3 d3 w1 H3).
    run (profile_field_Ok u 4 d4 w1 H4).
    run (profile_field_Ok u 10 d10 w1 H10).
    cbn [forallb] in Hd.
    apply andb_prop in Hd as [D3 Hd]. apply andb_prop in Hd as [D4 Hd].
    apply andb_prop in Hd as [D10 _].
    rewrite log_Ok
      by (cbn [forallb doc_ok] in *; now rewrite D3, D4, D10).
    unfold w1. rewrite !emit_is_emits, !emits_emits. reflexivity.
Qed.

(** ** What the commands print *)

(** X21.  [commands] prints its heading and then one line for every
    entry of the registry, in the order of registration: the name, the
    parameter names joined by a comma and a space, and the
    description.  The registry holds seventeen commands under
    seventeen different names; the command makes no call and cannot
    fail. *)
Theorem commands_listed (arguments : list string) (w : World) :
  cmd_commands arguments w =
  (Ok tt,
   emits (Log [Tpl [Txt "Available commands:"]] :: map command_line commands)
     w)
  /\ NoDup (map fst commands)
  /\ List.length commands = 17%nat
  /\ calls (Log [Tpl [Txt "Available commands:"]]
            :: map command_line commands) = 0%nat.
Proof.
  split; [| split; [| split]].
  - unfold cmd_commands.
    erewrite bind_Ok; [| apply log_Ok; reflexivity].
    cbn [for_each signatures].
    repeat (erewrite bind_Ok; [| apply console_log_Ok; reflexivity]).
    cbn [ret]. rewrite !emit_is_emits, !emits_emits. reflexivity.
  - cbn. repeat constructor; cbn; intuition discriminate.
  - reflexivity.
  - reflexivity.
Qed.

(** X22.  After a wager ([coinflip] and [slots]) the answer's [won]
    decides: when it is not truthy (false, missing, zero, empty) the
    command prints that the user lost and the new balance [x] as
    [Math.round(x*1000)/1000], computed in doubles, with the stake as
    the command parsed it; when it is truthy, that the user won and the
    new balance in the same form with the payout as the server gave
    it. *)
Theorem wager_reported (json won : value) (amount x : number) (w : World) :
  get_prop json "won" = Some won ->
  get_prop json "newBalance" = Some (VNum x) ->
  let balance :=
    Num.div (Num.round (Num.mul x (of_Z 1000))) (of_Z 1000) in
  (truthy won = false ->
   wager_result json amount w =
   (Ok tt,
    emits [Log [Tpl [Txt "You "; Chalk red_bright [Txt "lost"]; Txt "."]];
           Log [Tpl [Txt "New balance: "; Chalk yellow_bright [Txt "$"];
                     Chalk yellow [Str (VNum balance)];
                     Txt " (-"; Chalk red_bright [Str (VNum amount)];
                     Txt ")"]]] w))
  /\ (forall payout,
        truthy won = true ->
        get_prop json "payout" = Some payout ->
        doc_ok (Str payout) = true ->
        wager_result json amount w =
        (Ok tt,
         emits [Log [Tpl [Txt "You "; Chalk green_bright [Txt "won"];
                          Txt "!"]];
                Log [Tpl [Txt "New balance: "; Chalk yellow_bright [Txt "$"];
                          Chalk yellow [Str (VNum balance)];
                          Txt " (+"; Chalk yellow_bright [Str payout];
                          Txt ")"]]] w)).
Proof.
  intros Hw Hb balance. fold (rounded3 x) in balance. split.
  - intros Hl. unfold wager_result. run (prop_Ok _ _ _ w Hw). rewrite Hl.
    cbn [negb].
    erewrite bind_Ok; [| apply log_Ok; reflexivity].
    erewrite bind_Ok; [| apply prop_Ok; exact Hb].
    erewrite bind_Ok; [| apply round3_Ok; reflexivity].
    rewrite log_Ok by reflexivity.
    rewrite !emit_is_emits, !emits_emits. reflexivity.
  - intros payout Ht Hp Hd. unfold wager_result. run (prop_Ok _ _ _ w Hw).
    rewrite Ht. cbn [negb].
    erewrite bind_Ok; [| apply log_Ok; reflexivity].
    erewrite bind_Ok; [| apply prop_Ok; exact Hb].
    erewrite bind_Ok; [| apply round3_Ok; reflexivity].
    erewrite bind_Ok; [| apply prop_Ok; exact Hp].
    rewrite log_Ok by docs_ok.
    rewrite !emit_is_emits, !emits_emits. reflexivity.
Qed.

(** One order of [buy-coin] or [sell-coin] that the server accepts. *)
Lemma trade_Ok type verb sign st coin amount w c resp result sold nb :
  stored_cookie w = Some c ->
  loose_eq_str c "unknown" = Some false ->
  (forall r, server w (calls (trace w)) r = Respond resp) ->
  ok resp = true ->
  JSON.parse (text resp) = Some result ->
  get_prop result "coinsSold" = Some sold ->
  get_prop result "newBalance" = Some nb ->
  doc_ok (Str sold) = true ->
  doc_ok (Str nb) = true ->
  trade type verb sign st [coin; amount] w =
  (Ok tt,
   emits [Fetch {| url := "https://rugplay.com/api/coin/" ++ coin ++ "/trade";
                   method := "POST"; headers := request_headers c;
                   body := json_body
                             (VObj [("type", VStr type);
                                    ("amount", VNum (parseFloat amount))]) |};
          Log [Tpl [Txt verb; Txt " "; Str sold; Txt " ";
                    Chalk bg_white [Txt coin]; Txt " ";
                    Chalk green_bright [Txt "successfully"]; Txt "."]];
          Log [Tpl [Txt "New balance: "; Chalk yellow [Txt "$"];
                    Chalk yellow_bright [Str nb]; Txt " ("; Txt sign;
                    Chalk st [Txt amount]; Txt ")"]]] w).
Proof.
  intros Hc Hset Hs Hok Hj Hsold Hnb Ds Dn. unfold trade.
  unfold bind at 1. rewrite (api_req_set _ _ _ _ _ Hc Hset). cbv zeta.
  rewrite Hs. unfold on_ok. rewrite Hok.
  erewrite bind_Ok; [| apply json_of_Ok; exact Hj].
  erewrite bind_Ok; [| apply prop_Ok; exact Hsold].
  erewrite bind_Ok;
    [| apply log_Ok; cbn [forallb doc_ok] in *; now rewrite Ds].
  erewrite bind_Ok; [| apply prop_Ok; exact Hnb].
  rewrite log_Ok by (cbn [forallb doc_ok] in *; now rewrite Dn).
  rewrite !emit_is_emits, !emits_emits. reflexivity.
Qed.

(** X23.  [buy-coin] and [sell-coin] with a symbol and an amount post
    one order of the type [BUY] or [SELL] to the trade endpoint of the
    symbol, with the amount as [parseFloat] reads it.  When the order
    is accepted they print two lines: what was bought or sold, from
    the answer's [coinsSold] in both cases, and the new balance with
    the amount as the user typed it. *)
Theorem trade_reported (coin amount : string) (w : World) (c : value)
  (resp : Response) (result sold nb : value) :
  stored_cookie w = Some c ->
  loose_eq_str c "unknown" = Some false ->
  (forall r, server w (calls (trace w)) r = Respond resp) ->
  ok resp = true ->
  JSON.parse (text resp) = Some result ->
  get_prop result "coinsSold" = Some sold ->
  get_prop result "newBalance" = Some nb ->
  doc_ok (Str sold) = true ->
  doc_ok (Str nb) = true ->
  let order type :=
    Fetch {| url := "https://rugplay.com/api/coin/" ++ coin ++ "/trade";
             method := "POST"; headers := request_headers c;
             body := json_body
                       (VObj [("type", VStr type);
                              ("amount", VNum (parseFloat amount))]) |} in
  let done verb :=
    Log [Tpl [Txt verb; Txt " "; Str sold; Txt " ";
              Chalk bg_white [Txt coin]; Txt " ";
              Chalk green_bright [Txt "successfully"]; Txt "."]] in
  let balance sign st :=
    Log [Tpl [Txt "New balance: "; Chalk yellow [Txt "$"];
              Chalk yellow_bright [Str nb]; Txt " ("; Txt sign;
              Chalk st [Txt amount]; Txt ")"]] in
  cmd_buy_coin [coin; amount] w =
  (Ok tt, emits [order "BUY"%string; done "Bought"%string;
                 balance "-"%string red_bright] w)
  /\ cmd_sell_coin [coin; amount] w =
     (Ok tt, emits [order "SELL"%string; done "Sold"%string;
                    balance "+"%string green_bright] w).
Proof.
  intros Hc Hset Hs Hok Hj Hsold Hnb Ds Dn order done balance.
  split; [unfold cmd_buy_coin | unfold cmd_sell_coin];
    now apply trade_Ok with resp result.
Qed.

(** X24.  [redeem] posts the code under the key [code]; typed without
    a code it posts an empty object, since [JSON.stringify] leaves out
    a property that is [undefined].  When the answer is OK it hands
    the answer's [message] to the console as it is. *)
Theorem redeem_sends_code (arguments : list string) (w : World) (c : value)
  (resp : Response) (json m : value) :
  stored_cookie w = Some c ->
  loose_eq_str c "unknown" = Some false ->
  let body :=
    match arguments with
    | [] => TextBody "{}"
    | code :: _ =>
        TextBody ("{" ++ JSON.quote "code" ++ ":" ++ JSON.quote code ++ "}")
    end in
  let r := {| url := "https://rugplay.com/api/promo/verify";
              method := "POST"; headers := request_headers c;
              body := body |} in
  server w (calls (trace w)) r = Respond resp ->
  ok resp = true ->
  JSON.parse (text resp) = Some json ->
  get_prop json "message" = Some m ->
  cmd_redeem arguments w = (Ok tt, emits [Fetch r; Log [Raw m]] w).
Proof.
  intros Hc Hset body r Hs Hok Hj Hm. unfold cmd_redeem.
  assert (B : json_body (VObj [("code", arg_value (fst (shift arguments)))])
              = body).
  { destruct arguments as [| code rest]; [reflexivity |].
    unfold json_body, body. cbn. now rewrite append_nil_r. }
  destruct (shift arguments) as [code rest]. cbn [fst] in B. rewrite B.
  unfold bind at 1. rewrite (api_req_set _ _ _ _ _ Hc Hset). cbv zeta.
  cbn [append]. fold r. rewrite Hs. unfold on_ok. rewrite Hok.
  erewrite bind_Ok; [| apply json_of_Ok; exact Hj].
  erewrite bind_Ok; [| apply prop_Ok; exact Hm].
  rewrite console_log_Ok by reflexivity.
  rewrite !emit_is_emits, !emits_emits. reflexivity.
Qed.

(** X25.  [new-coin] reads the icon before it turns to the Gateway.
    When the file cannot be read it prints two lines, the complaint and
    the error, and makes no call and gives no warning, cookie or not.
    When it can, and a cookie is set, it posts a form with the name,
    the symbol and the file, in this order, and reports an answer that
    is OK in one line.  The file goes with the type a [File] keeps of
    [image/] and the extension: in lower case when the extension has
    only the characters U+0020 to U+007E, and empty otherwise. *)
Theorem new_coin_form (name symbol icon : string) (w : World) :
  (lookup_file icon (files w) = None ->
   cmd_new_coin [name; symbol; icon] w =
   (Ok tt,
    emits [Log [Tpl [Chalk red_bright [Txt "Error whilst creating logo file"];
                     Txt ":"]];
           Log [RawError (NotFound icon)]] w))
  /\ (forall e c resp json coin sym fee msg,
        lookup_file icon (files w) = Some e ->
        readable w icon = true ->
        stored_cookie w = Some c ->
        loose_eq_str c "unknown" = Some false ->
        let ext := last_piece "." icon in
        let file := {| file_name := last_piece "/" icon;
                       file_type := if plain ext
                                    then "image/" ++ lowercase ext
                                    else EmptyString;
                       file_bytes := content e;
                       lastModified := match mtime e with
                                       | Some t => t
                                       | None => clock w
                                       end |} in
        let r := {| url := "https://rugplay.com/api/coin/create";
                    method := "POST"; headers := request_headers c;
                    body := FormBody [("name", FormText name);
                                      ("symbol", FormText symbol);
                                      ("icon", FormFile file)] |} in
        server w (calls (trace w)) r = Respond resp ->
        ok resp = true ->
        JSON.parse (text resp) = Some json ->
        get_prop json "coin" = Some coin ->
        get_prop coin "symbol" = Some sym ->
        get_prop json "feePaid" = Some fee ->
        get_prop json "message" = Some msg ->
        forallb doc_ok [Str sym; Str fee; Str msg] = true ->
        cmd_new_coin [name; symbol; icon] w =
        (Ok tt,
         emits [Fetch r;
                Log [Tpl [Chalk green_bright [Txt "Created"]; Txt " ";
                          Chalk bg_white [Str sym]; Txt " (-";
                          Chalk red_bright [Str fee]; Txt ")"; Txt nl;
                          Str msg]]] w)).
Proof.
  split.
  - intros L. unfold cmd_new_coin. unfold bind at 1. unfold try_catch.
    unfold bind at 1. unfold mk_file at 1. unfold bind at 1.
    unfold readTextFileSync at 1. rewrite L.
    erewrite bind_Ok; [| apply log_Ok; reflexivity].
    erewrite bind_Ok; [| apply console_log_Ok; reflexivity].
    cbn [ret]. rewrite !emit_is_emits, !emits_emits. reflexivity.
  - intros e c resp json coin sym fee msg L R Hc Hset ext file r Hs Hok Hj
      Hcoin Hsym Hfee Hmsg Hd.
    assert (F : mk_file icon w = (Ok file, w)).
    { unfold mk_file, bind, readTextFileSync, statSync, get, ret.
      rewrite L, R. cbn [content]. rewrite L.
      rewrite blob_type_image. reflexivity. }
    unfold cmd_new_coin. unfold bind at 1. unfold try_catch.
    unfold bind at 1. rewrite F. cbn [ret].
    unfold bind at 1. rewrite (api_req_set _ _ _ _ _ Hc Hset). cbv zeta.
    cbn [append]. fold r. rewrite Hs. unfold on_ok. rewrite Hok.
    erewrite bind_Ok; [| apply json_of_Ok; exact Hj].
    erewrite bind_Ok; [| apply (props2_Ok _ _ _ _ _ _ Hcoin Hsym)].
    erewrite bind_Ok; [| apply prop_Ok; exact Hfee].
    erewrite bind_Ok; [| apply prop_Ok; exact Hmsg].
    cbn [forallb] in Hd.
    apply andb_prop in Hd as [D1 Hd]. apply andb_prop in Hd as [D2 Hd].
    apply andb_prop in Hd as [D3 _].
    rewrite log_Ok by (cbn [forallb doc_ok] in *; now rewrite D1, D2, D3).
    rewrite !emit_is_emits, !emits_emits. reflexivity.
Qed.

(** X26.  The two lists of transactions, of [portfolio] and of
    [view-user], print a line for the types [BUY], [SELL],
    [TRANSFER_IN] and [TRANSFER_OUT] only: the [switch] has no default,
    so a transaction of any other type, or whose type is no string, is
    passed over without a line and without an error. *)
Theorem other_transactions_skipped (t type : value) (w : World) :
  get_prop t "type" = Some type ->
  (forall s, type = VStr s ->
     ~ In s ["BUY"; "TRANSFER_OUT"; "SELL"; "TRANSFER_IN"]%string) ->
  portfolio_transaction t w = (Ok tt, w)
  /\ recent_transaction t w = (Ok tt, w).
Proof.
  intros Ht Hs.
  assert (N : forall k,
            In k ["BUY"; "TRANSFER_OUT"; "SELL"; "TRANSFER_IN"]%string ->
            strict_eq_str type k = false).
  { intros k Hk. destruct type; try reflexivity. cbn.
    apply String.eqb_neq. intros ->. now apply (Hs k). }
  split; [unfold portfolio_transaction | unfold recent_transaction];
    run (prop_Ok _ _ _ w Ht);
    rewrite !N by (cbn; tauto); reflexivity.
Qed.

(** ** The header of the created coins *)

Lemma bracket_NaN rest : StringToNumber (String "[" rest) = NaN.
Proof.
  assert (T : forall r, trim_start (String "[" r) = String "[" r)
    by reflexivity.
  assert (E : trim_end (String "[" rest) = String "[" (trim_end rest)).
  { cbn [trim_end]. unfold all_ws. now rewrite T. }
  unfold StringToNumber, trim. rewrite T, E. reflexivity.
Qed.

Lemma plain_to_string v : plain_object v -> to_string v = Some "[object Object]"%string.
Proof. intros (fields & -> & H). cbn. now rewrite H. Qed.

Lemma array_of_objects_text l :
  Forall plain_object l ->
  l = [] \/ exists rest, to_string (VArr l) = Some (String "[" rest).
Proof.
  induction 1 as [| x l Hx Hl IH]; [now left |]. right.
  pose proof (plain_to_string x Hx) as Tx.
  destruct Hx as (fields & -> & Hf).
  destruct IH as [-> | (rest & Hr)].
  - cbn in *. rewrite Hf. eexists. reflexivity.
  - destruct l as [| y l]; [discriminate Hr |].
    cbn [to_string] in *. rewrite Hf. rewrite Hr. eexists. reflexivity.
Qed.

(** The comparison [json.createdCoins > 0] on an array of objects. *)
Lemma gt_array_of_objects l :
  Forall plain_object l -> gt_num (VArr l) (Fin 0) = Some false.
Proof.
  intros H. destruct (array_of_objects_text l H) as [-> | (rest & Hr)].
  - reflexivity.
  - unfold gt_num, to_number. rewrite Hr. cbn [option_map].
    now rewrite bracket_NaN.
Qed.

Lemma bounded_ret f {A} (a : A) : bounded f 0 (ret a).
Proof. intros w. exists []. split; [now rewrite app_nil_r | cbn; lia]. Qed.

Lemma bounded_typed f {A} (o : option A) : bounded f 0 (typed o).
Proof.
  intros w. exists []. split; [| cbn; lia].
  destruct o; now rewrite app_nil_r.
Qed.

Lemma bounded_console_no f args :
  f (Log args) = false -> bounded f 0 (console_log args).
Proof.
  intros H w. unfold console_log. destruct (forallb arg_ok args).
  - exists [Log args]. split; [reflexivity |]. cbn. now rewrite H.
  - exists []. split; [now rewrite app_nil_r | cbn; lia].
Qed.

Lemma bounded_for_each f {A} (l : list A) (g : A -> M unit) :
  (forall a, bounded f 0 (g a)) -> bounded f 0 (for_each l g).
Proof.
  intros H. induction l as [| x l IH]; cbn [for_each].
  - apply bounded_ret.
  - apply (bounded_bind f 0 0); [apply H | intros _; exact IH].
Qed.

(** A step whose result is known and that leaves the world alone. *)
Lemma bounded_known f n {A B} (m : M A) (a : A) (k : A -> M B) :
  (forall w, m w = (Ok a, w)) -> bounded f n (k a) -> bounded f n (bind m k).
Proof. intros Hm Hk w. unfold bind. rewrite Hm. apply Hk. Qed.

(** The steps that add no event of the kind [f]. *)
Ltac none_of :=
  repeat first
    [ apply bounded_ret
    | apply bounded_typed
    | apply bounded_console_no; reflexivity
    | apply (bounded_bind _ 0 0); [| intros ]
    | apply bounded_for_each; intros
    | match goal with
      | |- bounded _ _ (match ?x with _ => _ end) => destruct x
      | |- bounded _ _ (if ?b then _ else _) => destruct b
      end ].

(** X27.  [view-user] guards the column header of its created coins
    by comparing the list itself with zero.  For a list of objects, as
    the server sends it, that comparison is false whatever the length
    of the list: the header is never printed. *)
Theorem created_header_never_shown (json : value) (l : list value)
  (w : World) :
  get_prop json "createdCoins" = Some (VArr l) ->
  Forall plain_object l ->
  gt_num (VArr l) (Fin 0) = Some false
  /\ exists es,
       trace (snd (view_user_tables json w)) = trace w ++ es
       /\ forall e, In e es -> is_created_header e = false.
Proof.
  intros Hc Hl. split; [now apply gt_array_of_objects |].
  assert (B : bounded is_created_header 0 (view_user_tables json)).
  { unfold view_user_tables.
    apply (bounded_bind _ 0 0); [none_of | intros n].
    apply (bounded_bind _ 0 0); [none_of | intros _].
    apply (bounded_known _ _ _ (VArr l)); [intros w0; now apply prop_Ok |].
    apply (bounded_known _ _ _ false).
    { intros w0. now rewrite (gt_array_of_objects l Hl). }
    cbv iota. unfold created_coin, recent_transaction. none_of. }
  destruct (B w) as (es & He & Hn). exists es. split; [exact He |].
  intros e Hin. destruct (is_created_header e) eqn:E; [| reflexivity].
  assert (Hf : In e (filter is_created_header es))
    by (apply filter_In; now split).
  destruct (filter is_created_header es); [contradiction | cbn in Hn; lia].
Qed.

(** ** A configuration file that holds no object *)

(** X28.  The start of the script takes whatever JSON value the
    configuration file holds, an object or not, and prints and writes
    nothing.  When that value is [null], reading [config.cookie] is a
    TypeError: every call of the Gateway, the profile request and
    [set-cookie] itself end in it, before any request is made and
    before anything is printed or saved. *)
Theorem startup_takes_any_json (w : World) :
  (forall e v,
     lookup_file (config_path w) (files w) = Some e ->
     readable w (config_path w) = true ->
     JSON.parse (content e) = Some v ->
     startup w = (Ok tt, set_config v w))
  /\ (config w = VNull ->
      (forall api method body,
         api_req api method body w = (Throw TypeError, w))
      /\ me w = (Throw TypeError, w)
      /\ (forall arguments, cmd_set_cookie arguments w = (Throw TypeError, w))).
Proof.
  split.
  - intros e v L R P. unfold startup, bind at 1. cbn [modify].
    unfold try_catch, bind.
    now rewrite (readConfig_Ok (set_config default_config w) e v L R P).
  - intros Hn. split; [| split].
    + intros api method body.
      unfold api_req, config_cookie, bind, get. now rewrite Hn.
    + unfold me, config_cookie, bind, get. now rewrite Hn.
    + intros arguments.
      unfold cmd_set_cookie, set_config_cookie, bind, get. now rewrite Hn.
Qed.

(** ** Currency *)



End Properties.

(* ================================================================== *)
(** * The properties at work *)
(* ================================================================== *)

Section Instances.
Import Examples.
#[local] Existing Instance plain_host.

Lemma sentinel_cookie_guard_witness :
  cookie_unknown anonymous
  /\ (exists es,
        cmd_invest ["100"; "20"]%string anonymous = (Ok tt, emits es anonymous)
        /\ calls es = 0%nat /\ warnings es = 1%nat)
  /\ cmd_portfolio [] anonymous
     = (Ok tt, emits [Log unauthenticated; Log unauthenticated] anonymous).
Proof.
  assert (H : cookie_unknown anonymous) by reflexivity.
  destruct (sentinel_cookie_guard anonymous H) as (_ & S & P & _ & _ & _).
  split; [exact H |]. split; [| apply P].
  apply (S "invest"%string cmd_invest ["100"; "20"]%string).
  - simpl. tauto.
  - reflexivity.
Defined.

(** C1 as stated fails: without a cookie [portfolio] prints the warning
    twice, and [settings] makes a network call. *)
Lemma portfolio_warns_twice :
  cookie_unknown anonymous
  /\ In "portfolio"%string gateway_commands
  /\ In "settings"%string gateway_commands
  /\ warnings (trace (snd (cmd_portfolio [] anonymous))) = 2%nat
  /\ calls (trace (snd (cmd_settings ["Ann"; "ann"; "none"; "hi"]%string
                          anonymous))) = 1%nat.
Proof.
  split; [reflexivity |]. split; [simpl; tauto |]. split; [simpl; tauto |].
  split; vm_compute; reflexivity.
Qed.

Lemma unknown_command_reported_witness :
  repl_step "foobar now" anonymous
  = (Ok tt,
     emit (Log [Tpl [Chalk red_bright [Txt "Command"]; Txt " ";
                     Chalk green [Txt (quoted "foobar")]; Txt " ";
                     Chalk red_bright [Txt "does not exist"];
                     Txt ". Type 'commands' to list commands."]])
       anonymous).
Proof.
  apply (unknown_command_reported "foobar now" [] anonymous). reflexivity.
Defined.

Lemma market_defaults_witness :
  exists rest,
    trace (snd (cmd_market [] five_coins)) =
    trace five_coins
    ++ Fetch {| url := "https://rugplay.com/api/market?search=&sortBy=marketCap&sortOrder=desc&priceFilter=all&changeFilter=all&page=1&limit=6";
                method := "GET";
                headers := request_headers (VStr "abc");
                body := NoBody |} :: rest.
Proof.
  apply (market_defaults five_coins (VStr "abc")); reflexivity.
Defined.

Lemma coinflip_defaults_witness :
  (exists rest,
     trace (snd (cmd_coinflip ["0"%string] five_coins)) =
     trace five_coins
     ++ Fetch {| url := "https://rugplay.com/api/gambling/coinflip";
                 method := "POST";
                 headers := request_headers (VStr "abc");
                 body := TextBody
                           ("{" ++ quoted "side" ++ ":" ++ quoted "heads"
                            ++ "," ++ quoted "amount" ++ ":0.01}") |}
        :: rest)
  /\ parseFloat (nth 1 ["0"%string] "0.01"%string)
     = Fin (5764607523034235 # 576460752303423488).
Proof.
  destruct (coinflip_defaults five_coins (VStr "abc") ["0"%string])
    as (A & B).
  - reflexivity.
  - reflexivity.
  - simpl. discriminate.
  - split; [exact A |]. apply B. simpl. lia.
Defined.

Lemma change_direction_witness :
  exists d,
    dayChange (VNum (Fin (3 # 2))) anonymous = (Ok d, anonymous)
    /\ d = Chalk bg_green [Txt "^ "; Str (VNum (Fin (3 # 2)))].
Proof.
  destruct (change_direction (Fin (3 # 2)) (3 # 2) anonymous eq_refl)
    as ((d & E & _ & _ & _ & P & _) & _).
  exists d. split; [exact E |]. apply P. reflexivity.
Defined.

(** The rows of the three tables show their change values through
    [dayChange]. *)
Example rows_show_direction :
  map directions
    (trace (snd (market_row (VObj [("change24h", VNum (Fin (-3 # 2)))])
                   anonymous)))
  = [[Negative]]
  /\ map directions
       (trace (snd (holding_row
                      (VObj [("percentageChange", VNum (Fin 2));
                             ("change24h", VNum (Fin 0))]) anonymous)))
     = [[Positive; Zero]]
  /\ map directions
       (trace (snd (created_coin (VObj [("change24h", VNum (Fin 7))])
                      anonymous)))
     = [[Positive]].
Proof. repeat split; vm_compute; reflexivity. Qed.

Lemma slot_lookup_witness :
  obj_get slot_record "cherry" = VUndef.
Proof.
  destruct slot_lookup as (_ & U & _). apply U.
  - simpl. intros H. repeat (destruct H as [H | H]; [discriminate H |]).
    exact H.
  - reflexivity.
Defined.

(** C7 as stated fails: [constructor] is none of the six identifiers,
    and its lookup is not [undefined]. *)
Lemma slot_lookup_inherited :
  ~ In "constructor"%string slot_names
  /\ obj_get slot_record "constructor" = VNative "constructor"
  /\ obj_get slot_record "constructor" <> VUndef.
Proof.
  split; [| split; [reflexivity | discriminate]].
  simpl. intros H. repeat (destruct H as [H | H]; [discriminate H |]).
  exact H.
Qed.



(** The quotient is the one of doubles: a budget of 0.3 and an amount
    of 0.1 count two purchases, as 0.3/0.1 is 2.9999999999999996; and a
    budget of 3.0000000000000004 with an amount of 1.0000000000000002
    counts three, which cost more than the budget. *)
Example invest_counts_in_doubles :
  Num.floor (Num.div (parseFloat "0.3") (parseFloat "0.1")) = of_Z 2
  /\ Number_toString (Num.div (parseFloat "0.3") (parseFloat "0.1"))
     = "2.9999999999999996"%string
  /\ Num.floor (Num.div (parseFloat "3.0000000000000004")
                  (parseFloat "1.0000000000000002")) = of_Z 3
  /\ (exists b a,
        parseFloat "3.0000000000000004" = Fin b
        /\ parseFloat "1.0000000000000002" = Fin a
        /\ (b < 3 * a)%Q).
Proof.
  split; [vm_compute; reflexivity |]. split; [vm_compute; reflexivity |].
  split; [vm_compute; reflexivity |].
  eexists. eexists. split; [vm_compute; reflexivity |].
  split; [vm_compute; reflexivity |]. vm_compute. reflexivity.
Qed.

Lemma startup_config_witness :
  (startup configured
   = (Ok tt, set_config (VObj [("cookie", VStr "abc")]) configured))
  /\ (let w := fresh (always (ok_with "{}")) in
      exists err,
        fst (startup w) = Ok tt
        /\ config (snd (startup w)) = VObj [("cookie", VStr "unknown")]
        /\ lookup_file config_file (files (snd (startup w)))
           = Some {| content :=
                       "{" ++ quoted "cookie" ++ ":" ++ quoted "unknown"
                       ++ "}";
                     mtime := Some (Fin 0) |}
        /\ trace (snd (startup w)) =
           [ Log [Tpl [Txt "Couldn't read configuration file:"]];
             Log [RawError err];
             Log [Tpl [Txt "Wrote default file."]] ]).
Proof.
  split.
  - destruct (startup_config configured) as (A & _).
    apply (A {| content := object_text [("cookie", text_of "abc")];
                mtime := None |} [("cookie", VStr "abc")] "abc"%string);
      reflexivity.
  - intros w. destruct (startup_config w) as (_ & B).
    destruct B as (err & C & _ & T & S).
    + vm_compute. exact I.
    + destruct S as (R & F & _); [reflexivity |].
      exists err. split; [exact R |]. split; [exact C |].
      split; [exact F | exact T].
Defined.

(** C3 as stated fails: with no configuration file and a file system
    that refuses the write, the start reports the failure, the write
    throws, nothing is written and the script stops there. *)
Lemma startup_write_refused :
  config_unusable read_only
  /\ fst (startup read_only) = Throw (PermissionDenied config_file)
  /\ files (snd (startup read_only)) = []
  /\ List.length (trace (snd (startup read_only))) = 3%nat.
Proof.
  split; [vm_compute; exact I |]. repeat split; vm_compute; reflexivity.
Qed.

Lemma save_load_roundtrip_witness :
  exists w1,
    cmd_set_cookie ["abc123"%string] anonymous = (Ok tt, w1)
    /\ exists w2, startup w1 = (Ok tt, w2)
                  /\ stored_cookie w2 = Some (VStr "abc123").
Proof.
  destruct (save_load_roundtrip anonymous "abc123") as (_ & S).
  - reflexivity.
  - reflexivity.
  - apply (S (VStr "unknown") []). reflexivity.
Defined.



Lemma commands_only_add_events_witness :
  exists es,
    snd (cmd_market ["2"; "dog"]%string five_coins) = emits es five_coins
    /\ config (snd (cmd_market ["2"; "dog"]%string five_coins))
       = config five_coins
    /\ files (snd (cmd_market ["2"; "dog"]%string five_coins))
       = files five_coins
    /\ dirs (snd (cmd_market ["2"; "dog"]%string five_coins))
       = dirs five_coins.
Proof.
  apply (commands_only_add_events "market" cmd_market ["2"; "dog"]%string
           five_coins); [reflexivity | discriminate].
Defined.

Lemma requests_carry_cookie_witness :
  exists es,
    trace (snd (cmd_portfolio [] five_coins)) = trace five_coins ++ es
    /\ forall r, In (Fetch r) es ->
         exists c, stored_cookie five_coins = Some c /\ on_site c r.
Proof.
  apply (requests_carry_cookie "portfolio" cmd_portfolio [] five_coins).
  reflexivity.
Defined.

Lemma call_bounds_witness :
  exists es,
    trace (snd (cmd_settings ["Ann"; "ann"; "none"; "hi"]%string five_coins))
    = trace five_coins ++ es
    /\ (calls es <= 2)%nat.
Proof.
  apply (call_bounds "settings" cmd_settings
           ["Ann"; "ann"; "none"; "hi"]%string five_coins);
    [reflexivity | discriminate].
Defined.


Lemma api_error_reported_witness :
  exists r,
    on_site (VStr "abc") r
    /\ cmd_summary [] refusing =
       (Ok tt,
        emits [Fetch r; Log api_error_line; Log [Raw (VStr "Forbidden")]]
          refusing).
Proof.
  apply (api_error_reported "summary" cmd_summary [] refusing (VStr "abc")
           forbidden); try reflexivity.
  simpl. tauto.
Defined.

Lemma network_failure_ends_session_witness :
  exists r,
    on_site (VStr "abc") r
    /\ cmd_market ["1"%string] unplugged
       = (Throw (NetworkError "connection refused"), emits [Fetch r] unplugged)
    /\ repl ["market 1"; "summary"]%string unplugged
       = (Throw (NetworkError "connection refused"),
          emits [Fetch r] unplugged).
Proof.
  apply (network_failure_ends_session "market" cmd_market ["1"%string]
           unplugged (VStr "abc") (NetworkError "connection refused")
           "market 1" ["summary"%string]); try reflexivity.
  simpl. tauto.
Defined.

Lemma portfolio_needs_both_witness :
  cmd_portfolio [] refusing =
  (Ok tt,
   emits [Fetch {| url := "https://rugplay.com/api/portfolio/total";
                   method := "GET"; headers := request_headers (VStr "abc");
                   body := NoBody |};
          Fetch {| url := "https://rugplay.com/api/transactions";
                   method := "GET"; headers := request_headers (VStr "abc");
                   body := NoBody |};
          Log api_error_line; Log [Raw (VStr "Forbidden")]] refusing).
Proof.
  destruct (portfolio_needs_both [] refusing (VStr "abc") forbidden forbidden)
    as [A _].
  - reflexivity.
  - reflexivity.
  - reflexivity.
  - reflexivity.
  - apply A. reflexivity.
Defined.

Lemma prompt_reaches_handler_witness :
  split_on " " "coinflip 1 5" = ["coinflip"; "1"; "5"]%string
  /\ repl_step "coinflip 1 5" five_coins
     = cmd_coinflip ["1"; "5"]%string five_coins.
Proof.
  assert (H := fun c Hc =>
            prompt_reaches_handler "coinflip" c ["1"; "5"]%string five_coins
              Hc).
  apply (H _ eq_refl). repeat constructor.
Defined.

Lemma set_cookie_keeps_text_witness :
  stored_cookie (snd (repl_step "set-cookie a  b=c" anonymous))
  = Some (VStr "a  b=c").
Proof.
  destruct (set_cookie_keeps_text "a  b=c" [("cookie", VStr "unknown")]
              anonymous) as [(_ & B & _) _].
  - reflexivity.
  - exact B.
Defined.


(** What [fetch] takes as a header value, and what it does not: a
    line feed, a character beyond U+00FF, a space in front. *)
Example header_value_examples :
  header_value "session=abc; theme=dark" = true
  /\ header_value ("a" ++ nl ++ "b") = false
  /\ header_value (String (chr 226) (String (chr 130) (str1 (chr 172))))
     = false
  /\ header_value (String (chr 195) (str1 (chr 169))) = true
  /\ header_value " abc" = false.
Proof. repeat split; vm_compute; reflexivity. Qed.

Lemma notifications_once_each_witness :
  cmd_notifications [] inbox =
  (Ok tt,
   emits [Fetch {| url := "https://rugplay.com/api/notifications";
                   method := "GET"; headers := request_headers (VStr "abc");
                   body := NoBody |};
          Log [Tpl [Chalk bold [Txt "Notifications"]; Txt " ";
                    Chalk bg_red_bright [Str (VNum (Fin 1))]]];
          Log [Tpl [Chalk italic [Txt "Unread"]]];
          notification_line new_notification;
          Log [Tpl [Chalk italic [Txt "Read"]]];
          notification_line old_notification] inbox).
Proof.
  destruct (notifications_once_each [] inbox (VStr "abc") (ok_with inbox_text)
              (parsed inbox_text) (VNum (Fin 1))
              [old_notification; new_notification]) as [A _].
  - reflexivity.
  - reflexivity.
  - reflexivity.
  - reflexivity.
  - vm_compute. reflexivity.
  - vm_compute. reflexivity.
  - reflexivity.
  - vm_compute. reflexivity.
  - repeat constructor; try discriminate.
  - exact A.
Defined.

Lemma market_search_encoded_witness :
  exists more,
    trace (snd (cmd_market ["2"; "dog"; "coin"]%string five_coins)) =
    trace five_coins
    ++ Fetch {| url := "https://rugplay.com/api/market?search=dog%20coin&sortBy=marketCap&sortOrder=desc&priceFilter=all&changeFilter=all&page=2&limit=6";
                method := "GET";
                headers := request_headers (VStr "abc");
                body := NoBody |} :: more.
Proof.
  destruct (market_search_encoded "2" "dog" ["coin"%string] five_coins
              (VStr "abc")) as (A & _).
  - reflexivity.
  - reflexivity.
  - exact A.
Defined.

Lemma settings_form_witness :
  cmd_settings ["none"; "ann2"; "none"; "hi"; "there"]%string
    (profile_page "abc") =
  (Ok tt,
   emits [Fetch (me_request (VStr "abc"));
          Fetch {| url := "https://rugplay.com/api/settings";
                   method := "POST"; headers := request_headers (VStr "abc");
                   body := FormBody [("name", FormText "Ann");
                                     ("username", FormText "ann2");
                                     ("bio", FormText "hi there")] |};
          Log [Tpl [Chalk green_bright [Txt "Updated settings"]]]]
     (profile_page "abc")).
Proof.
  apply (settings_form "none" "ann2" "hi" ["there"%string]
           (profile_page "abc") (VStr "abc") (parsed page_text)
           (ok_with page_text) (ok_with page_text) "Ann").
  - reflexivity.
  - reflexivity.
  - reflexivity.
  - reflexivity.
  - vm_compute. reflexivity.
  - vm_compute. reflexivity.
  - intros _. exists (VStr "Ann"). split; vm_compute; reflexivity.
  - reflexivity.
  - reflexivity.
Defined.

Lemma me_prints_profile_witness :
  cmd_me [] (profile_page "unknown") =
  (Ok tt,
   emits [Fetch (me_request (VStr "unknown"));
          Log [Tpl [Chalk bold [Str (VStr "Ann")]; Txt " ";
                    Chalk italic [Txt "(@"; Str (VStr "ann"); Txt ")"];
                    Txt nl; Str (VStr "hello")]]] (profile_page "unknown")).
Proof.
  destruct (me_prints_profile [] (profile_page "unknown") (VStr "unknown")
              (ok_with page_text)) as (_ & _ & A).
  - reflexivity.
  - reflexivity.
  - apply (A (parsed page_text)); vm_compute; reflexivity.
Defined.

Lemma wager_reported_witness :
  wager_result
    (VObj [("won", VBool false); ("newBalance", VNum (parseFloat "12.3456"))])
    (Fin 5) anonymous =
  (Ok tt,
   emits [Log [Tpl [Txt "You "; Chalk red_bright [Txt "lost"]; Txt "."]];
          Log [Tpl [Txt "New balance: "; Chalk yellow_bright [Txt "$"];
                    Chalk yellow [Str (VNum (parseFloat "12.346"))];
                    Txt " (-"; Chalk red_bright [Str (VNum (Fin 5))];
                    Txt ")"]]] anonymous).
Proof.
  destruct (wager_reported
              (VObj [("won", VBool false);
                     ("newBalance", VNum (parseFloat "12.3456"))])
              (VBool false) (Fin 5) (parseFloat "12.3456") anonymous)
    as [A _].
  - reflexivity.
  - reflexivity.
  - etransitivity; [apply A; reflexivity |]. vm_compute. reflexivity.
Defined.

Lemma trade_reported_witness :
  cmd_buy_coin ["DOG"; "3x"]%string trader =
  (Ok tt,
   emits [Fetch {| url := "https://rugplay.com/api/coin/DOG/trade";
                   method := "POST"; headers := request_headers (VStr "abc");
                   body := json_body (VObj [("type", VStr "BUY");
                                            ("amount", VNum (Fin 3))]) |};
          Log [Tpl [Txt "Bought"; Txt " "; Str (VNum (Fin 3)); Txt " ";
                    Chalk bg_white [Txt "DOG"]; Txt " ";
                    Chalk green_bright [Txt "successfully"]; Txt "."]];
          Log [Tpl [Txt "New balance: "; Chalk yellow [Txt "$"];
                    Chalk yellow_bright [Str (VNum (Fin 97))]; Txt " (";
                    Txt "-"; Chalk red_bright [Txt "3x"]; Txt ")"]]] trader).
Proof.
  destruct (trade_reported "DOG" "3x" trader (VStr "abc") (ok_with order_text)
              (parsed order_text) (VNum (Fin 3)) (VNum (Fin 97))) as [A _].
  - reflexivity.
  - reflexivity.
  - reflexivity.
  - reflexivity.
  - vm_compute. reflexivity.
  - vm_compute. reflexivity.
  - vm_compute. reflexivity.
  - reflexivity.
  - reflexivity.
  - exact A.
Defined.

Lemma redeem_sends_code_witness :
  cmd_redeem [] promoter =
  (Ok tt,
   emits [Fetch {| url := "https://rugplay.com/api/promo/verify";
                   method := "POST"; headers := request_headers (VStr "abc");
                   body := TextBody "{}" |};
          Log [Raw (VStr "done")]] promoter).
Proof.
  apply (redeem_sends_code [] promoter (VStr "abc") (ok_with promo_text)
           (parsed promo_text) (VStr "done")).
  - reflexivity.
  - reflexivity.
  - reflexivity.
  - reflexivity.
  - vm_compute. reflexivity.
  - vm_compute. reflexivity.
Defined.

Lemma other_transactions_skipped_witness :
  portfolio_transaction (VObj [("type", VStr "AIRDROP")]) anonymous
  = (Ok tt, anonymous)
  /\ recent_transaction (VObj [("type", VStr "AIRDROP")]) anonymous
     = (Ok tt, anonymous).
Proof.
  apply (other_transactions_skipped (VObj [("type", VStr "AIRDROP")])
           (VStr "AIRDROP") anonymous).
  - reflexivity.
  - intros s E. injection E as <-. simpl.
    intros H. repeat (destruct H as [H | H]; [discriminate H |]). exact H.
Defined.

Lemma created_header_never_shown_witness :
  let coins := [VObj [("symbol", VStr "DOG")]; VObj [("symbol", VStr "CAT")]] in
  let json := VObj [("createdCoins", VArr coins)] in
  gt_num (VArr coins) (Fin 0) = Some false
  /\ exists es,
       trace (snd (view_user_tables json anonymous)) = trace anonymous ++ es
       /\ forall e, In e es -> is_created_header e = false.
Proof.
  intros coins json.
  apply (created_header_never_shown json coins anonymous).
  - reflexivity.
  - repeat constructor; eexists; split; reflexivity.
Defined.


(** Where the directory of the file is missing, [writeConfig] makes
    it. *)
Example writeConfig_makes_directory :
  let w := set_dirs [] anonymous in
  dirs w = []
  /\ fst (writeConfig default_config w) = Ok tt
  /\ dirs (snd (writeConfig default_config w)) = ["/home/u"%string].
Proof. repeat split; vm_compute; reflexivity. Qed.


(** The type of the file is in lower case, and empty when the
    extension has a character that a type cannot have. *)
Example mk_file_types :
  option_map file_type
    (match fst (mk_file "pics/Logo.PNG"
                  (set_files [("pics/Logo.PNG"%string, icon_entry)]
                     with_icon)) with
     | Ok f => Some f
     | _ => None
     end) = Some "image/png"%string
  /\ blob_type "image/PNG" = "image/png"%string
  /\ blob_type ("image/p" ++ nl ++ "g") = EmptyString.
Proof. repeat split; vm_compute; reflexivity. Qed.

Lemma new_coin_form_witness :
  cmd_new_coin ["Dog"; "DOG"; "nowhere.png"]%string anonymous =
  (Ok tt,
   emits [Log [Tpl [Chalk red_bright [Txt "Error whilst creating logo file"];
                    Txt ":"]];
          Log [RawError (NotFound "nowhere.png")]] anonymous).
Proof.
  destruct (new_coin_form "Dog" "DOG" "nowhere.png" anonymous) as (A & _).
  apply A. reflexivity.
Defined.

Lemma startup_takes_any_json_witness :
  startup null_config = (Ok tt, set_config VNull null_config)
  /\ cmd_set_cookie ["abc"%string] (set_config VNull null_config)
     = (Throw TypeError, set_config VNull null_config).
Proof.
  split.
  - destruct (startup_takes_any_json null_config) as (A & _).
    apply (A {| content := "null"; mtime := None |} VNull); reflexivity.
  - destruct (startup_takes_any_json (set_config VNull null_config))
      as (_ & B).
    destruct (B eq_refl) as (_ & _ & C). apply C.
Defined.

End Instances.
